(** * Vitrine interactive: gesture-to-action state machine and transport

    A shallow embedding of the carousel front end, [static/shop_carousel.js],
    and of its face-aware revision (the second copy of the same script, with
    [updateFaceDetection] and the three-argument [updateThemeMode]).

    The JavaScript program is a set of event listeners over one global
    [state] object.  It is modelled by explicit state passing: every source
    function that touches [state] becomes a function [World -> World], and
    every listener becomes one case of [step].  A [World] holds the [state]
    object, the two DOM nodes whose presence gates a state change, and the
    part of the browser the script relies on: running interval timers,
    pending timeouts, requests in flight, and the trace of what was sent.

    Rendering (class toggles, text, the 3D transforms, the nav-zone flash)
    writes no field of [state] and sends no request, and is no part of a
    [World].  What it computes in integers, booleans and strings (card
    positions, navigation dots, labels, gesture feedback, the scroll banner
    of the face-aware revision) is modelled beside it, as functions of the
    world; floating-point styles and the canvas background are left out. *)

From Stdlib Require Import ZArith List String Bool QArith Lia.
From Stdlib Require Import DecimalString.
Import ListNotations.
Local Open Scope string_scope.
Local Open Scope list_scope.
Local Open Scope Z_scope.

(** ** Data *)

(** A browser timer handle.  Browsers hand out strictly positive integers,
    which is what makes the source's [if (state.qrInterval)] a test for
    "a timer is stored". *)
Definition TimerId := positive.

(** One item of the content feed (the fields the script reads). *)
Record NostrEvent := mkEvent {
  ev_id : string;
  ev_pubkey : string;
  ev_content : string;
  ev_images : list string;
  ev_created_at : Z
}.

(** One gesture frame, as served by [/api/gesture] and pushed on the
    [gesture] socket event.  Numbers that JavaScript only compares with a
    constant are rationals. *)
Record Gesture := mkGesture {
  hand_detected : bool;
  hand_x : Q;
  gesture_name : string;
  is_thumbs_up : bool;
  is_open_hand : bool;
  is_fist : bool;
  thumbs_up_progress : Q;
  open_hand_progress : Q;
  face_detected : bool;
  face_count : Z;
  light_mode : bool;
  time_until_dark : Q;
  action : string
}.

(** [x > 0] on a JavaScript number. *)
Definition gt0 (x : Q) : bool := negb (Qle_bool x 0).

Module CONFIG.
Definition POLL_INTERVAL : Z := 50.
Definition QR_DISPLAY_TIME : Z := 10.
End CONFIG.

(** The global [state] object.  Fields the modelled functions never read or
    write ([eventsPolling], [thumbsUpProgress], [mouseEnabled], the face
    statistics and the scroll-banner configuration) are omitted. *)
Module state.
Record t := mk {
  events : list NostrEvent;
  currentIndex : Z;
  loading : bool;
  showDetail : bool;
  showQR : bool;
  qrCountdown : Z;
  qrInterval : option TimerId;
  lastAction : string;
  lightMode : bool;
  timeUntilDark : Q;
  socket : bool;
  useWebSocket : bool;
  gesturePolling : option TimerId;
  faceDetected : bool;
  faceCount : Z
}.

Definition set_events v (s : t) : t :=
  mk v (currentIndex s) (loading s) (showDetail s) (showQR s) (qrCountdown s)
     (qrInterval s) (lastAction s) (lightMode s) (timeUntilDark s) (socket s)
     (useWebSocket s) (gesturePolling s) (faceDetected s) (faceCount s).
Definition set_currentIndex v (s : t) : t :=
  mk (events s) v (loading s) (showDetail s) (showQR s) (qrCountdown s)
     (qrInterval s) (lastAction s) (lightMode s) (timeUntilDark s) (socket s)
     (useWebSocket s) (gesturePolling s) (faceDetected s) (faceCount s).
Definition set_loading v (s : t) : t :=
  mk (events s) (currentIndex s) v (showDetail s) (showQR s) (qrCountdown s)
     (qrInterval s) (lastAction s) (lightMode s) (timeUntilDark s) (socket s)
     (useWebSocket s) (gesturePolling s) (faceDetected s) (faceCount s).
Definition set_showDetail v (s : t) : t :=
  mk (events s) (currentIndex s) (loading s) v (showQR s) (qrCountdown s)
     (qrInterval s) (lastAction s) (lightMode s) (timeUntilDark s) (socket s)
     (useWebSocket s) (gesturePolling s) (faceDetected s) (faceCount s).
Definition set_showQR v (s : t) : t :=
  mk (events s) (currentIndex s) (loading s) (showDetail s) v (qrCountdown s)
     (qrInterval s) (lastAction s) (lightMode s) (timeUntilDark s) (socket s)
     (useWebSocket s) (gesturePolling s) (faceDetected s) (faceCount s).
Definition set_qrCountdown v (s : t) : t :=
  mk (events s) (currentIndex s) (loading s) (showDetail s) (showQR s) v
     (qrInterval s) (lastAction s) (lightMode s) (timeUntilDark s) (socket s)
     (useWebSocket s) (gesturePolling s) (faceDetected s) (faceCount s).
Definition set_qrInterval v (s : t) : t :=
  mk (events s) (currentIndex s) (loading s) (showDetail s) (showQR s)
     (qrCountdown s) v (lastAction s) (lightMode s) (timeUntilDark s) (socket s)
     (useWebSocket s) (gesturePolling s) (faceDetected s) (faceCount s).
Definition set_lastAction v (s : t) : t :=
  mk (events s) (currentIndex s) (loading s) (showDetail s) (showQR s)
     (qrCountdown s) (qrInterval s) v (lightMode s) (timeUntilDark s) (socket s)
     (useWebSocket s) (gesturePolling s) (faceDetected s) (faceCount s).
Definition set_lightMode v (s : t) : t :=
  mk (events s) (currentIndex s) (loading s) (showDetail s) (showQR s)
     (qrCountdown s) (qrInterval s) (lastAction s) v (timeUntilDark s) (socket s)
     (useWebSocket s) (gesturePolling s) (faceDetected s) (faceCount s).
Definition set_timeUntilDark v (s : t) : t :=
  mk (events s) (currentIndex s) (loading s) (showDetail s) (showQR s)
     (qrCountdown s) (qrInterval s) (lastAction s) (lightMode s) v (socket s)
     (useWebSocket s) (gesturePolling s) (faceDetected s) (faceCount s).
Definition set_socket v (s : t) : t :=
  mk (events s) (currentIndex s) (loading s) (showDetail s) (showQR s)
     (qrCountdown s) (qrInterval s) (lastAction s) (lightMode s)
     (timeUntilDark s) v (useWebSocket s) (gesturePolling s) (faceDetected s)
     (faceCount s).
Definition set_useWebSocket v (s : t) : t :=
  mk (events s) (currentIndex s) (loading s) (showDetail s) (showQR s)
     (qrCountdown s) (qrInterval s) (lastAction s) (lightMode s)
     (timeUntilDark s) (socket s) v (gesturePolling s) (faceDetected s)
     (faceCount s).
Definition set_gesturePolling v (s : t) : t :=
  mk (events s) (currentIndex s) (loading s) (showDetail s) (showQR s)
     (qrCountdown s) (qrInterval s) (lastAction s) (lightMode s)
     (timeUntilDark s) (socket s) (useWebSocket s) v (faceDetected s)
     (faceCount s).
Definition set_faceDetected v (s : t) : t :=
  mk (events s) (currentIndex s) (loading s) (showDetail s) (showQR s)
     (qrCountdown s) (qrInterval s) (lastAction s) (lightMode s)
     (timeUntilDark s) (socket s) (useWebSocket s) (gesturePolling s) v
     (faceCount s).
Definition set_faceCount v (s : t) : t :=
  mk (events s) (currentIndex s) (loading s) (showDetail s) (showQR s)
     (qrCountdown s) (qrInterval s) (lastAction s) (lightMode s)
     (timeUntilDark s) (socket s) (useWebSocket s) (gesturePolling s)
     (faceDetected s) v.

(** The object literal the script starts from. *)
Definition initial : t :=
  mk [] 0 true false false 0 None "idle" false 0%Q false false None false 0.
End state.

(** The two DOM nodes whose absence makes [showDetail] and [showQR] return
    before they write anything. *)
Module DOM.
Record t := mk { detailPanel : bool; qrOverlay : bool }.
End DOM.

(** What [typeof io] and the call [io(...)] can do at start-up. *)
Inductive IoLib := IoMissing | IoThrows | IoWorks.

(** The command handlers [handleGesture] can call. *)
Inductive Handler :=
| H_navigateRight
| H_navigateLeft
| H_showDetail (e : option NostrEvent)
| H_hideDetail
| H_capturePhoto.

Inductive Request :=
| PostSetIndex (index : Z)
| GetGesture
| PostCapture.

(** What the trace records: requests handed to [fetch], and the calls
    [handleGesture] makes to a command handler (from a switch arm or from
    the fist override). *)
Inductive Effect :=
| Fetch (r : Request)
| Dispatch (h : Handler).

(** The browser side of the world. *)
Module browser.
Record t := mk {
  io : IoLib;
  wsListening : bool;
  intervals : list TimerId;
  timeouts : list TimerId;
  nextTimer : TimerId;
  gestureFetches : nat;
  captureFetches : nat;
  trace : list Effect
}.

Definition set_wsListening v (b : t) : t :=
  mk (io b) v (intervals b) (timeouts b) (nextTimer b) (gestureFetches b)
     (captureFetches b) (trace b).
Definition set_intervals v (b : t) : t :=
  mk (io b) (wsListening b) v (timeouts b) (nextTimer b) (gestureFetches b)
     (captureFetches b) (trace b).
Definition set_timeouts v (b : t) : t :=
  mk (io b) (wsListening b) (intervals b) v (nextTimer b) (gestureFetches b)
     (captureFetches b) (trace b).
Definition set_nextTimer v (b : t) : t :=
  mk (io b) (wsListening b) (intervals b) (timeouts b) v (gestureFetches b)
     (captureFetches b) (trace b).
Definition set_gestureFetches v (b : t) : t :=
  mk (io b) (wsListening b) (intervals b) (timeouts b) (nextTimer b) v
     (captureFetches b) (trace b).
Definition set_captureFetches v (b : t) : t :=
  mk (io b) (wsListening b) (intervals b) (timeouts b) (nextTimer b)
     (gestureFetches b) v (trace b).
Definition set_trace v (b : t) : t :=
  mk (io b) (wsListening b) (intervals b) (timeouts b) (nextTimer b)
     (gestureFetches b) (captureFetches b) v.

Definition initial (lib : IoLib) : t := mk lib false [] [] 1%positive 0%nat 0%nat [].
End browser.

Record World := mkWorld {
  st : state.t;
  dom : DOM.t;
  br : browser.t
}.

Definition with_st (f : state.t -> state.t) (w : World) : World :=
  mkWorld (f (st w)) (dom w) (br w).
Definition with_br (f : browser.t -> browser.t) (w : World) : World :=
  mkWorld (st w) (dom w) (f (br w)).

(** The trace is kept newest first. *)
Definition emit (e : Effect) (w : World) : World :=
  with_br (fun b => browser.set_trace (e :: browser.trace b) b) w.

Definition itemCount (w : World) : Z := Z.of_nat (List.length (state.events (st w))).

(** [state.events[i]]: [undefined] outside the array. *)
Definition eventAt (w : World) (i : Z) : option NostrEvent :=
  if i <? 0 then None else nth_error (state.events (st w)) (Z.to_nat i).

Definition isSome {A} (o : option A) : bool :=
  match o with Some _ => true | None => false end.

(** ** Timers *)

Definition dropTimer (t : TimerId) (l : list TimerId) : list TimerId :=
  filter (fun x => negb (Pos.eqb x t)) l.

Definition hasTimer (t : TimerId) (l : list TimerId) : bool :=
  existsb (Pos.eqb t) l.

(** [setInterval]: a fresh handle, now running.  Intervals and timeouts draw
    their handles from one counter, as in a browser. *)
Definition setInterval (w : World) : TimerId * World :=
  let t := browser.nextTimer (br w) in
  (t, with_br (fun b => browser.set_nextTimer (Pos.succ t)
                          (browser.set_intervals (t :: browser.intervals b) b)) w).

Definition clearInterval (t : TimerId) (w : World) : World :=
  with_br (fun b => browser.set_intervals (dropTimer t (browser.intervals b)) b) w.

(** [setTimeout]: a fresh handle, pending until it fires. *)
Definition setTimeout (w : World) : TimerId * World :=
  let t := browser.nextTimer (br w) in
  (t, with_br (fun b => browser.set_nextTimer (Pos.succ t)
                          (browser.set_timeouts (t :: browser.timeouts b) b)) w).

(** ** Navigation *)

Definition navigateTo (index : Z) (w : World) : World :=
  let maxIndex := itemCount w - 1 in
  let w1 := with_st (state.set_currentIndex (Z.max 0 (Z.min index maxIndex))) w in
  emit (Fetch (PostSetIndex (state.currentIndex (st w1)))) w1.

Definition navigateLeft (w : World) : World :=
  if 0 <? state.currentIndex (st w)
  then navigateTo (state.currentIndex (st w) - 1) w
  else w.

Definition navigateRight (w : World) : World :=
  if state.currentIndex (st w) <? itemCount w - 1
  then navigateTo (state.currentIndex (st w) + 1) w
  else w.

(** ** Overlays *)

Definition showDetail (event : option NostrEvent) (w : World) : World :=
  if negb (DOM.detailPanel (dom w)) || negb (isSome event) then w
  else with_st (state.set_showDetail true) w.

Definition hideDetail (w : World) : World :=
  if negb (state.showDetail (st w)) then w
  else with_st (state.set_showDetail false) w.

(** [showQR]: the interval it starts runs [qrTick] once a second. *)
Definition showQR (w : World) : World :=
  if negb (DOM.qrOverlay (dom w)) then w
  else
    let w1 := with_st (state.set_showQR true) w in
    let w2 := with_st (state.set_qrCountdown CONFIG.QR_DISPLAY_TIME) w1 in
    let w3 := match state.qrInterval (st w2) with
              | Some t => clearInterval t w2
              | None => w2
              end in
    let '(t, w4) := setInterval w3 in
    with_st (state.set_qrInterval (Some t)) w4.

Definition hideQR (w : World) : World :=
  let w1 := with_st (state.set_showQR false) w in
  match state.qrInterval (st w1) with
  | Some t => with_st (state.set_qrInterval None) (clearInterval t w1)
  | None => w1
  end.

(** The body of the interval callback installed by [showQR]. *)
Definition qrTick (w : World) : World :=
  let w1 := with_st (state.set_qrCountdown (state.qrCountdown (st w) - 1)) w in
  if state.qrCountdown (st w1) <=? 0 then hideQR w1 else w1.

(** [capturePhoto] up to its first [await]: the request leaves. *)
Definition capturePhoto (w : World) : World :=
  if state.showQR (st w) then w
  else with_br (fun b => browser.set_captureFetches (S (browser.captureFetches b)) b)
         (emit (Fetch PostCapture) w).

(** [capturePhoto] after the [await]: [data.success] decides. *)
Definition captureDone (success : bool) (w : World) : World :=
  if success then showQR w else w.

(** ** Gesture frames *)

Definition run_handler (h : Handler) (w : World) : World :=
  match h with
  | H_navigateRight => navigateRight w
  | H_navigateLeft => navigateLeft w
  | H_showDetail e => showDetail e w
  | H_hideDetail => hideDetail w
  | H_capturePhoto => capturePhoto w
  end.

Definition dispatch (h : Handler) (w : World) : World :=
  run_handler h (emit (Dispatch h) w).

(** The [switch (gesture.action)] of [handleGesture]. *)
Definition actionSwitch (g : Gesture) (w : World) : World :=
  let a := action g in
  if String.eqb a "nav_left" then
    if negb (state.showDetail (st w)) && negb (state.showQR (st w))
    then dispatch H_navigateRight w else w
  else if String.eqb a "nav_right" then
    if negb (state.showDetail (st w)) && negb (state.showQR (st w))
    then dispatch H_navigateLeft w else w
  else if String.eqb a "detail" then
    if negb (state.showQR (st w)) && isSome (eventAt w (state.currentIndex (st w)))
    then dispatch (H_showDetail (eventAt w (state.currentIndex (st w)))) w else w
  else if String.eqb a "detail_close" then
    dispatch H_hideDetail w
  else if String.eqb a "capture" then
    if negb (state.showQR (st w)) then dispatch H_capturePhoto w else w
  else w.

(** [if (gesture.action !== state.lastAction) { ... }]. *)
Definition edgeDispatch (g : Gesture) (w : World) : World :=
  if String.eqb (action g) (state.lastAction (st w)) then w
  else actionSwitch g (with_st (state.set_lastAction (action g)) w).

(** [if (gesture.is_fist && state.showDetail) hideDetail()]. *)
Definition fistOverride (g : Gesture) (w : World) : World :=
  if is_fist g && state.showDetail (st w) then dispatch H_hideDetail w else w.

(** [updateThemeMode] and [handleGesture] of [static/shop_carousel.js]. *)
Module Shop.
Definition updateThemeMode (lightMode : bool) (timeUntilDark : Q) (w : World) : World :=
  let w1 := if Bool.eqb lightMode (state.lightMode (st w)) then w
            else with_st (state.set_lightMode lightMode) w in
  with_st (state.set_timeUntilDark timeUntilDark) w1.

Definition handleGesture (g : Gesture) (w : World) : World :=
  let w1 := updateThemeMode (light_mode g) (time_until_dark g) w in
  let w2 := edgeDispatch g w1 in
  fistOverride g w2.
End Shop.

(** The same two functions, and [updateFaceDetection], of the face-aware
    revision of the script. *)
Module FaceId.
Definition updateFaceDetection (faceDetected : bool) (faceCount : Z) (w : World) : World :=
  with_st (state.set_faceCount faceCount) (with_st (state.set_faceDetected faceDetected) w).

Definition effectiveLightMode (lightMode : bool) (timeUntilDark : Q) (handDetected : bool) : bool :=
  if handDetected then true else (if gt0 timeUntilDark then lightMode else false).

Definition updateThemeMode (lightMode : bool) (timeUntilDark : Q) (handDetected : bool)
  (w : World) : World :=
  let eff := effectiveLightMode lightMode timeUntilDark handDetected in
  let w1 := if Bool.eqb eff (state.lightMode (st w)) then w
            else with_st (state.set_lightMode eff) w in
  with_st (state.set_timeUntilDark timeUntilDark) w1.

Definition handleGesture (g : Gesture) (w : World) : World :=
  let w0 := updateFaceDetection (face_detected g) (face_count g) w in
  let w1 := updateThemeMode (light_mode g) (time_until_dark g) (hand_detected g) w0 in
  let w2 := edgeDispatch g w1 in
  fistOverride g w2.
End FaceId.

(** Which copy of the script is running. *)
Inductive Revision := Static | FaceAware.

Definition handleGesture (r : Revision) : Gesture -> World -> World :=
  match r with
  | Static => Shop.handleGesture
  | FaceAware => FaceId.handleGesture
  end.

(** ** Transport: socket first, polling as the fallback *)

(** [poll] up to its first [await]: test the flag, then send the request. *)
Definition poll (w : World) : World :=
  if state.useWebSocket (st w) then w
  else with_br (fun b => browser.set_gestureFetches (S (browser.gestureFetches b)) b)
         (emit (Fetch GetGesture) w).

Definition startPollingFallback (w : World) : World :=
  if state.useWebSocket (st w) then w else poll w.

(** [poll] after the [await]: the frame (or the failure, [None]) is handled,
    then the next run is scheduled unless the socket took over. *)
Definition pollDone (hg : Gesture -> World -> World) (resp : option Gesture)
  (w : World) : World :=
  let w1 := match resp with
            | Some gesture => hg gesture w
            | None => w
            end in
  if negb (state.useWebSocket (st w1)) then
    let '(t, w2) := setTimeout w1 in
    with_st (state.set_gesturePolling (Some t)) w2
  else w1.

(** The four socket listeners. *)
Definition onConnect (w : World) : World :=
  with_st (state.set_useWebSocket true) w.

Definition onGesture (hg : Gesture -> World -> World) (g : Gesture) (w : World) : World :=
  hg g w.

Definition onDisconnect (w : World) : World :=
  startPollingFallback (with_st (state.set_useWebSocket false) w).

Definition onConnectError (w : World) : World :=
  let w1 := with_st (state.set_useWebSocket false) w in
  let w2 := if state.socket (st w1) then with_st (state.set_socket false) w1 else w1 in
  startPollingFallback w2.

Definition startGesturePolling (w : World) : World :=
  match browser.io (br w) with
  | IoWorks =>
      with_br (browser.set_wsListening true) (with_st (state.set_socket true) w)
  | IoThrows => startPollingFallback w
  | IoMissing => startPollingFallback w
  end.

(** ** Content feed *)

(** [loadEvents] after its [await], on success. *)
Definition eventsLoaded (evs : list NostrEvent) (ld : bool) (w : World) : World :=
  let w1 := with_st (state.set_loading ld) (with_st (state.set_events evs) w) in
  if (0 <? itemCount w1) && (state.currentIndex (st w1) =? 0)
  then navigateTo 0 w1 else w1.

(** ** Mouse, touch and keyboard *)

(** The keys the listener tells apart: [ArrowLeft] stands for ArrowLeft and
    a, [ArrowRight] for ArrowRight and d, [Enter] for Enter and the space
    bar, [End_] for End. *)
Inductive Key := Escape | ArrowLeft | ArrowRight | Enter | Home | End_ | OtherKey.

Inductive Side := Left | Right.

Definition onKeyDown (k : Key) (w : World) : World :=
  if state.showQR (st w) then
    match k with Escape => hideQR w | _ => w end
  else if state.showDetail (st w) then
    match k with Escape => hideDetail w | _ => w end
  else
    match k with
    | ArrowLeft => navigateLeft w
    | ArrowRight => navigateRight w
    | Enter =>
        if isSome (eventAt w (state.currentIndex (st w)))
        then showDetail (eventAt w (state.currentIndex (st w))) w else w
    | Home => navigateTo 0 w
    | End_ => navigateTo (itemCount w - 1) w
    | Escape => w
    | OtherKey => w
    end.

(** The wheel listener; [forward] is [e.deltaY > 0 || e.deltaX > 0]. *)
Definition onWheel (forward : bool) (w : World) : World :=
  if state.showDetail (st w) || state.showQR (st w) then w
  else if forward then navigateRight w else navigateLeft w.

(** The touch listener, for a horizontal swipe; [toRight] is [diffX > 0]. *)
Definition onSwipe (toRight : bool) (w : World) : World :=
  if state.showDetail (st w) || state.showQR (st w) then w
  else if toRight then navigateLeft w else navigateRight w.

Definition onNavZoneClick (s : Side) (w : World) : World :=
  match s with Left => navigateLeft w | Right => navigateRight w end.

(** The click listener of the card rendered for [events[index]]. *)
Definition onCardClick (index : Z) (w : World) : World :=
  match eventAt w index with
  | None => w
  | Some event =>
      if index =? state.currentIndex (st w) then showDetail (Some event) w
      else navigateTo index w
  end.

(** ** The event loop *)

Inductive Input :=
| EventsLoaded (evs : list NostrEvent) (ld : bool)
| WsConnect
| WsGesture (g : Gesture)
| WsDisconnect
| WsConnectError
| PollResponse (resp : option Gesture)
| PollTimeout (t : TimerId)
| QrTick (t : TimerId)
| CaptureResponse (success : bool)
| KeyDown (k : Key)
| Wheel (forward : bool)
| Swipe (toRight : bool)
| NavZoneClick (s : Side)
| CardClick (index : Z)
| DetailCloseClick
| QrOverlayClick.

(** One turn of the event loop.  A socket event needs the listeners of
    [startGesturePolling]; a response needs a request in flight; a timer
    fires only while it is still set. *)
Definition step (r : Revision) (w : World) (i : Input) : World :=
  match i with
  | EventsLoaded evs ld => eventsLoaded evs ld w
  | WsConnect => if browser.wsListening (br w) then onConnect w else w
  | WsGesture g =>
      if browser.wsListening (br w) then onGesture (handleGesture r) g w else w
  | WsDisconnect => if browser.wsListening (br w) then onDisconnect w else w
  | WsConnectError => if browser.wsListening (br w) then onConnectError w else w
  | PollResponse resp =>
      match browser.gestureFetches (br w) with
      | O => w
      | S n => pollDone (handleGesture r) resp
                 (with_br (browser.set_gestureFetches n) w)
      end
  | PollTimeout t =>
      if hasTimer t (browser.timeouts (br w))
      then poll (with_br (fun b => browser.set_timeouts
                                     (dropTimer t (browser.timeouts b)) b) w)
      else w
  | QrTick t =>
      if hasTimer t (browser.intervals (br w)) then qrTick w else w
  | CaptureResponse success =>
      match browser.captureFetches (br w) with
      | O => w
      | S n => captureDone success (with_br (browser.set_captureFetches n) w)
      end
  | KeyDown k => onKeyDown k w
  | Wheel forward => onWheel forward w
  | Swipe toRight => onSwipe toRight w
  | NavZoneClick s => onNavZoneClick s w
  | CardClick index => onCardClick index w
  | DetailCloseClick => hideDetail w
  | QrOverlayClick => if DOM.qrOverlay (dom w) then hideQR w else w
  end.

Definition run (r : Revision) (ins : list Input) (w : World) : World :=
  fold_left (step r) ins w.

(** The world once [DOMContentLoaded] has run [startGesturePolling]. *)
Definition boot (d : DOM.t) (lib : IoLib) : World :=
  startGesturePolling (mkWorld state.initial d (browser.initial lib)).

Definition reachable (r : Revision) (w : World) : Prop :=
  exists d lib ins, w = run r ins (boot d lib).

(** A run of frames through [handleGesture]. *)
Definition frames (r : Revision) (gs : list Gesture) (w : World) : World :=
  fold_left (fun w g => handleGesture r g w) gs w.

(** ** Navigation state *)

(** The range invariant of [currentIndex]. *)
Definition index_in_range (w : World) : Prop :=
  (itemCount w = 0 -> state.currentIndex (st w) = 0) /\
  (0 < itemCount w -> 0 <= state.currentIndex (st w) <= itemCount w - 1).

Inductive NavOp :=
| OpNavigateTo (index : Z)
| OpNavigateLeft
| OpNavigateRight.

Definition nav (w : World) (op : NavOp) : World :=
  match op with
  | OpNavigateTo index => navigateTo index w
  | OpNavigateLeft => navigateLeft w
  | OpNavigateRight => navigateRight w
  end.

Definition navs (ops : list NavOp) (w : World) : World := fold_left nav ops w.

(** ** Sample data for the worked examples *)

Definition item (n : string) : NostrEvent := mkEvent n "copylaradio" n [] 0.

Definition five_items : list NostrEvent :=
  [item "a"; item "b"; item "c"; item "d"; item "e"].

Definition full_dom : DOM.t := DOM.mk true true.

(** A frame that carries only an action. *)
Definition frame (a : string) : Gesture :=
  mkGesture false 0%Q "none" false false false 0%Q 0%Q false 0 false 0%Q a.

(** A closed fist, with the given action. *)
Definition fist_frame (a : string) : Gesture :=
  mkGesture true (1#2)%Q "fist" false false true 0%Q 0%Q false 0 true 60%Q a.

(** Five items loaded and the third one clicked to the centre: nothing open,
    polling mode, no frame seen yet. *)
Definition kiosk : World :=
  run Static [EventsLoaded five_items false; CardClick 2] (boot full_dom IoMissing).

(** A session in which a capture is confirmed while the Detail panel is open. *)
Definition capture_over_detail : World :=
  run Static
    [EventsLoaded five_items false; WsConnect;
     WsGesture (frame "detail"); WsGesture (frame "capture"); CaptureResponse true]
    (boot full_dom IoWorks).

(** A pointing hand while the server's hint says dark. *)
Definition hand_but_dark_hint : Gesture :=
  mkGesture true (1#2)%Q "pointing" false false false 0%Q 0%Q false 0 false 0%Q "none".

(** No hand, the decay timer at zero, the server's hint still light. *)
Definition stale_light_hint : Gesture :=
  mkGesture false 0%Q "none" false false false 0%Q 0%Q true 1 true 0%Q "none".

(** A capture confirmed on the kiosk, three ticks of its countdown. *)
Definition qr_after_3s : World :=
  run Static
    [EventsLoaded five_items false; WsConnect;
     WsGesture (frame "capture"); CaptureResponse true;
     QrTick 1%positive; QrTick 1%positive; QrTick 1%positive]
    (boot full_dom IoWorks).

(** The socket connected, dropped (polling starts, one request in flight),
    and connected again before the response is back. *)
Definition reconnected : World :=
  run Static [EventsLoaded five_items false; WsConnect; WsDisconnect; WsConnect]
    (boot full_dom IoWorks).

(** ** Vocabulary of the statements *)

(** The part of [handleGesture] before the action block. *)
Definition themeStep (r : Revision) (g : Gesture) (w : World) : World :=
  match r with
  | Static => Shop.updateThemeMode (light_mode g) (time_until_dark g) w
  | FaceAware =>
      FaceId.updateThemeMode (light_mode g) (time_until_dark g) (hand_detected g)
        (FaceId.updateFaceDetection (face_detected g) (face_count g) w)
  end.

(** Overwrite the four theme and face fields. *)
Definition retheme (lm : bool) (tud : Q) (fd : bool) (fc : Z) (w : World) : World :=
  with_st (fun s => state.set_faceCount fc (state.set_faceDetected fd
                      (state.set_timeUntilDark tud (state.set_lightMode lm s)))) w.

(** The handlers dispatched along a trace, newest first. *)
Fixpoint dispatched (tr : list Effect) : list Handler :=
  match tr with
  | [] => []
  | Dispatch h :: tr' => h :: dispatched tr'
  | Fetch _ :: tr' => dispatched tr'
  end.

(** The handler that belongs to an action value. *)
Definition handles (a : string) (h : Handler) : Prop :=
  match h with
  | H_navigateRight => a = "nav_left"
  | H_navigateLeft => a = "nav_right"
  | H_showDetail _ => a = "detail"
  | H_hideDetail => a = "detail_close"
  | H_capturePhoto => a = "capture"
  end.

(** The guard of the switch arm of an action value: whether the arm calls
    its handler.  Values without an arm call nothing. *)
Definition armGuard (a : string) (w : World) : bool :=
  if String.eqb a "nav_left" || String.eqb a "nav_right" then
    negb (state.showDetail (st w)) && negb (state.showQR (st w))
  else if String.eqb a "detail" then
    negb (state.showQR (st w)) && isSome (eventAt w (state.currentIndex (st w)))
  else if String.eqb a "detail_close" then true
  else if String.eqb a "capture" then negb (state.showQR (st w))
  else false.

(** What the fist override adds to the dispatched handlers. *)
Definition fistCalls (g : Gesture) (detailOpen : bool) : list Handler :=
  if is_fist g && detailOpen then [H_hideDetail] else [].

Definition is_poll (e : Effect) : bool :=
  match e with Fetch GetGesture => true | _ => false end.

(** The number of gesture requests sent so far. *)
Definition polls (w : World) : nat := List.length (filter is_poll (browser.trace (br w))).

Ltac split_ifs :=
  repeat match goal with
         | |- context [if ?c then _ else _] => destruct c eqn:?
         end.

(** The world with the fields a frame's action block may write blanked out,
    and only the gesture requests kept of its trace. *)
Definition offstage (w : World) : World :=
  mkWorld
    (state.set_lastAction "" (state.set_showDetail false (state.set_currentIndex 0 (st w))))
    (dom w)
    (browser.set_trace (filter is_poll (browser.trace (br w)))
       (browser.set_captureFetches 0%nat (br w))).

(** The QR overlay with its countdown timer. *)
Definition qrView (w : World) :=
  (browser.intervals (br w), state.qrInterval (st w),
   state.qrCountdown (st w), state.showQR (st w)).

(** The transport: the flag, the gesture requests sent and in flight, the
    pending poll timers. *)
Definition netView (w : World) :=
  (state.useWebSocket (st w), polls w,
   browser.gestureFetches (br w), browser.timeouts (br w)).

Definition sideView (w : World) := (qrView w, netView w).

(** At most the stored countdown timer is running. *)
Definition timer_inv (w : World) : Prop :=
  browser.intervals (br w) =
    match state.qrInterval (st w) with Some t => [t] | None => [] end.

Definition qr_closed (w : World) : Prop :=
  browser.intervals (br w) = [] /\ state.qrInterval (st w) = None /\
  state.showQR (st w) = false.

Definition keeps_socket (i : Input) : Prop := i <> WsDisconnect /\ i <> WsConnectError.

Ltac split_all :=
  repeat match goal with
         | |- context [if ?c then _ else _] => destruct c eqn:?
         | |- context [match ?o with Some _ => _ | None => _ end] => destruct o eqn:?
         end.

(** What the transport may lose but never gain while the socket is up. *)
Definition net_le (w' w : World) : Prop :=
  state.useWebSocket (st w') = state.useWebSocket (st w) /\
  polls w' = polls w /\
  (browser.gestureFetches (br w') <= browser.gestureFetches (br w))%nat /\
  (List.length (browser.timeouts (br w')) <= List.length (browser.timeouts (br w)))%nat.

(** ** More vocabulary: the countdown and the polling loops *)

(** The QR overlay is shown, its countdown stands at [c], and [t] is its
    one running timer. *)
Definition qr_open_at (t : TimerId) (c : Z) (w : World) : Prop :=
  state.showQR (st w) = true /\
  state.qrCountdown (st w) = c /\
  browser.intervals (br w) = [t] /\
  state.qrInterval (st w) = Some t.

(** Polling loops alive: each one has either its request in flight or its
    timer pending. *)
Definition loops (w : World) : nat :=
  (browser.gestureFetches (br w) + List.length (browser.timeouts (br w)))%nat.

(** A world in which no overlay is open. *)
Definition no_overlay (w : World) : Prop :=
  state.showDetail (st w) = false /\ state.showQR (st w) = false.

(** Exactly one polling loop is alive and no socket is in play. *)
Definition single_loop (w : World) : Prop :=
  browser.wsListening (br w) = false /\
  state.useWebSocket (st w) = false /\
  ((browser.gestureFetches (br w) = 1%nat /\ browser.timeouts (br w) = []) \/
   (browser.gestureFetches (br w) = 0%nat /\ exists t, browser.timeouts (br w) = [t])).

(** The pending timeouts are distinct handles already handed out. *)
Definition timers_fresh (w : World) : Prop :=
  NoDup (browser.timeouts (br w)) /\
  Forall (fun t => (t < browser.nextTimer (br w))%positive) (browser.timeouts (br w)).

(** The inputs that drop the socket. *)
Definition drops_socket (i : Input) : bool :=
  match i with WsDisconnect | WsConnectError => true | _ => false end.

(** A drop, a response, a reconnect, a second drop, and the first loop's
    timer firing. *)
Definition two_loops : World :=
  run Static
    [WsConnect; WsDisconnect; PollResponse None; WsConnect; WsDisconnect;
     PollTimeout 1%positive]
    (boot full_dom IoWorks).

Ltac unfold_listeners :=
  unfold eventsLoaded, onConnect, onDisconnect, onConnectError, startPollingFallback,
    poll, qrTick, captureDone, showQR, hideQR, onKeyDown, onWheel, onSwipe,
    onNavZoneClick, onCardClick, navigateLeft, navigateRight, showDetail, hideDetail.

(** ** Navigation dots *)

(** One dot of the dot bar: the index its click listener navigates to, and
    whether it carries the class [active]. *)
Record Dot := mkDot { dotTarget : Z; dotActive : bool }.

Definition maxDots : Z := 15.

(** [Math.ceil(n / d)] on non-negative integers. *)
Definition ceilDiv (n d : Z) : Z := (n + d - 1) / d.

(** The stride between two dots: one dot per item up to 15 items, fewer
    dots than items beyond. *)
Definition dotStep (n : Z) : Z := if maxDots <? n then ceilDiv n maxDots else 1.

(** The [for] loop of [renderNavDots], from index [i] on; [fuel] bounds the
    number of rounds. *)
Fixpoint dotsFrom (fuel : nat) (i n s ci : Z) : list Dot :=
  match fuel with
  | O => []
  | S fuel' =>
      if i <? n
      then mkDot i (Z.abs (i - ci) <? s) :: dotsFrom fuel' (i + s) n s ci
      else []
  end.

Definition renderNavDots (w : World) : list Dot :=
  let n := itemCount w in
  dotsFrom (Z.to_nat n) 0 n (dotStep n) (state.currentIndex (st w)).

(** The [forEach] of [updateNavDots], from position [i] on. *)
Fixpoint redotFrom (i s ci : Z) (dots : list Dot) : list Dot :=
  match dots with
  | [] => []
  | d :: ds => mkDot (dotTarget d) (Z.abs (i * s - ci) <? s) :: redotFrom (i + 1) s ci ds
  end.

Definition updateNavDots (w : World) (dots : list Dot) : list Dot :=
  redotFrom 0 (dotStep (itemCount w)) (state.currentIndex (st w)) dots.

(** The click listener of a dot. *)
Definition onDotClick (d : Dot) (w : World) : World := navigateTo (dotTarget d) w.

(** ** Card positions *)

(** [CONFIG.MAX_VISIBLE_CARDS]. *)
Definition MAX_VISIBLE_CARDS : Z := 5.

(** The inline style and the [active] class of one card, as far as
    [updateCarouselPositions] writes integers: [translateX], [translateZ]
    and [rotateY] of the transform, and [zIndex].  The scale and the value of
    a non-zero opacity are floating-point numbers and are left out; [hidden]
    says that the opacity is the string 0, [clickable] that [pointerEvents]
    is [auto] rather than [none]. *)
Record Card := mkCard {
  hidden : bool;
  clickable : bool;
  translateX : Z;
  translateZ : Z;
  rotateY : Z;
  zIndex : option Z;
  cardActive : bool
}.

(** A card as [createCard] leaves it: no inline style, not active. *)
Definition freshCard : Card := mkCard false true 0 0 0 None false.

(** The body of the [forEach] in [updateCarouselPositions]. *)
Definition updateCard (ci index : Z) (c : Card) : Card :=
  let offset := index - ci in
  let absOffset := Z.abs offset in
  if MAX_VISIBLE_CARDS / 2 + 1 <? absOffset then
    mkCard true false (translateX c) (translateZ c) (rotateY c) (zIndex c) (cardActive c)
  else
    mkCard false true (offset * 350) (- absOffset * 100) (offset * -30)
           (Some (MAX_VISIBLE_CARDS - absOffset)) (index =? ci).

Fixpoint updateCardsFrom (index ci : Z) (cards : list Card) : list Card :=
  match cards with
  | [] => []
  | c :: cs => updateCard ci index c :: updateCardsFrom (index + 1) ci cs
  end.

Definition updateCarouselPositions (w : World) (cards : list Card) : list Card :=
  updateCardsFrom 0 (state.currentIndex (st w)) cards.

(** [renderCarousel]: one fresh card per item, then the positions. *)
Definition renderCarousel (w : World) : list Card :=
  updateCarouselPositions w (map (fun _ => freshCard) (state.events (st w))).

(** ** Card and panel texts *)

(** [`${n}`] for an integer. *)
Definition showZ (n : Z) : string := NilZero.string_of_int (Z.to_int n).

(** A JavaScript string is falsy exactly when it is empty; a missing field is
    read as the empty string. *)
Definition truthy (s : string) : bool := negb (String.eqb s EmptyString).

(** [event.profile], with the two fields the labels read. *)
Record Profile := mkProfile {
  display_name : string;
  name : string
}.

(** [event.profile || {}]. *)
Definition profileOf (p : option Profile) : Profile :=
  match p with
  | Some pr => pr
  | None => mkProfile EmptyString EmptyString
  end.

(** [displayName] of [createCard] and of [showDetail]. *)
Definition displayName (p : option Profile) (e : NostrEvent) : string :=
  let profile := profileOf p in
  if truthy (display_name profile) then display_name profile
  else if truthy (name profile) then name profile
  else "@" ++ (if truthy (String.substring 0 8 (ev_pubkey e))
               then String.substring 0 8 (ev_pubkey e) else "anon").

(** [authorShort] of [createCard]. *)
Definition authorShort (e : NostrEvent) : string :=
  if truthy (ev_pubkey e) then String.substring 0 8 (ev_pubkey e) else "anon".

(** [pubkeyShort] of [showDetail]. *)
Definition pubkeyShort (e : NostrEvent) : string :=
  if truthy (ev_pubkey e) then String.substring 0 16 (ev_pubkey e) ++ "..." else "Unknown".

Section TimeAgo.

(** [new Date(ms).toLocaleDateString()], which depends on the browser's
    locale and time zone. *)
Variable toLocaleDateString : Z -> string.

(** [formatTimeAgo], with [now] for [Math.floor(Date.now() / 1000)].  Time
    stamps are whole seconds; a missing one is read as 0, which is falsy
    too. *)
Definition formatTimeAgo (now timestamp : Z) : string :=
  if timestamp =? 0 then "Unknown"
  else
    let diff := now - timestamp in
    if diff <? 60 then "just now"
    else if diff <? 3600 then showZ (diff / 60) ++ "m ago"
    else if diff <? 86400 then showZ (diff / 3600) ++ "h ago"
    else if diff <? 604800 then showZ (diff / 86400) ++ "d ago"
    else toLocaleDateString (timestamp * 1000).

End TimeAgo.

(** ** Gesture feedback on screen *)

(** The classes that [handleGesture] toggles on the two navigation zones, the
    centre hint and the two progress rings, and the pending 300 ms timers of
    [flashNavZone].  The five elements are taken to exist: on a missing one
    the optional chaining of the source does nothing.  The stroke offset of a
    ring is a floating-point product and is left out. *)
Record Hud := mkHud {
  navZoneLeft : bool;
  navZoneRight : bool;
  centerHint : bool;
  openHandProgress : bool;
  captureProgress : bool;
  flashTimers : list Side
}.

Definition set_zone (side : Side) (on : bool) (h : Hud) : Hud :=
  match side with
  | Left => mkHud on (navZoneRight h) (centerHint h) (openHandProgress h)
                  (captureProgress h) (flashTimers h)
  | Right => mkHud (navZoneLeft h) on (centerHint h) (openHandProgress h)
                   (captureProgress h) (flashTimers h)
  end.

Definition set_centerHint (on : bool) (h : Hud) : Hud :=
  mkHud (navZoneLeft h) (navZoneRight h) on (openHandProgress h) (captureProgress h)
        (flashTimers h).

Definition set_openHandProgress (on : bool) (h : Hud) : Hud :=
  mkHud (navZoneLeft h) (navZoneRight h) (centerHint h) on (captureProgress h)
        (flashTimers h).

Definition set_captureProgress (on : bool) (h : Hud) : Hud :=
  mkHud (navZoneLeft h) (navZoneRight h) (centerHint h) (openHandProgress h) on
        (flashTimers h).

Definition set_flashTimers (ts : list Side) (h : Hud) : Hud :=
  mkHud (navZoneLeft h) (navZoneRight h) (centerHint h) (openHandProgress h)
        (captureProgress h) ts.

Definition flashNavZone (side : Side) (h : Hud) : Hud :=
  set_flashTimers (flashTimers h ++ [side]) (set_zone side true h).

Definition showCaptureProgress (progress : Q) (h : Hud) : Hud :=
  if gt0 progress then set_captureProgress true h else h.

Definition hideCaptureProgress (h : Hud) : Hud := set_captureProgress false h.

Definition showOpenHandProgress (progress : Q) (h : Hud) : Hud :=
  if gt0 progress then set_openHandProgress true h else h.

Definition hideOpenHandProgress (h : Hud) : Hud := set_openHandProgress false h.

(** [x < y] on JavaScript numbers. *)
Definition Qlt_bool (x y : Q) : bool := negb (Qle_bool y x).

(** The literals 0.25, 0.35, 0.65 and 0.75 as the doubles they denote: the
    first and the last are exact, the middle two are the nearest doubles. *)
Definition c0_25 : Q := 1 # 4.
Definition c0_35 : Q := 6305039478318694 # 18014398509481984.
Definition c0_65 : Q := 5854679515581645 # 9007199254740992.
Definition c0_75 : Q := 3 # 4.

(** The flashes of the action block: the tests of [actionSwitch] and of
    [edgeDispatch], on the same world. *)
Definition flashSwitch (g : Gesture) (w : World) (h : Hud) : Hud :=
  let a := action g in
  if String.eqb a "nav_left" then
    if negb (state.showDetail (st w)) && negb (state.showQR (st w))
    then flashNavZone Right h else h
  else if String.eqb a "nav_right" then
    if negb (state.showDetail (st w)) && negb (state.showQR (st w))
    then flashNavZone Left h else h
  else h.

Definition flashEdge (g : Gesture) (w : World) (h : Hud) : Hud :=
  if String.eqb (action g) (state.lastAction (st w)) then h
  else flashSwitch g (with_st (state.set_lastAction (action g)) w) h.

(** The end of [handleGesture], from [if (state.showQR) return] on; [w] is
    the world that the action block and the fist test leave. *)
Definition visualUpdates (g : Gesture) (w : World) (h : Hud) : Hud :=
  if state.showQR (st w) then h
  else
    let h1 :=
      if hand_detected g && negb (state.showDetail (st w)) then
        let h0 :=
          if Qlt_bool (hand_x g) c0_25 then set_zone Left false (set_zone Right true h)
          else if Qlt_bool c0_75 (hand_x g) then set_zone Right false (set_zone Left true h)
          else set_zone Right false (set_zone Left false h) in
        if Qlt_bool c0_35 (hand_x g) && Qlt_bool (hand_x g) c0_65
           && negb (is_open_hand g) && negb (state.showDetail (st w))
        then set_centerHint true h0 else set_centerHint false h0
      else set_centerHint false (set_zone Right false (set_zone Left false h)) in
    let h2 :=
      if is_open_hand g && negb (state.showDetail (st w)) && gt0 (open_hand_progress g)
      then showOpenHandProgress (open_hand_progress g) h1
      else hideOpenHandProgress h1 in
    if is_thumbs_up g && gt0 (thumbs_up_progress g)
    then showCaptureProgress (thumbs_up_progress g) h2
    else hideCaptureProgress h2.

(** What one gesture frame does to the screen: the flash of the action
    block, then the visual updates. *)
Definition handleGestureHud (r : Revision) (g : Gesture) (w : World) (h : Hud) : Hud :=
  visualUpdates g (handleGesture r g w) (flashEdge g (themeStep r g w) h).

(** The icon of the status line and the icon of the camera inset, both set
    by [updateGestureStatus]: cross mark, thumbs up, raised hand, waving
    hand, raised fist, index pointing up, hand with fingers splayed. *)
Inductive Icon := CrossMark | ThumbsUp | RaisedHand | WavingHand | RaisedFist | IndexUp | Splayed.

Definition statusIcon (g : Gesture) : Icon :=
  if hand_detected g then
    let n := gesture_name g in
    if String.eqb n "thumbs_up" then ThumbsUp
    else if String.eqb n "open_hand" then RaisedHand
    else if String.eqb n "swiping" then WavingHand
    else if String.eqb n "fist" then RaisedFist
    else if String.eqb n "pointing" then IndexUp
    else Splayed
  else CrossMark.

Definition pipIcon (g : Gesture) : Icon :=
  if hand_detected g then
    let n := gesture_name g in
    if String.eqb n "thumbs_up" then ThumbsUp
    else if String.eqb n "fist" then RaisedFist
    else if String.eqb n "swiping" then WavingHand
    else if String.eqb n "open_hand" then RaisedHand
    else IndexUp
  else CrossMark.

(** ** The scroll banner of the face-aware revision *)

(** [updateScrollBanner]: whether the banner has the class [visible]
    afterwards, in the world of the call.  The banner element is taken to
    exist. *)
Definition updateScrollBanner (show : bool) (w : World) : bool :=
  show && negb (state.showDetail (st w)) && negb (state.showQR (st w)).

(** What each function of the face-aware revision does to the banner: [w] is
    the world the function is called in and [b] the banner before the call.
    Each definition follows the function of the same name up to its call of
    [updateScrollBanner]. *)
Definition showDetail_banner (event : option NostrEvent) (w : World) (b : bool) : bool :=
  if negb (DOM.detailPanel (dom w)) || negb (isSome event) then b
  else updateScrollBanner false (with_st (state.set_showDetail true) w).

Definition hideDetail_banner (w : World) (b : bool) : bool :=
  if negb (state.showDetail (st w)) then b
  else
    let w1 := with_st (state.set_showDetail false) w in
    if negb (state.lightMode (st w1)) then updateScrollBanner true w1 else b.

Definition showQR_banner (w : World) (b : bool) : bool :=
  if negb (DOM.qrOverlay (dom w)) then b
  else
    let w1 := with_st (state.set_showQR true) w in
    let w2 := with_st (state.set_qrCountdown CONFIG.QR_DISPLAY_TIME) w1 in
    updateScrollBanner false w2.

Definition hideQR_banner (w : World) (b : bool) : bool :=
  let w1 := with_st (state.set_showQR false) w in
  if negb (state.lightMode (st w1)) then updateScrollBanner true w1 else b.

Definition qrTick_banner (w : World) (b : bool) : bool :=
  let w1 := with_st (state.set_qrCountdown (state.qrCountdown (st w) - 1)) w in
  if state.qrCountdown (st w1) <=? 0 then hideQR_banner w1 b else b.

Definition captureDone_banner (success : bool) (w : World) (b : bool) : bool :=
  if success then showQR_banner w b else b.

Definition updateThemeMode_banner (lightMode : bool) (timeUntilDark : Q)
  (handDetected : bool) (w : World) (b : bool) : bool :=
  let eff := FaceId.effectiveLightMode lightMode timeUntilDark handDetected in
  if Bool.eqb eff (state.lightMode (st w)) then b
  else updateScrollBanner (negb eff) (with_st (state.set_lightMode eff) w).

Definition run_handler_banner (h : Handler) (w : World) (b : bool) : bool :=
  match h with
  | H_navigateRight => b
  | H_navigateLeft => b
  | H_showDetail e => showDetail_banner e w b
  | H_hideDetail => hideDetail_banner w b
  | H_capturePhoto => b
  end.

Definition dispatch_banner (h : Handler) (w : World) (b : bool) : bool :=
  run_handler_banner h (emit (Dispatch h) w) b.

Definition actionSwitch_banner (g : Gesture) (w : World) (b : bool) : bool :=
  let a := action g in
  if String.eqb a "nav_left" then b
  else if String.eqb a "nav_right" then b
  else if String.eqb a "detail" then
    if negb (state.showQR (st w)) && isSome (eventAt w (state.currentIndex (st w)))
    then dispatch_banner (H_showDetail (eventAt w (state.currentIndex (st w)))) w b else b
  else if String.eqb a "detail_close" then
    dispatch_banner H_hideDetail w b
  else b.

Definition edgeDispatch_banner (g : Gesture) (w : World) (b : bool) : bool :=
  if String.eqb (action g) (state.lastAction (st w)) then b
  else actionSwitch_banner g (with_st (state.set_lastAction (action g)) w) b.

Definition fistOverride_banner (g : Gesture) (w : World) (b : bool) : bool :=
  if is_fist g && state.showDetail (st w) then dispatch_banner H_hideDetail w b else b.

Definition handleGesture_banner (g : Gesture) (w : World) (b : bool) : bool :=
  let w0 := FaceId.updateFaceDetection (face_detected g) (face_count g) w in
  let b1 := updateThemeMode_banner (light_mode g) (time_until_dark g) (hand_detected g) w0 b in
  let w1 := FaceId.updateThemeMode (light_mode g) (time_until_dark g) (hand_detected g) w0 in
  let b2 := edgeDispatch_banner g w1 b1 in
  let w2 := edgeDispatch g w1 in
  fistOverride_banner g w2 b2.

Definition pollDone_banner (resp : option Gesture) (w : World) (b : bool) : bool :=
  match resp with
  | Some gesture => handleGesture_banner gesture w b
  | None => b
  end.

Definition onKeyDown_banner (k : Key) (w : World) (b : bool) : bool :=
  if state.showQR (st w) then
    match k with Escape => hideQR_banner w b | _ => b end
  else if state.showDetail (st w) then
    match k with Escape => hideDetail_banner w b | _ => b end
  else
    match k with
    | Enter =>
        if isSome (eventAt w (state.currentIndex (st w)))
        then showDetail_banner (eventAt w (state.currentIndex (st w))) w b else b
    | _ => b
    end.

Definition onCardClick_banner (index : Z) (w : World) (b : bool) : bool :=
  match eventAt w index with
  | None => b
  | Some event =>
      if index =? state.currentIndex (st w) then showDetail_banner (Some event) w b
      else b
  end.

(** [initScrollBanner], called by [loadConfig] once the messages are chosen;
    the content element is taken to exist. *)
Definition initScrollBanner (scrollMessages : list string) (w : World) (b : bool) : bool :=
  if (List.length scrollMessages =? 0)%nat then b
  else if negb (state.lightMode (st w)) then updateScrollBanner true w else b.

(** One turn of the event loop, seen from the banner. *)
Definition step_banner (w : World) (i : Input) (b : bool) : bool :=
  match i with
  | WsGesture g =>
      if browser.wsListening (br w) then handleGesture_banner g w b else b
  | PollResponse resp =>
      match browser.gestureFetches (br w) with
      | O => b
      | S n => pollDone_banner resp (with_br (browser.set_gestureFetches n) w) b
      end
  | QrTick t =>
      if hasTimer t (browser.intervals (br w)) then qrTick_banner w b else b
  | CaptureResponse success =>
      match browser.captureFetches (br w) with
      | O => b
      | S n => captureDone_banner success (with_br (browser.set_captureFetches n) w) b
      end
  | KeyDown k => onKeyDown_banner k w b
  | CardClick index => onCardClick_banner index w b
  | DetailCloseClick => hideDetail_banner w b
  | QrOverlayClick => if DOM.qrOverlay (dom w) then hideQR_banner w b else b
  | _ => b
  end.

(** The events of the face-aware page: those of the event loop, and the
    answer to [loadConfig]. *)
Inductive PageInput :=
| Loop (i : Input)
| ConfigLoaded (scrollMessages : list string).

Definition step_page (wb : World * bool) (i : PageInput) : World * bool :=
  let '(w, b) := wb in
  match i with
  | Loop i => (step FaceAware w i, step_banner w i b)
  | ConfigLoaded msgs => (w, initScrollBanner msgs w b)
  end.

Definition run_page (ins : list PageInput) (wb : World * bool) : World * bool :=
  fold_left step_page ins wb.

(** The three fields the banner depends on. *)
Definition stage (w : World) : bool * bool * bool :=
  (state.lightMode (st w), state.showDetail (st w), state.showQR (st w)).

(** Dark mode, and neither the Detail panel nor the QR overlay shown. *)
Definition idle_dark (w : World) : bool :=
  negb (state.lightMode (st w)) && negb (state.showDetail (st w))
  && negb (state.showQR (st w)).

(** The banner against the screen: shown only on the idle dark screen, or,
    for [exact], shown exactly there. *)
Definition banner_rel (exact : bool) (wb : World * bool) : Prop :=
  if exact then snd wb = idle_dark (fst wb)
  else snd wb = true -> idle_dark (fst wb) = true.

Ltac banner_cases x w b :=
  unfold banner_rel, idle_dark, updateScrollBanner; cbn [fst snd];
  cbn [st dom br with_st state.lightMode state.showDetail state.showQR
       state.set_showDetail state.set_showQR state.set_lightMode state.set_qrCountdown
       state.set_qrInterval state.set_lastAction state.set_timeUntilDark
       state.set_faceDetected state.set_faceCount];
  destruct x, b, (state.lightMode (st w)), (state.showDetail (st w)),
    (state.showQR (st w));
  cbn [negb andb]; intuition congruence.

(** * Navigation *)

Lemma itemCount_navigateTo (index : Z) (w : World) :
  itemCount (navigateTo index w) = itemCount w.
Proof. reflexivity. Qed.

Lemma currentIndex_navigateTo (index : Z) (w : World) :
  state.currentIndex (st (navigateTo index w)) = Z.max 0 (Z.min index (itemCount w - 1)).
Proof. reflexivity. Qed.

(** [navigateTo] lands in range whatever the index was before. *)
Lemma navigateTo_in_range (index : Z) (w : World) : index_in_range (navigateTo index w).
Proof.
  unfold index_in_range.
  rewrite itemCount_navigateTo, currentIndex_navigateTo.
  split; intros H; lia.
Qed.

Lemma itemCount_nav (op : NavOp) (w : World) : itemCount (nav w op) = itemCount w.
Proof.
  destruct op; simpl; trivial.
  - unfold navigateLeft. destruct (0 <? _); trivial.
  - unfold navigateRight. destruct (_ <? _); trivial.
Qed.

Lemma nav_in_range (op : NavOp) (w : World) :
  index_in_range w -> index_in_range (nav w op).
Proof.
  intros Hw. destruct op; simpl.
  - apply navigateTo_in_range.
  - unfold navigateLeft. destruct (0 <? _); [apply navigateTo_in_range | exact Hw].
  - unfold navigateRight. destruct (_ <? _); [apply navigateTo_in_range | exact Hw].
Qed.

Lemma navs_in_range (ops : list NavOp) :
  forall w, index_in_range w ->
            index_in_range (navs ops w) /\ itemCount (navs ops w) = itemCount w.
Proof.
  induction ops as [|op ops IH]; intros w Hw; simpl.
  - split; [exact Hw | reflexivity].
  - destruct (IH (nav w op) (nav_in_range op w Hw)) as [H1 H2].
    split; [exact H1 | now rewrite H2, itemCount_nav].
Qed.

(** C6. Along every sequence of navigation calls (navigateTo with any index,
    navigateLeft, navigateRight), started where currentIndex is in range,
    currentIndex stays within 0 .. itemCount-1 after every call (and is 0 when
    there are no items); the item count is untouched, and each navigateTo
    clamps its target into that range. *)
Theorem currentIndex_stays_in_range :
  forall (ops : list NavOp) (w : World),
    index_in_range w ->
    forall k : nat,
      let w' := navs (firstn k ops) w in
      index_in_range w' /\
      itemCount w' = itemCount w /\
      forall index,
        state.currentIndex (st (navigateTo index w')) =
          Z.max 0 (Z.min index (itemCount w - 1)) /\
        index_in_range (navigateTo index w').
Proof.
  intros ops w Hw k w'.
  destruct (navs_in_range (firstn k ops) w Hw) as [H1 H2].
  fold w' in H1, H2.
  split; [exact H1 | split; [exact H2 |]].
  intros index. split.
  - now rewrite currentIndex_navigateTo, H2.
  - apply navigateTo_in_range.
Qed.

Lemma kiosk_in_range : index_in_range kiosk.
Proof. unfold index_in_range. vm_compute. split; intros H; [discriminate | split; discriminate]. Qed.

Lemma currentIndex_stays_in_range_witness :
  index_in_range kiosk /\
  index_in_range
    (navs (firstn 4 [OpNavigateRight; OpNavigateTo 1000; OpNavigateRight; OpNavigateTo (-7)])
          kiosk).
Proof.
  split; [exact kiosk_in_range |].
  exact (proj1 (currentIndex_stays_in_range
                  [OpNavigateRight; OpNavigateTo 1000; OpNavigateRight; OpNavigateTo (-7)]
                  kiosk kiosk_in_range 4%nat)).
Defined.

(** C10. A single step at a boundary does nothing at all: navigateLeft at
    index 0, and navigateRight at the last index (or with no items), return
    the very same world, so no field changes and no set_index request is
    sent.  navigateTo always sends one, also when the clamped target is the
    index it already had. *)
Theorem boundary_step_is_noop :
  forall w : World,
    index_in_range w ->
    (state.currentIndex (st w) = 0 -> navigateLeft w = w) /\
    (state.currentIndex (st w) = itemCount w - 1 \/ itemCount w = 0 ->
     navigateRight w = w) /\
    (forall index,
       browser.trace (br (navigateTo index w)) =
         Fetch (PostSetIndex (Z.max 0 (Z.min index (itemCount w - 1))))
           :: browser.trace (br w)) /\
    browser.trace (br (navigateTo (state.currentIndex (st w)) w)) =
      Fetch (PostSetIndex (state.currentIndex (st w))) :: browser.trace (br w).
Proof.
  intros w [H0 Hpos]. repeat split.
  - intros Hc. unfold navigateLeft. now rewrite Hc.
  - intros Hc. unfold navigateRight.
    replace (state.currentIndex (st w) <? itemCount w - 1) with false; trivial.
    symmetry. apply Z.ltb_ge. destruct Hc as [Hc | Hc]; [lia |].
    specialize (H0 Hc). lia.
  - simpl. f_equal. f_equal. f_equal.
    assert (Hn : 0 <= itemCount w) by (unfold itemCount; lia).
    destruct (Z.eq_dec (itemCount w) 0) as [Hz | Hz].
    + specialize (H0 Hz). lia.
    + assert (Hp : 0 < itemCount w) by lia. specialize (Hpos Hp). lia.
Qed.

Lemma boundary_step_is_noop_witness :
  let w := with_st (state.set_currentIndex 0) kiosk in
  navigateLeft w = w /\
  browser.trace (br (navigateTo 0 w)) = Fetch (PostSetIndex 0) :: browser.trace (br w).
Proof.
  intros w.
  assert (Hr : index_in_range w).
  { unfold index_in_range. vm_compute. split; intros H; [discriminate | split; discriminate]. }
  destruct (boundary_step_is_noop w Hr) as (HL & _ & _ & HT).
  split; [apply HL; reflexivity | exact HT].
Defined.

(** * Gesture frames *)

Lemma handleGesture_unfold (r : Revision) (g : Gesture) (w : World) :
  handleGesture r g w = fistOverride g (edgeDispatch g (themeStep r g w)).
Proof. destruct r; reflexivity. Qed.

Lemma themeStep_retheme (r : Revision) (g : Gesture) (w : World) :
  exists lm fd fc, themeStep r g w = retheme lm (time_until_dark g) fd fc w.
Proof.
  destruct w as [s d b]; destruct s.
  destruct r; unfold themeStep, Shop.updateThemeMode, FaceId.updateThemeMode,
    FaceId.updateFaceDetection, retheme, with_st; simpl.
  - destruct (Bool.eqb _ _); simpl; eexists _, _, _; reflexivity.
  - destruct (Bool.eqb _ _); simpl; eexists _, _, _; reflexivity.
Qed.

(** ** The edge detector *)

Lemma edgeDispatch_same (g : Gesture) (w : World) :
  action g = state.lastAction (st w) -> edgeDispatch g w = w.
Proof.
  intros H. unfold edgeDispatch. now rewrite (proj2 (String.eqb_eq _ _) H).
Qed.

Lemma edgeDispatch_edge (g : Gesture) (w : World) :
  action g <> state.lastAction (st w) ->
  edgeDispatch g w = actionSwitch g (with_st (state.set_lastAction (action g)) w).
Proof.
  intros H. unfold edgeDispatch. now rewrite (proj2 (String.eqb_neq _ _) H).
Qed.

(** A handler sends requests but dispatches nothing itself, and leaves
    [lastAction] alone. *)
Lemma run_handler_quiet (h : Handler) (w : World) :
  dispatched (browser.trace (br (run_handler h w))) = dispatched (browser.trace (br w)) /\
  state.lastAction (st (run_handler h w)) = state.lastAction (st w).
Proof.
  destruct h; simpl.
  - unfold navigateRight. destruct (_ <? _); split; reflexivity.
  - unfold navigateLeft. destruct (_ <? _); split; reflexivity.
  - unfold showDetail. destruct (_ || _); split; reflexivity.
  - unfold hideDetail. destruct (negb _); split; reflexivity.
  - unfold capturePhoto. destruct (state.showQR _); split; reflexivity.
Qed.

Lemma dispatch_calls (h : Handler) (w : World) :
  dispatched (browser.trace (br (dispatch h w))) = h :: dispatched (browser.trace (br w)) /\
  state.lastAction (st (dispatch h w)) = state.lastAction (st w).
Proof.
  unfold dispatch. destruct (run_handler_quiet h (emit (Dispatch h) w)) as [H1 H2].
  rewrite H1, H2. split; reflexivity.
Qed.

(** One run of the switch dispatches the handler that belongs to the frame's
    action when the guard of its arm holds, and nothing otherwise. *)
Lemma actionSwitch_calls (g : Gesture) (w : World) :
  state.lastAction (st (actionSwitch g w)) = state.lastAction (st w) /\
  exists arm,
    dispatched (browser.trace (br (actionSwitch g w))) =
      arm ++ dispatched (browser.trace (br w)) /\
    (arm = [] \/ exists h, arm = [h] /\ handles (action g) h) /\
    List.length arm = (if armGuard (action g) w then 1 else 0)%nat.
Proof.
  unfold actionSwitch, armGuard. cbv zeta.
  destruct (String.eqb (action g) "nav_left") eqn:B1.
  { apply String.eqb_eq in B1. simpl orb. destruct (_ && _).
    - destruct (dispatch_calls H_navigateRight w) as [H1 H2]. split; trivial.
      exists [H_navigateRight]. repeat split; trivial. right. now exists H_navigateRight.
    - split; trivial. exists []. repeat split; trivial. now left. }
  destruct (String.eqb (action g) "nav_right") eqn:B2.
  { apply String.eqb_eq in B2. simpl orb. destruct (_ && _).
    - destruct (dispatch_calls H_navigateLeft w) as [H1 H2]. split; trivial.
      exists [H_navigateLeft]. repeat split; trivial. right. now exists H_navigateLeft.
    - split; trivial. exists []. repeat split; trivial. now left. }
  simpl orb.
  destruct (String.eqb (action g) "detail") eqn:B3.
  { apply String.eqb_eq in B3. destruct (_ && _).
    - destruct (dispatch_calls (H_showDetail (eventAt w (state.currentIndex (st w)))) w)
        as [H1 H2]. split; trivial.
      eexists [_]. split; [exact H1|]. split; [|reflexivity].
      right. eexists. split; [reflexivity | exact B3].
    - split; trivial. exists []. repeat split; trivial. now left. }
  destruct (String.eqb (action g) "detail_close") eqn:B4.
  { apply String.eqb_eq in B4.
    destruct (dispatch_calls H_hideDetail w) as [H1 H2]. split; trivial.
    exists [H_hideDetail]. repeat split; trivial. right. now exists H_hideDetail. }
  destruct (String.eqb (action g) "capture") eqn:B5.
  { apply String.eqb_eq in B5. destruct (negb _).
    - destruct (dispatch_calls H_capturePhoto w) as [H1 H2]. split; trivial.
      exists [H_capturePhoto]. repeat split; trivial. right. now exists H_capturePhoto.
    - split; trivial. exists []. repeat split; trivial. now left. }
  split; trivial. exists []. repeat split; trivial. now left.
Qed.

Lemma fistOverride_calls (g : Gesture) (w : World) :
  dispatched (browser.trace (br (fistOverride g w))) =
    fistCalls g (state.showDetail (st w)) ++ dispatched (browser.trace (br w)) /\
  state.lastAction (st (fistOverride g w)) = state.lastAction (st w).
Proof.
  unfold fistOverride, fistCalls. destruct (_ && _).
  - apply dispatch_calls.
  - split; reflexivity.
Qed.

(** With the action unchanged, a frame is the theme update followed by the
    fist override and nothing else. *)
Lemma handleGesture_same (r : Revision) (g : Gesture) (w : World) :
  action g = state.lastAction (st w) ->
  handleGesture r g w = fistOverride g (themeStep r g w).
Proof.
  intros H. rewrite handleGesture_unfold.
  destruct (themeStep_retheme r g w) as (lm & fd & fc & E). rewrite E.
  now rewrite edgeDispatch_same.
Qed.

Lemma fistOverride_trace (g : Gesture) (w : World) :
  browser.trace (br (fistOverride g w)) =
    map Dispatch (fistCalls g (state.showDetail (st w))) ++ browser.trace (br w) /\
  state.currentIndex (st (fistOverride g w)) = state.currentIndex (st w).
Proof.
  unfold fistOverride, fistCalls. destruct (_ && _); [|split; reflexivity].
  unfold dispatch, run_handler, hideDetail. destruct (negb _); split; reflexivity.
Qed.

Lemma fistOverride_closes (g : Gesture) (w : World) :
  is_fist g = true -> state.showDetail (st (fistOverride g w)) = false.
Proof.
  intros Hf. unfold fistOverride. rewrite Hf. simpl.
  destruct (state.showDetail (st w)) eqn:E; [|exact E].
  unfold dispatch, run_handler, hideDetail. simpl. now rewrite E.
Qed.

(** Only the [detail_close] arm can close an open Detail panel. *)
Lemma actionSwitch_keeps_detail (g : Gesture) (w : World) :
  state.showDetail (st w) = true -> action g <> "detail_close" ->
  state.showDetail (st (actionSwitch g w)) = true.
Proof.
  intros Hd Hn. unfold actionSwitch. cbv zeta. rewrite Hd. simpl.
  destruct (String.eqb_spec (action g) "detail_close") as [E|_]; [contradiction|].
  split_ifs; trivial.
  - unfold dispatch, run_handler, showDetail. simpl. destruct (_ || _); simpl; trivial.
  - unfold dispatch, run_handler, capturePhoto. simpl. destruct (state.showQR _); simpl; trivial.
Qed.

(** After a frame, [lastAction] is that frame's action. *)
Lemma lastAction_handleGesture (r : Revision) (g : Gesture) (w : World) :
  state.lastAction (st (handleGesture r g w)) = action g.
Proof.
  destruct (themeStep_retheme r g w) as (lm & fd & fc & E).
  rewrite handleGesture_unfold, E.
  rewrite (proj2 (fistOverride_calls g _)).
  destruct (String.eqb_spec (action g) (state.lastAction (st w))) as [H|H].
  - rewrite edgeDispatch_same; [simpl; congruence | exact H].
  - rewrite edgeDispatch_edge; [|exact H].
    now rewrite (proj1 (actionSwitch_calls g _)).
Qed.

(** A frame whose action equals [lastAction]: the trace grows by what the
    fist override dispatches, and by nothing else. *)
Lemma frame_without_edge (r : Revision) (g : Gesture) (w : World) :
  action g = state.lastAction (st w) ->
  let w' := handleGesture r g w in
  browser.trace (br w') =
    map Dispatch (fistCalls g (state.showDetail (st w))) ++ browser.trace (br w) /\
  dispatched (browser.trace (br w')) =
    fistCalls g (state.showDetail (st w)) ++ dispatched (browser.trace (br w)) /\
  state.currentIndex (st w') = state.currentIndex (st w).
Proof.
  intros H w'. subst w'.
  destruct (themeStep_retheme r g w) as (lm & fd & fc & E).
  rewrite handleGesture_same, E; [|exact H].
  destruct (fistOverride_trace g (retheme lm (time_until_dark g) fd fc w)) as [T I].
  destruct (fistOverride_calls g (retheme lm (time_until_dark g) fd fc w)) as [C _].
  repeat split; [exact T | exact C | exact I].
Qed.

(** C1 (as amended). After a frame, lastAction is that frame's action.  On a
    frame whose action equals the stored lastAction the edge detector
    dispatches nothing and sends nothing: the only handler that can run is
    hideDetail, called by the fist override when is_fist holds and the Detail
    panel is open.  On a frame whose action differs, the switch runs the one
    arm of the new value: it dispatches exactly one handler, the one that
    belongs to that value, when the guard of the arm holds, and none when it
    fails or the value has no arm (such as none); the fist override may
    follow. *)
Theorem edge_detector_dispatch :
  forall (r : Revision) (g : Gesture) (w : World),
    let w' := handleGesture r g w in
    let before := dispatched (browser.trace (br w)) in
    state.lastAction (st w') = action g /\
    (action g = state.lastAction (st w) ->
       browser.trace (br w') =
         map Dispatch (fistCalls g (state.showDetail (st w))) ++ browser.trace (br w) /\
       dispatched (browser.trace (br w')) = fistCalls g (state.showDetail (st w)) ++ before /\
       state.currentIndex (st w') = state.currentIndex (st w)) /\
    (action g <> state.lastAction (st w) ->
       exists arm detailOpen,
         dispatched (browser.trace (br w')) = fistCalls g detailOpen ++ arm ++ before /\
         (arm = [] \/ exists h, arm = [h] /\ handles (action g) h) /\
         List.length arm = (if armGuard (action g) w then 1 else 0)%nat).
Proof.
  intros r g w w' before. subst w' before.
  destruct (themeStep_retheme r g w) as (lm & fd & fc & E).
  split; [|split].
  - apply lastAction_handleGesture.
  - intros H. exact (frame_without_edge r g w H).
  - intros H. rewrite handleGesture_unfold, E.
    rewrite (proj1 (fistOverride_calls g _)).
    rewrite edgeDispatch_edge; [|exact H].
    destruct (actionSwitch_calls g
                (with_st (state.set_lastAction (action g))
                   (retheme lm (time_until_dark g) fd fc w))) as [_ (arm & Ha & Hc & Hl)].
    exists arm. eexists. rewrite Ha. split; [reflexivity | split; [exact Hc | exact Hl]].
Qed.

(** C1, the claim as stated fails: with the Detail panel open and lastAction
    already none, a fist frame whose action is again none still gets
    hideDetail dispatched. *)
Lemma fist_dispatches_without_edge :
  let w := frames Static [frame "detail"; frame "none"] kiosk in
  let g := fist_frame "none" in
  action g = state.lastAction (st w) /\
  state.showDetail (st w) = true /\
  dispatched (browser.trace (br (handleGesture Static g w))) =
    H_hideDetail :: dispatched (browser.trace (br w)) /\
  state.showDetail (st (handleGesture Static g w)) = false.
Proof. vm_compute. repeat split. Qed.

Lemma edge_detector_dispatch_witness :
  let w := frames Static [frame "detail"; frame "none"] kiosk in
  dispatched (browser.trace (br (handleGesture Static (fist_frame "none") w))) =
    [H_hideDetail] ++ dispatched (browser.trace (br w)) /\
  exists arm detailOpen,
    dispatched (browser.trace (br (handleGesture Static (frame "nav_left") kiosk))) =
      fistCalls (frame "nav_left") detailOpen ++ arm ++ dispatched (browser.trace (br kiosk)) /\
    (arm = [] \/ exists h, arm = [h] /\ handles "nav_left" h) /\
    List.length arm = 1%nat.
Proof.
  intros w. split.
  - destruct (edge_detector_dispatch Static (fist_frame "none") w) as (_ & Hsame & _).
    destruct (Hsame eq_refl) as (_ & Hd & _). exact Hd.
  - destruct (edge_detector_dispatch Static (frame "nav_left") kiosk) as (_ & _ & Hedge).
    apply Hedge. vm_compute. discriminate.
Defined.

(** ** What a frame never touches *)

Lemma offstage_run_handler (h : Handler) (w : World) :
  offstage (run_handler h w) = offstage w.
Proof.
  destruct h; simpl.
  - unfold navigateRight. destruct (_ <? _); reflexivity.
  - unfold navigateLeft. destruct (_ <? _); reflexivity.
  - unfold showDetail. destruct (_ || _); reflexivity.
  - unfold hideDetail. destruct (negb _); reflexivity.
  - unfold capturePhoto. destruct (state.showQR _); reflexivity.
Qed.

Lemma offstage_dispatch (h : Handler) (w : World) : offstage (dispatch h w) = offstage w.
Proof. unfold dispatch. now rewrite offstage_run_handler. Qed.

Lemma offstage_actionSwitch (g : Gesture) (w : World) :
  offstage (actionSwitch g w) = offstage w.
Proof.
  unfold actionSwitch. cbv zeta. split_ifs; trivial; apply offstage_dispatch.
Qed.

Lemma offstage_edgeDispatch (g : Gesture) (w : World) :
  offstage (edgeDispatch g w) = offstage w.
Proof.
  unfold edgeDispatch. destruct (String.eqb _ _); trivial.
  now rewrite offstage_actionSwitch.
Qed.

Lemma offstage_fistOverride (g : Gesture) (w : World) :
  offstage (fistOverride g w) = offstage w.
Proof.
  unfold fistOverride. destruct (_ && _); trivial. apply offstage_dispatch.
Qed.

Lemma offstage_handleGesture (r : Revision) (g : Gesture) (w : World) :
  offstage (handleGesture r g w) = offstage (themeStep r g w).
Proof.
  rewrite handleGesture_unfold.
  now rewrite offstage_fistOverride, offstage_edgeDispatch.
Qed.

(** A frame leaves the QR overlay, the timers, the transport and the item
    list as they were, and sends no gesture request. *)
Lemma handleGesture_keeps (r : Revision) (g : Gesture) (w : World) :
  let w' := handleGesture r g w in
  dom w' = dom w /\
  state.events (st w') = state.events (st w) /\
  state.showQR (st w') = state.showQR (st w) /\
  state.qrCountdown (st w') = state.qrCountdown (st w) /\
  state.qrInterval (st w') = state.qrInterval (st w) /\
  state.useWebSocket (st w') = state.useWebSocket (st w) /\
  browser.wsListening (br w') = browser.wsListening (br w) /\
  browser.intervals (br w') = browser.intervals (br w) /\
  browser.timeouts (br w') = browser.timeouts (br w) /\
  browser.gestureFetches (br w') = browser.gestureFetches (br w) /\
  polls w' = polls w.
Proof.
  intros w'. subst w'.
  pose proof (offstage_handleGesture r g w) as H.
  destruct (themeStep_retheme r g w) as (lm & fd & fc & E). rewrite E in H.
  repeat split.
  - exact (f_equal dom H).
  - exact (f_equal (fun x => state.events (st x)) H).
  - exact (f_equal (fun x => state.showQR (st x)) H).
  - exact (f_equal (fun x => state.qrCountdown (st x)) H).
  - exact (f_equal (fun x => state.qrInterval (st x)) H).
  - exact (f_equal (fun x => state.useWebSocket (st x)) H).
  - exact (f_equal (fun x => browser.wsListening (br x)) H).
  - exact (f_equal (fun x => browser.intervals (br x)) H).
  - exact (f_equal (fun x => browser.timeouts (br x)) H).
  - exact (f_equal (fun x => browser.gestureFetches (br x)) H).
  - exact (f_equal (fun x => List.length (browser.trace (br x))) H).
Qed.

(** ** The fist override *)

Lemma actionSwitch_detail_close (g : Gesture) (w : World) :
  action g = "detail_close" -> actionSwitch g w = dispatch H_hideDetail w.
Proof. intros H. unfold actionSwitch. now rewrite H. Qed.

(** C5. A frame with is_fist set that arrives while the Detail panel is open
    closes it on that very frame, whatever lastAction holds and whether or not
    the action changed: hideDetail is among the handlers the frame dispatches.
    With the action unchanged (a fist frame at lastAction = none, action =
    none, say) hideDetail is the one handler dispatched. *)
Theorem fist_closes_detail :
  forall (r : Revision) (g : Gesture) (w : World),
    is_fist g = true ->
    state.showDetail (st w) = true ->
    let w' := handleGesture r g w in
    state.showDetail (st w') = false /\
    (exists hs, dispatched (browser.trace (br w')) = hs ++ dispatched (browser.trace (br w)) /\
                In H_hideDetail hs) /\
    (action g = state.lastAction (st w) ->
     dispatched (browser.trace (br w')) = H_hideDetail :: dispatched (browser.trace (br w))).
Proof.
  intros r g w Hf Hd w'. subst w'.
  assert (Hsame : action g = state.lastAction (st w) ->
                  dispatched (browser.trace (br (handleGesture r g w))) =
                    H_hideDetail :: dispatched (browser.trace (br w))).
  { intros H. destruct (frame_without_edge r g w H) as (_ & Hc & _).
    rewrite Hc. unfold fistCalls. now rewrite Hf, Hd. }
  split; [|split; [|exact Hsame]].
  - rewrite handleGesture_unfold. now apply fistOverride_closes.
  - destruct (String.eqb_spec (action g) (state.lastAction (st w))) as [H|H].
    { exists [H_hideDetail]. split; [now apply Hsame | now left]. }
    destruct (themeStep_retheme r g w) as (lm & fd & fc & E).
    rewrite handleGesture_unfold, E.
    rewrite (proj1 (fistOverride_calls g _)).
    rewrite edgeDispatch_edge; [|exact H].
    set (w1 := with_st (state.set_lastAction (action g))
                 (retheme lm (time_until_dark g) fd fc w)).
    destruct (String.eqb_spec (action g) "detail_close") as [Hc|Hc].
    + rewrite (actionSwitch_detail_close g w1 Hc).
      rewrite (proj1 (dispatch_calls H_hideDetail w1)).
      exists (fistCalls g (state.showDetail (st (dispatch H_hideDetail w1))) ++ [H_hideDetail]).
      split; [now rewrite <- app_assoc|].
      apply in_or_app. right. now left.
    + rewrite (actionSwitch_keeps_detail g w1 Hd Hc).
      destruct (actionSwitch_calls g w1) as [_ (arm & Ha & _ & _)]. rewrite Ha.
      unfold fistCalls. rewrite Hf. simpl.
      exists (H_hideDetail :: arm). split; [reflexivity | now left].
Qed.

Lemma fist_closes_detail_witness :
  let w := frames FaceAware [frame "detail"; frame "none"] kiosk in
  state.lastAction (st w) = "none" /\
  state.showDetail (st w) = true /\
  state.showDetail (st (handleGesture FaceAware (fist_frame "none") w)) = false.
Proof.
  intros w. split; [reflexivity | split; [reflexivity |]].
  exact (proj1 (fist_closes_detail FaceAware (fist_frame "none") w eq_refl eq_refl)).
Defined.

(** ** Navigation by gesture *)

Lemma fistOverride_closed (g : Gesture) (w : World) :
  state.showDetail (st w) = false -> fistOverride g w = w.
Proof. intros H. unfold fistOverride. now rewrite H, andb_false_r. Qed.

Lemma actionSwitch_nav_left (g : Gesture) (w : World) :
  action g = "nav_left" ->
  state.showDetail (st w) = false -> state.showQR (st w) = false ->
  actionSwitch g w = dispatch H_navigateRight w.
Proof. intros Ha Hd Hq. unfold actionSwitch. now rewrite Ha, Hd, Hq. Qed.

Lemma actionSwitch_nav_right (g : Gesture) (w : World) :
  action g = "nav_right" ->
  state.showDetail (st w) = false -> state.showQR (st w) = false ->
  actionSwitch g w = dispatch H_navigateLeft w.
Proof. intros Ha Hd Hq. unfold actionSwitch. now rewrite Ha, Hd, Hq. Qed.

Lemma actionSwitch_none (g : Gesture) (w : World) :
  action g = "none" -> actionSwitch g w = w.
Proof. intros Ha. unfold actionSwitch. now rewrite Ha. Qed.

Lemma navigation_keeps_detail (h : Handler) (w : World) :
  h = H_navigateRight \/ h = H_navigateLeft ->
  state.showDetail (st (dispatch h w)) = state.showDetail (st w) /\
  state.lastAction (st (dispatch h w)) = state.lastAction (st w) /\
  itemCount (dispatch h w) = itemCount w.
Proof.
  intros [-> | ->]; unfold dispatch, run_handler.
  - unfold navigateRight. destruct (_ <? _); repeat split; reflexivity.
  - unfold navigateLeft. destruct (_ <? _); repeat split; reflexivity.
Qed.

(** In range, [navigateRight] is a step of +1 that stops at the last item,
    and [navigateLeft] a step of -1 that stops at the first. *)
Lemma dispatch_navigateRight (w : World) :
  index_in_range w ->
  state.currentIndex (st (dispatch H_navigateRight w)) =
    (if state.currentIndex (st w) <? itemCount w - 1
     then state.currentIndex (st w) + 1 else state.currentIndex (st w)) /\
  browser.trace (br (dispatch H_navigateRight w)) =
    (if state.currentIndex (st w) <? itemCount w - 1
     then [Fetch (PostSetIndex (state.currentIndex (st w) + 1))] else [])
    ++ Dispatch H_navigateRight :: browser.trace (br w).
Proof.
  intros [H0 Hp]. unfold dispatch, run_handler, navigateRight.
  change (state.currentIndex (st (emit (Dispatch H_navigateRight) w)))
    with (state.currentIndex (st w)).
  change (itemCount (emit (Dispatch H_navigateRight) w)) with (itemCount w).
  destruct (Z.ltb_spec (state.currentIndex (st w)) (itemCount w - 1)) as [Hlt|Hge].
  - assert (Hn : 0 <= itemCount w) by (unfold itemCount; lia).
    assert (Hc : Z.max 0 (Z.min (state.currentIndex (st w) + 1) (itemCount w - 1)) =
                 state.currentIndex (st w) + 1) by lia.
    split; simpl.
    + exact Hc.
    + change (itemCount (emit (Dispatch H_navigateRight) w)) with (itemCount w).
      now rewrite Hc.
  - split; reflexivity.
Qed.

Lemma dispatch_navigateLeft (w : World) :
  index_in_range w ->
  state.currentIndex (st (dispatch H_navigateLeft w)) =
    (if 0 <? state.currentIndex (st w)
     then state.currentIndex (st w) - 1 else state.currentIndex (st w)).
Proof.
  intros [H0 Hp]. unfold dispatch, run_handler, navigateLeft.
  change (state.currentIndex (st (emit (Dispatch H_navigateLeft) w)))
    with (state.currentIndex (st w)).
  destruct (Z.ltb_spec 0 (state.currentIndex (st w))) as [Hlt|Hge]; [|reflexivity].
  rewrite currentIndex_navigateTo.
  change (itemCount (emit (Dispatch H_navigateLeft) w)) with (itemCount w).
  assert (Hn : 0 <= itemCount w) by (unfold itemCount; lia).
  lia.
Qed.

Lemma retheme_keeps (lm : bool) (tud : Q) (fd : bool) (fc : Z) (w : World) :
  state.currentIndex (st (retheme lm tud fd fc w)) = state.currentIndex (st w) /\
  br (retheme lm tud fd fc w) = br w.
Proof. split; reflexivity. Qed.

(** A frame that brings [nav_left] (or [nav_right]) as a new action while no
    overlay is open is the theme update, the new [lastAction], and one call
    of [navigateRight] (or [navigateLeft]). *)
Lemma frame_nav (r : Revision) (g : Gesture) (w : World) (h : Handler) :
  (action g = "nav_left" /\ h = H_navigateRight) \/
  (action g = "nav_right" /\ h = H_navigateLeft) ->
  action g <> state.lastAction (st w) ->
  state.showDetail (st w) = false -> state.showQR (st w) = false ->
  exists lm fd fc,
    handleGesture r g w =
      dispatch h (with_st (state.set_lastAction (action g))
                    (retheme lm (time_until_dark g) fd fc w)).
Proof.
  intros Hh Hne Hd Hq.
  destruct (themeStep_retheme r g w) as (lm & fd & fc & E).
  exists lm, fd, fc. rewrite handleGesture_unfold, E.
  rewrite edgeDispatch_edge; [|exact Hne].
  set (w1 := with_st (state.set_lastAction (action g))
               (retheme lm (time_until_dark g) fd fc w)).
  assert (Hs : actionSwitch g w1 = dispatch h w1).
  { destruct Hh as [[Ha ->] | [Ha ->]].
    - now apply actionSwitch_nav_left.
    - now apply actionSwitch_nav_right. }
  rewrite Hs. apply fistOverride_closed.
  rewrite (proj1 (navigation_keeps_detail h w1
                    ltac:(destruct Hh as [[_ ->] | [_ ->]]; auto))).
  exact Hd.
Qed.

(** A frame that brings [none] as a new action while the Detail panel is
    closed only updates the theme and [lastAction]. *)
Lemma frame_none (r : Revision) (g : Gesture) (w : World) :
  action g = "none" ->
  action g <> state.lastAction (st w) ->
  state.showDetail (st w) = false ->
  exists lm fd fc,
    handleGesture r g w =
      with_st (state.set_lastAction "none") (retheme lm (time_until_dark g) fd fc w).
Proof.
  intros Ha Hne Hd.
  destruct (themeStep_retheme r g w) as (lm & fd & fc & E).
  exists lm, fd, fc. rewrite handleGesture_unfold, E.
  rewrite edgeDispatch_edge; [|exact Hne].
  rewrite actionSwitch_none; [|exact Ha].
  rewrite fistOverride_closed; [now rewrite Ha | exact Hd].
Qed.

(** A frame that repeats the action while the Detail panel is closed only
    updates the theme. *)
Lemma frame_repeat (r : Revision) (g : Gesture) (w : World) :
  action g = state.lastAction (st w) ->
  state.showDetail (st w) = false ->
  exists lm fd fc, handleGesture r g w = retheme lm (time_until_dark g) fd fc w.
Proof.
  intros Ha Hd.
  destruct (themeStep_retheme r g w) as (lm & fd & fc & E).
  exists lm, fd, fc. rewrite handleGesture_same, E; [|exact Ha].
  now apply fistOverride_closed.
Qed.

(** C4. With no overlay open, a new nav_left action moves toward higher
    indices (one step of +1, stopping at the last item) by one call of
    navigateRight, and a new nav_right action moves toward lower indices (one
    step of -1, stopping at the first item).  For the frames none, nav_left,
    nav_left on index 2 of 5 items, with lastAction at its initial value,
    navigateRight is dispatched exactly once, one set_index request carries
    index 3, and the final index is 3. *)
Theorem nav_left_steps_forward_once :
  (forall (r : Revision) (g : Gesture) (w : World),
      index_in_range w ->
      state.showDetail (st w) = false -> state.showQR (st w) = false ->
      action g <> state.lastAction (st w) ->
      (action g = "nav_left" ->
       state.currentIndex (st (handleGesture r g w)) =
         (if state.currentIndex (st w) <? itemCount w - 1
          then state.currentIndex (st w) + 1 else state.currentIndex (st w))) /\
      (action g = "nav_right" ->
       state.currentIndex (st (handleGesture r g w)) =
         (if 0 <? state.currentIndex (st w)
          then state.currentIndex (st w) - 1 else state.currentIndex (st w)))) /\
  (forall (r : Revision) (g1 g2 g3 : Gesture) (w : World),
      itemCount w = 5 -> state.currentIndex (st w) = 2 ->
      state.lastAction (st w) = state.lastAction state.initial ->
      state.showDetail (st w) = false -> state.showQR (st w) = false ->
      action g1 = "none" -> action g2 = "nav_left" -> action g3 = "nav_left" ->
      let w' := frames r [g1; g2; g3] w in
      state.currentIndex (st w') = 3 /\
      browser.trace (br w') =
        Fetch (PostSetIndex 3) :: Dispatch H_navigateRight :: browser.trace (br w) /\
      dispatched (browser.trace (br w')) =
        H_navigateRight :: dispatched (browser.trace (br w))).
Proof.
  split.
  - intros r g w Hr Hd Hq Hne. split; intros Ha.
    + destruct (frame_nav r g w H_navigateRight (or_introl (conj Ha eq_refl)) Hne Hd Hq)
        as (lm & fd & fc & E).
      rewrite E.
      exact (proj1 (dispatch_navigateRight
                      (with_st (state.set_lastAction (action g))
                         (retheme lm (time_until_dark g) fd fc w)) Hr)).
    + destruct (frame_nav r g w H_navigateLeft (or_intror (conj Ha eq_refl)) Hne Hd Hq)
        as (lm & fd & fc & E).
      rewrite E.
      exact (dispatch_navigateLeft
               (with_st (state.set_lastAction (action g))
                  (retheme lm (time_until_dark g) fd fc w)) Hr).
  - intros r g1 g2 g3 w Hn Hc Hl Hd Hq H1 H2 H3 w'. subst w'.
    unfold frames. simpl fold_left.
    assert (Hne1 : action g1 <> state.lastAction (st w)).
    { rewrite H1, Hl. discriminate. }
    destruct (frame_none r g1 w H1 Hne1 Hd) as (lm1 & fd1 & fc1 & E1).
    rewrite E1.
    set (w1 := with_st (state.set_lastAction "none")
                 (retheme lm1 (time_until_dark g1) fd1 fc1 w)).
    assert (Hne2 : action g2 <> state.lastAction (st w1)).
    { rewrite H2. discriminate. }
    destruct (frame_nav r g2 w1 H_navigateRight (or_introl (conj H2 eq_refl)) Hne2 Hd Hq)
      as (lm2 & fd2 & fc2 & E2).
    rewrite E2.
    set (w2 := with_st (state.set_lastAction (action g2))
                 (retheme lm2 (time_until_dark g2) fd2 fc2 w1)).
    assert (Hr2 : index_in_range w2).
    { unfold index_in_range.
      change (itemCount w2) with (itemCount w).
      change (state.currentIndex (st w2)) with (state.currentIndex (st w)). lia. }
    destruct (navigation_keeps_detail H_navigateRight w2 (or_introl eq_refl))
      as (Kd & Kl & _).
    destruct (dispatch_navigateRight w2 Hr2) as [Hi Ht].
    change (itemCount w2) with (itemCount w) in Hi, Ht.
    change (state.currentIndex (st w2)) with (state.currentIndex (st w)) in Hi, Ht.
    rewrite Hc, Hn in Hi, Ht.
    change (2 <? 5 - 1) with true in Hi, Ht. cbv iota in Hi, Ht.
    destruct (frame_repeat r g3 (dispatch H_navigateRight w2)) as (lm3 & fd3 & fc3 & E3).
    { rewrite Kl, H3. symmetry. exact H2. }
    { rewrite Kd. exact Hd. }
    rewrite E3.
    destruct (retheme_keeps lm3 (time_until_dark g3) fd3 fc3 (dispatch H_navigateRight w2))
      as [Ri Rb].
    rewrite Ri, Rb, Ht. split; [exact Hi | split; reflexivity].
Qed.

Lemma nav_left_steps_forward_once_witness :
  state.currentIndex
    (st (frames Static [frame "none"; frame "nav_left"; frame "nav_left"] kiosk)) = 3 /\
  state.currentIndex
    (st (frames FaceAware [frame "none"; frame "nav_right"] kiosk)) = 1.
Proof.
  split.
  - refine (proj1 (proj2 nav_left_steps_forward_once Static
                     (frame "none") (frame "nav_left") (frame "nav_left") kiosk
                     _ _ _ _ _ _ _ _)); reflexivity.
  - refine (proj2 (proj1 nav_left_steps_forward_once FaceAware
                     (frame "nav_right") (handleGesture FaceAware (frame "none") kiosk)
                     _ _ _ _) _).
    + unfold index_in_range. vm_compute. split; intros H; [discriminate | split; discriminate].
    + reflexivity.
    + reflexivity.
    + vm_compute. discriminate.
    + reflexivity.
Defined.

(** * Overlays *)

Lemma actionSwitch_refuses_detail (g : Gesture) (w : World) :
  state.showQR (st w) = true -> state.showDetail (st w) = false ->
  state.showDetail (st (actionSwitch g w)) = false.
Proof.
  intros Hq Hd. unfold actionSwitch. cbv zeta. rewrite Hq, Hd. simpl.
  split_ifs; trivial.
  unfold dispatch, run_handler, hideDetail. simpl. now rewrite Hd.
Qed.

Lemma actionSwitch_detail_under_qr (g : Gesture) (w : World) :
  state.showQR (st w) = true -> action g = "detail" -> actionSwitch g w = w.
Proof. intros Hq Ha. unfold actionSwitch. now rewrite Ha, Hq. Qed.

Lemma fistOverride_no_fist (g : Gesture) (w : World) :
  is_fist g = false -> fistOverride g w = w.
Proof. intros H. unfold fistOverride. now rewrite H. Qed.

(** C2 (as amended). While the QR overlay is shown, no gesture frame opens
    the Detail panel: the QR flag stays set, a closed Detail panel stays
    closed, a detail action (without a fist) leaves both flags as they were,
    and the Enter key is ignored.  (No exclusion is enforced the other way
    round: a capture confirmed over an open Detail panel sets both flags.) *)
Theorem detail_refused_while_qr_shown :
  forall (r : Revision) (g : Gesture) (w : World),
    state.showQR (st w) = true ->
    let w' := handleGesture r g w in
    state.showQR (st w') = true /\
    (state.showDetail (st w) = false -> state.showDetail (st w') = false) /\
    (action g = "detail" -> is_fist g = false ->
     state.showDetail (st w') = state.showDetail (st w)) /\
    step r w (KeyDown Enter) = w.
Proof.
  intros r g w Hq w'. subst w'.
  destruct (handleGesture_keeps r g w) as (_ & _ & Kq & _).
  destruct (themeStep_retheme r g w) as (lm & fd & fc & E).
  split; [congruence | split; [|split]].
  - intros Hd. rewrite handleGesture_unfold, E.
    rewrite fistOverride_closed; unfold edgeDispatch; destruct (String.eqb _ _);
      trivial; now apply actionSwitch_refuses_detail.
  - intros Ha Hf. rewrite handleGesture_unfold, E.
    rewrite fistOverride_no_fist; [|exact Hf].
    unfold edgeDispatch. destruct (String.eqb _ _); trivial.
    now rewrite actionSwitch_detail_under_qr.
  - simpl. unfold onKeyDown. now rewrite Hq.
Qed.

(** C2, the claim as stated fails: opening Detail and then confirming a
    capture leaves both showDetail and showQR set. *)
Lemma detail_and_qr_both_open :
  state.showDetail (st capture_over_detail) = true /\
  state.showQR (st capture_over_detail) = true.
Proof. vm_compute. split; reflexivity. Qed.

Lemma detail_refused_while_qr_shown_witness :
  state.showQR (st (handleGesture Static (frame "detail")
                      (hideDetail capture_over_detail))) = true /\
  state.showDetail (st (handleGesture Static (frame "detail")
                          (hideDetail capture_over_detail))) = false.
Proof.
  destruct (detail_refused_while_qr_shown Static (frame "detail")
              (hideDetail capture_over_detail) eq_refl) as (H1 & H2 & _).
  split; [exact H1 | exact (H2 eq_refl)].
Defined.

(** * Theme *)

Lemma gt0_spec (x : Q) : gt0 x = true <-> (0 < x)%Q.
Proof.
  unfold gt0. rewrite negb_true_iff. split; intros H.
  - apply Qnot_le_lt. intros Hle. apply Qle_bool_iff in Hle. congruence.
  - destruct (Qle_bool x 0) eqn:E; trivial.
    apply Qle_bool_iff in E. exfalso. exact (Qlt_not_le _ _ H E).
Qed.

Lemma lightMode_handleGesture (r : Revision) (g : Gesture) (w : World) :
  state.lightMode (st (handleGesture r g w)) = state.lightMode (st (themeStep r g w)) /\
  state.timeUntilDark (st (handleGesture r g w)) = time_until_dark g.
Proof.
  pose proof (offstage_handleGesture r g w) as H. split.
  - exact (f_equal (fun x => state.lightMode (st x)) H).
  - transitivity (state.timeUntilDark (st (themeStep r g w))).
    + exact (f_equal (fun x => state.timeUntilDark (st x)) H).
    + destruct r; reflexivity.
Qed.

(** The face-aware revision follows the rule: a detected hand switches the
    light on at once; otherwise the server's hint counts while the decay
    timer is positive; otherwise dark. *)
Lemma face_aware_theme_rule (g : Gesture) (w : World) :
  state.lightMode (st (handleGesture FaceAware g w)) =
    (if hand_detected g then true
     else if gt0 (time_until_dark g) then light_mode g else false).
Proof.
  rewrite (proj1 (lightMode_handleGesture FaceAware g w)).
  unfold themeStep, FaceId.updateThemeMode. cbv zeta.
  destruct (Bool.eqb _ _) eqn:Eb; [|reflexivity].
  apply eqb_prop in Eb. symmetry. exact Eb.
Qed.

(** [static/shop_carousel.js] stores the server's hint as it comes. *)
Lemma static_theme_rule (g : Gesture) (w : World) :
  state.lightMode (st (handleGesture Static g w)) = light_mode g.
Proof.
  rewrite (proj1 (lightMode_handleGesture Static g w)).
  unfold themeStep, Shop.updateThemeMode. cbv zeta.
  destruct (Bool.eqb _ _) eqn:Eb; [|reflexivity].
  apply eqb_prop in Eb. symmetry. exact Eb.
Qed.

(** C3. On [static/shop_carousel.js] the rule does not hold: with a hand
    detected and a dark hint the mode stays dark, and with no hand and the
    timer at zero a light hint still switches the light on; the face-aware
    revision gives light and dark on the same two frames. *)
Theorem static_theme_ignores_hand :
  hand_detected hand_but_dark_hint = true /\
  state.lightMode (st (handleGesture Static hand_but_dark_hint kiosk)) = false /\
  state.lightMode (st (handleGesture FaceAware hand_but_dark_hint kiosk)) = true /\
  hand_detected stale_light_hint = false /\
  gt0 (time_until_dark stale_light_hint) = false /\
  state.lightMode (st (handleGesture Static stale_light_hint kiosk)) = true /\
  state.lightMode (st (handleGesture FaceAware stale_light_hint kiosk)) = false.
Proof.
  rewrite !static_theme_rule, !face_aware_theme_rule. repeat split.
Qed.

(** * Timers and transport *)

(** ** Functions that touch neither the overlay timer nor the transport *)

Lemma quiet_navigateTo (i : Z) (w : World) : sideView (navigateTo i w) = sideView w.
Proof. reflexivity. Qed.

Lemma quiet_navigateLeft (w : World) : sideView (navigateLeft w) = sideView w.
Proof. unfold navigateLeft. split_all; reflexivity. Qed.

Lemma quiet_navigateRight (w : World) : sideView (navigateRight w) = sideView w.
Proof. unfold navigateRight. split_all; reflexivity. Qed.

Lemma quiet_showDetail (e : option NostrEvent) (w : World) :
  sideView (showDetail e w) = sideView w.
Proof. unfold showDetail. split_all; reflexivity. Qed.

Lemma quiet_hideDetail (w : World) : sideView (hideDetail w) = sideView w.
Proof. unfold hideDetail. split_all; reflexivity. Qed.

Lemma quiet_eventsLoaded (evs : list NostrEvent) (ld : bool) (w : World) :
  sideView (eventsLoaded evs ld w) = sideView w.
Proof. unfold eventsLoaded. cbv zeta. split_all; reflexivity. Qed.

Lemma quiet_onWheel (f : bool) (w : World) : sideView (onWheel f w) = sideView w.
Proof.
  unfold onWheel. split_all; trivial; [apply quiet_navigateRight | apply quiet_navigateLeft].
Qed.

Lemma quiet_onSwipe (f : bool) (w : World) : sideView (onSwipe f w) = sideView w.
Proof.
  unfold onSwipe. split_all; trivial; [apply quiet_navigateLeft | apply quiet_navigateRight].
Qed.

Lemma quiet_onNavZoneClick (s : Side) (w : World) :
  sideView (onNavZoneClick s w) = sideView w.
Proof. destruct s; [apply quiet_navigateLeft | apply quiet_navigateRight]. Qed.

Lemma quiet_onCardClick (i : Z) (w : World) : sideView (onCardClick i w) = sideView w.
Proof.
  unfold onCardClick. destruct (eventAt w i); trivial.
  destruct (_ =? _); [apply quiet_showDetail | apply quiet_navigateTo].
Qed.

Lemma quiet_handleGesture (r : Revision) (g : Gesture) (w : World) :
  sideView (handleGesture r g w) = sideView w.
Proof.
  destruct (handleGesture_keeps r g w)
    as (_ & _ & Hq & Hc & Hi & Hu & _ & Hv & Ht & Hf & Hp).
  unfold sideView, qrView, netView. now rewrite Hq, Hc, Hi, Hu, Hv, Ht, Hf, Hp.
Qed.

(** ** The overlay functions leave the transport alone *)

Lemma net_showQR (w : World) : netView (showQR w) = netView w.
Proof. unfold showQR. cbv zeta. split_all; reflexivity. Qed.

Lemma net_hideQR (w : World) : netView (hideQR w) = netView w.
Proof. unfold hideQR. cbv zeta. split_all; reflexivity. Qed.

Lemma net_qrTick (w : World) : netView (qrTick w) = netView w.
Proof. unfold qrTick. cbv zeta. split_all; trivial. now rewrite net_hideQR. Qed.

Lemma net_onKeyDown (k : Key) (w : World) : netView (onKeyDown k w) = netView w.
Proof.
  unfold onKeyDown.
  destruct (state.showQR (st w)); [destruct k; trivial; apply net_hideQR|].
  destruct (state.showDetail (st w));
    [destruct k; trivial; exact (f_equal snd (quiet_hideDetail w))|].
  destruct k; trivial.
  - exact (f_equal snd (quiet_navigateLeft w)).
  - exact (f_equal snd (quiet_navigateRight w)).
  - destruct (isSome _); trivial. exact (f_equal snd (quiet_showDetail _ w)).
Qed.

(** ** The transport functions leave the overlay timer alone *)

Lemma qr_poll (w : World) : qrView (poll w) = qrView w.
Proof. unfold poll. split_all; reflexivity. Qed.

Lemma qr_startPollingFallback (w : World) : qrView (startPollingFallback w) = qrView w.
Proof. unfold startPollingFallback. split_all; trivial. apply qr_poll. Qed.

Lemma qr_pollDone (r : Revision) (resp : option Gesture) (w : World) :
  qrView (pollDone (handleGesture r) resp w) = qrView w.
Proof.
  unfold pollDone. cbv zeta.
  destruct resp as [g|]; split_all; trivial;
    exact (f_equal fst (quiet_handleGesture r g w)).
Qed.

(** ** The countdown timer *)

Lemma dropTimer_self (t : TimerId) : dropTimer t [t] = [].
Proof. unfold dropTimer. simpl. now rewrite Pos.eqb_refl. Qed.

Lemma timer_inv_of_qrView (w w' : World) :
  qrView w' = qrView w -> timer_inv w -> timer_inv w'.
Proof.
  unfold qrView, timer_inv. intros H Hw. injection H as Hi Hq _ _. now rewrite Hi, Hq.
Qed.

Lemma qr_closed_timer_inv (w : World) : qr_closed w -> timer_inv w.
Proof. intros (Hi & Hq & _). unfold timer_inv. now rewrite Hi, Hq. Qed.

(** [showQR] clears the stored timer before it starts the new one. *)
Lemma showQR_opens (w : World) :
  DOM.qrOverlay (dom w) = true -> timer_inv w ->
  state.showQR (st (showQR w)) = true /\
  state.qrCountdown (st (showQR w)) = CONFIG.QR_DISPLAY_TIME /\
  browser.intervals (br (showQR w)) = [browser.nextTimer (br w)] /\
  state.qrInterval (st (showQR w)) = Some (browser.nextTimer (br w)).
Proof.
  intros Hd Hw. unfold timer_inv in Hw. unfold showQR. rewrite Hd. simpl.
  destruct (state.qrInterval (st w)) as [t|] eqn:E; simpl; rewrite Hw.
  - rewrite dropTimer_self. repeat split.
  - repeat split.
Qed.

Lemma timer_inv_showQR (w : World) : timer_inv w -> timer_inv (showQR w).
Proof.
  intros Hw. destruct (DOM.qrOverlay (dom w)) eqn:Hd.
  - destruct (showQR_opens w Hd Hw) as (_ & _ & Hi & Hq).
    unfold timer_inv. now rewrite Hi, Hq.
  - unfold showQR. now rewrite Hd.
Qed.

(** [hideQR] clears the stored timer. *)
Lemma hideQR_closes (w : World) :
  timer_inv w ->
  qr_closed (hideQR w) /\ state.qrCountdown (st (hideQR w)) = state.qrCountdown (st w).
Proof.
  intros Hw. unfold timer_inv in Hw. unfold hideQR, qr_closed. simpl.
  destruct (state.qrInterval (st w)) as [t|] eqn:E; simpl.
  - rewrite Hw, dropTimer_self. repeat split.
  - rewrite Hw, E. repeat split.
Qed.

Lemma timer_inv_qrTick (w : World) : timer_inv w -> timer_inv (qrTick w).
Proof.
  intros Hw. unfold qrTick. cbv zeta. destruct (_ <=? _); [|exact Hw].
  apply qr_closed_timer_inv. now apply hideQR_closes.
Qed.

Lemma onKeyDown_cases (k : Key) (w : World) :
  sideView (onKeyDown k w) = sideView w \/
  (state.showQR (st w) = true /\ k = Escape /\ onKeyDown k w = hideQR w).
Proof.
  unfold onKeyDown. destruct (state.showQR (st w)) eqn:Hq.
  - destruct k; auto.
  - left. destruct (state.showDetail (st w)).
    + destruct k; trivial. apply quiet_hideDetail.
    + destruct k; trivial.
      * apply quiet_navigateLeft.
      * apply quiet_navigateRight.
      * destruct (isSome _); trivial. apply quiet_showDetail.
Qed.

(** Every turn of the event loop keeps the timer invariant. *)
Lemma timer_inv_step (r : Revision) (w : World) (i : Input) :
  timer_inv w -> timer_inv (step r w i).
Proof.
  intros Hw. destruct i; simpl.
  - exact (timer_inv_of_qrView _ _ (f_equal fst (quiet_eventsLoaded evs ld w)) Hw).
  - destruct (browser.wsListening _); exact Hw.
  - destruct (browser.wsListening _); [|exact Hw].
    exact (timer_inv_of_qrView _ _ (f_equal fst (quiet_handleGesture r g w)) Hw).
  - destruct (browser.wsListening _); [|exact Hw].
    unfold onDisconnect. eapply timer_inv_of_qrView; [apply qr_startPollingFallback | exact Hw].
  - destruct (browser.wsListening _); [|exact Hw].
    unfold onConnectError. cbv zeta.
    eapply timer_inv_of_qrView; [apply qr_startPollingFallback |].
    destruct (state.socket _); exact Hw.
  - destruct (browser.gestureFetches _); [exact Hw|].
    eapply timer_inv_of_qrView; [apply qr_pollDone | exact Hw].
  - destruct (hasTimer _ _); [|exact Hw].
    eapply timer_inv_of_qrView; [apply qr_poll | exact Hw].
  - destruct (hasTimer _ _); [|exact Hw]. now apply timer_inv_qrTick.
  - destruct (browser.captureFetches _); [exact Hw|].
    destruct success; simpl; [apply timer_inv_showQR|]; exact Hw.
  - destruct (onKeyDown_cases k w) as [H | (_ & _ & H)].
    + exact (timer_inv_of_qrView _ _ (f_equal fst H) Hw).
    + rewrite H. apply qr_closed_timer_inv. now apply hideQR_closes.
  - exact (timer_inv_of_qrView _ _ (f_equal fst (quiet_onWheel forward w)) Hw).
  - exact (timer_inv_of_qrView _ _ (f_equal fst (quiet_onSwipe toRight w)) Hw).
  - exact (timer_inv_of_qrView _ _ (f_equal fst (quiet_onNavZoneClick s w)) Hw).
  - exact (timer_inv_of_qrView _ _ (f_equal fst (quiet_onCardClick index w)) Hw).
  - exact (timer_inv_of_qrView _ _ (f_equal fst (quiet_hideDetail w)) Hw).
  - destruct (DOM.qrOverlay _); [|exact Hw].
    apply qr_closed_timer_inv. now apply hideQR_closes.
Qed.

Lemma timer_inv_run (r : Revision) (ins : list Input) :
  forall w, timer_inv w -> timer_inv (run r ins w).
Proof.
  induction ins as [|i ins IH]; intros w Hw; simpl; [exact Hw|].
  apply IH. now apply timer_inv_step.
Qed.

Lemma timer_inv_boot (d : DOM.t) (lib : IoLib) : timer_inv (boot d lib).
Proof. destruct lib; reflexivity. Qed.

Lemma timer_inv_reachable (r : Revision) (w : World) : reachable r w -> timer_inv w.
Proof.
  intros (d & lib & ins & ->). apply timer_inv_run, timer_inv_boot.
Qed.

(** With the overlay closed and its timer cleared, only a confirmed capture
    changes anything about the overlay: no tick fires, the countdown keeps
    its value, no automatic close happens. *)
Lemma qr_closed_step (r : Revision) (w : World) (i : Input) :
  qr_closed w -> i <> CaptureResponse true -> qrView (step r w i) = qrView w.
Proof.
  intros (Hi & Hq & Hs) Hne.
  assert (Hh : qrView (hideQR w) = qrView w).
  { unfold hideQR, qrView. simpl. rewrite Hq. simpl. now rewrite Hq, Hs. }
  destruct i; simpl.
  - exact (f_equal fst (quiet_eventsLoaded evs ld w)).
  - destruct (browser.wsListening _); reflexivity.
  - destruct (browser.wsListening _); [|reflexivity].
    exact (f_equal fst (quiet_handleGesture r g w)).
  - destruct (browser.wsListening _); [|reflexivity].
    unfold onDisconnect. now rewrite qr_startPollingFallback.
  - destruct (browser.wsListening _); [|reflexivity].
    unfold onConnectError. cbv zeta. rewrite qr_startPollingFallback.
    destruct (state.socket _); reflexivity.
  - destruct (browser.gestureFetches _); [reflexivity|]. now rewrite qr_pollDone.
  - destruct (hasTimer _ _); [|reflexivity]. now rewrite qr_poll.
  - now rewrite Hi.
  - destruct (browser.captureFetches _); [reflexivity|].
    destruct success; [contradiction Hne|]; reflexivity.
  - destruct (onKeyDown_cases k w) as [H | (_ & _ & H)].
    + exact (f_equal fst H).
    + now rewrite H.
  - exact (f_equal fst (quiet_onWheel forward w)).
  - exact (f_equal fst (quiet_onSwipe toRight w)).
  - exact (f_equal fst (quiet_onNavZoneClick s w)).
  - exact (f_equal fst (quiet_onCardClick index w)).
  - exact (f_equal fst (quiet_hideDetail w)).
  - destruct (DOM.qrOverlay _); [exact Hh | reflexivity].
Qed.

Lemma qr_closed_of_qrView (w w' : World) :
  qrView w' = qrView w -> qr_closed w -> qr_closed w'.
Proof.
  unfold qrView, qr_closed. intros H Hw. injection H as Hi Hq _ Hs. now rewrite Hi, Hq, Hs.
Qed.

Lemma qr_closed_run (r : Revision) (ins : list Input) :
  forall w, qr_closed w ->
            Forall (fun i => i <> CaptureResponse true) ins ->
            qrView (run r ins w) = qrView w.
Proof.
  induction ins as [|i ins IH]; intros w Hw Hall; simpl; [reflexivity|].
  inversion Hall as [|? ? Hi Hrest]; subst.
  pose proof (qr_closed_step r w i Hw Hi) as Hv.
  rewrite IH; [exact Hv | exact (qr_closed_of_qrView _ _ Hv Hw) | exact Hrest].
Qed.

(** C7. In every reachable world at most one countdown timer is running.
    Opening the QR overlay sets the countdown to 10 and leaves exactly one
    timer running, the new one: a timer still stored is cleared first.
    Closing the overlay by hand (a click on it, or Escape) clears the timer at
    once, keeps the countdown where it stood, and from then on, until a new
    capture is confirmed, no input at all (timer ticks included) changes the
    overlay flag, the countdown or the set of running timers: no tick and no
    automatic close fires. *)
Theorem qr_countdown_cancelled_on_close :
  forall (r : Revision) (w : World),
    reachable r w ->
    DOM.qrOverlay (dom w) = true ->
    (List.length (browser.intervals (br w)) <= 1)%nat /\
    (state.showQR (st (showQR w)) = true /\
     state.qrCountdown (st (showQR w)) = 10 /\
     browser.intervals (br (showQR w)) = [browser.nextTimer (br w)] /\
     state.qrInterval (st (showQR w)) = Some (browser.nextTimer (br w))) /\
    (forall i : Input,
        i = QrOverlayClick \/ i = KeyDown Escape ->
        state.showQR (st w) = true ->
        let c := step r w i in
        state.showQR (st c) = false /\
        browser.intervals (br c) = [] /\
        state.qrInterval (st c) = None /\
        state.qrCountdown (st c) = state.qrCountdown (st w) /\
        forall ins : list Input,
          Forall (fun i => i <> CaptureResponse true) ins ->
          qrView (run r ins c) = qrView c).
Proof.
  intros r w Hr Hd. pose proof (timer_inv_reachable r w Hr) as Hw.
  split; [|split].
  - unfold timer_inv in Hw. rewrite Hw. destruct (state.qrInterval _); simpl; lia.
  - exact (showQR_opens w Hd Hw).
  - intros i Hi Hq c.
    assert (Hc : c = hideQR w).
    { subst c. destruct Hi as [-> | ->]; simpl.
      - now rewrite Hd.
      - unfold onKeyDown. now rewrite Hq. }
    rewrite Hc. destruct (hideQR_closes w Hw) as [(H1 & H2 & H3) H4].
    repeat split; trivial.
    intros ins Hall. apply qr_closed_run; [repeat split; trivial | exact Hall].
Qed.

Lemma qr_countdown_cancelled_on_close_witness :
  state.showQR (st qr_after_3s) = true /\
  state.qrCountdown (st qr_after_3s) = 7 /\
  let c := step Static qr_after_3s QrOverlayClick in
  state.showQR (st c) = false /\
  state.qrCountdown (st c) = 7 /\
  qrView (run Static (map QrTick (repeat 1%positive 7)) c) = qrView c.
Proof.
  assert (Hr : reachable Static qr_after_3s).
  { exists full_dom, IoWorks.
    exists [EventsLoaded five_items false; WsConnect;
            WsGesture (frame "capture"); CaptureResponse true;
            QrTick 1%positive; QrTick 1%positive; QrTick 1%positive].
    reflexivity. }
  assert (Hq : state.showQR (st qr_after_3s) = true) by (vm_compute; reflexivity).
  assert (H7 : state.qrCountdown (st qr_after_3s) = 7) by (vm_compute; reflexivity).
  destruct (qr_countdown_cancelled_on_close Static qr_after_3s Hr eq_refl)
    as (_ & _ & Hclose).
  destruct (Hclose QrOverlayClick (or_introl eq_refl) Hq) as (H1 & _ & _ & H4 & H5).
  split; [exact Hq | split; [exact H7 |]].
  split; [exact H1 | split; [now rewrite H4 |]].
  apply H5. repeat constructor; discriminate.
Defined.

(** ** The polling loop *)

Lemma net_le_of_netView (w w' : World) : netView w' = netView w -> net_le w' w.
Proof.
  unfold netView, net_le. intros H. injection H as Hu Hp Hf Ht.
  rewrite Hu, Hp, Hf, Ht. repeat split; lia.
Qed.

Lemma net_le_trans (w1 w2 w3 : World) : net_le w1 w2 -> net_le w2 w3 -> net_le w1 w3.
Proof.
  intros (A1 & A2 & A3 & A4) (B1 & B2 & B3 & B4).
  repeat split; [congruence | congruence | lia | lia].
Qed.

(** [poll] looks at the flag before it sends anything. *)
Lemma poll_guard (w : World) : state.useWebSocket (st w) = true -> poll w = w.
Proof. intros H. unfold poll. now rewrite H. Qed.

Lemma poll_flag (w : World) :
  state.useWebSocket (st (poll w)) = state.useWebSocket (st w) /\
  (state.useWebSocket (st w) = false -> polls (poll w) = S (polls w)).
Proof. unfold poll. destruct (state.useWebSocket (st w)) eqn:E; split; trivial; discriminate. Qed.

Lemma startPollingFallback_flag (w : World) :
  state.useWebSocket (st (startPollingFallback w)) = state.useWebSocket (st w).
Proof.
  unfold startPollingFallback. destruct (state.useWebSocket (st w)) eqn:E; trivial.
  now rewrite (proj1 (poll_flag w)).
Qed.

(** [poll] looks at the flag again before it schedules its next run. *)
Lemma pollDone_guard (r : Revision) (resp : option Gesture) (w : World) :
  state.useWebSocket (st w) = true ->
  pollDone (handleGesture r) resp w =
    match resp with Some g => handleGesture r g w | None => w end.
Proof.
  intros H. unfold pollDone. cbv zeta. destruct resp as [g|].
  - destruct (handleGesture_keeps r g w) as (_ & _ & _ & _ & _ & Hu & _).
    now rewrite Hu, H.
  - now rewrite H.
Qed.

Lemma pollDone_polls (r : Revision) (resp : option Gesture) (w : World) :
  polls (pollDone (handleGesture r) resp w) = polls w /\
  state.useWebSocket (st (pollDone (handleGesture r) resp w)) = state.useWebSocket (st w).
Proof.
  assert (H : polls (match resp with Some g => handleGesture r g w | None => w end) = polls w /\
              state.useWebSocket
                (st (match resp with Some g => handleGesture r g w | None => w end)) =
                state.useWebSocket (st w)).
  { destruct resp as [g|]; [|split; reflexivity].
    destruct (handleGesture_keeps r g w) as (_ & _ & _ & _ & _ & Hu & _ & _ & _ & _ & Hp).
    split; assumption. }
  unfold pollDone. cbv zeta. destruct (negb _); exact H.
Qed.

Lemma dropTimer_length (t : TimerId) (l : list TimerId) :
  (List.length (dropTimer t l) <= List.length l)%nat.
Proof.
  induction l as [|x l IH]; simpl; [lia|].
  destruct (negb _); simpl; lia.
Qed.

(** While the socket is up and stays up, a turn of the event loop sends no
    gesture request, starts none, and schedules no poll. *)
Lemma socket_active_step (r : Revision) (w : World) (i : Input) :
  state.useWebSocket (st w) = true -> keeps_socket i -> net_le (step r w i) w.
Proof.
  intros Hu [Hd He]. destruct i; simpl; try contradiction.
  - exact (net_le_of_netView _ _ (f_equal snd (quiet_eventsLoaded evs ld w))).
  - destruct (browser.wsListening _); apply net_le_of_netView; trivial.
    unfold netView, onConnect. simpl. now rewrite Hu.
  - destruct (browser.wsListening _); apply net_le_of_netView; trivial.
    exact (f_equal snd (quiet_handleGesture r g w)).
  - destruct (browser.gestureFetches (br w)) as [|n] eqn:En.
    { apply net_le_of_netView; reflexivity. }
    rewrite pollDone_guard; [|exact Hu].
    apply net_le_trans with (w2 := with_br (browser.set_gestureFetches n) w).
    + destruct resp as [g|]; apply net_le_of_netView; trivial.
      exact (f_equal snd (quiet_handleGesture r g _)).
    + unfold net_le. simpl. rewrite En. repeat split; lia.
  - destruct (hasTimer _ _); [|apply net_le_of_netView; reflexivity].
    rewrite poll_guard; [|exact Hu].
    unfold net_le. simpl. repeat split; trivial. apply dropTimer_length.
  - destruct (hasTimer _ _); apply net_le_of_netView; trivial. apply net_qrTick.
  - destruct (browser.captureFetches _); [apply net_le_of_netView; reflexivity|].
    destruct success; simpl; apply net_le_of_netView; trivial.
    now rewrite net_showQR.
  - apply net_le_of_netView, net_onKeyDown.
  - exact (net_le_of_netView _ _ (f_equal snd (quiet_onWheel forward w))).
  - exact (net_le_of_netView _ _ (f_equal snd (quiet_onSwipe toRight w))).
  - exact (net_le_of_netView _ _ (f_equal snd (quiet_onNavZoneClick s w))).
  - exact (net_le_of_netView _ _ (f_equal snd (quiet_onCardClick index w))).
  - exact (net_le_of_netView _ _ (f_equal snd (quiet_hideDetail w))).
  - destruct (DOM.qrOverlay _); apply net_le_of_netView; trivial. apply net_hideQR.
Qed.

Lemma socket_active_run (r : Revision) (ins : list Input) :
  forall w, state.useWebSocket (st w) = true -> Forall keeps_socket ins ->
            net_le (run r ins w) w.
Proof.
  induction ins as [|i ins IH]; intros w Hu Hall; simpl.
  - apply net_le_of_netView. reflexivity.
  - inversion Hall as [|? ? Hi Hrest]; subst.
    pose proof (socket_active_step r w i Hu Hi) as Hs.
    apply net_le_trans with (w2 := step r w i); [|exact Hs].
    apply IH; [|exact Hrest]. destruct Hs as (E & _). now rewrite E.
Qed.

(** A turn of the event loop that sends a gesture request ends with the flag
    off: only [poll] sends one, after it saw the flag off. *)
Lemma request_needs_flag_off (r : Revision) (w : World) (i : Input) :
  polls (step r w i) = polls w \/ state.useWebSocket (st (step r w i)) = false.
Proof.
  assert (V : forall w', netView w' = netView w -> polls w' = polls w).
  { unfold netView. intros w' H. now injection H. }
  assert (P : forall w1, polls w1 = polls w ->
                         polls (poll w1) = polls w \/
                         state.useWebSocket (st (poll w1)) = false).
  { intros w1 H1. destruct (state.useWebSocket (st w1)) eqn:E.
    - left. now rewrite poll_guard.
    - right. now rewrite (proj1 (poll_flag w1)). }
  destruct i; simpl.
  - left. exact (V _ (f_equal snd (quiet_eventsLoaded evs ld w))).
  - left. destruct (browser.wsListening _); reflexivity.
  - left. destruct (browser.wsListening _); trivial.
    exact (V _ (f_equal snd (quiet_handleGesture r g w))).
  - destruct (browser.wsListening _); [|now left].
    right. unfold onDisconnect. now rewrite startPollingFallback_flag.
  - destruct (browser.wsListening _); [|now left].
    right. unfold onConnectError. cbv zeta. rewrite startPollingFallback_flag.
    destruct (state.socket _); reflexivity.
  - left. destruct (browser.gestureFetches _); trivial.
    now rewrite (proj1 (pollDone_polls r resp _)).
  - destruct (hasTimer _ _); [|now left]. now apply P.
  - left. destruct (hasTimer _ _); trivial. apply V, net_qrTick.
  - left. destruct (browser.captureFetches _); trivial.
    destruct success; simpl; trivial. apply V. now rewrite net_showQR.
  - left. apply V, net_onKeyDown.
  - left. exact (V _ (f_equal snd (quiet_onWheel forward w))).
  - left. exact (V _ (f_equal snd (quiet_onSwipe toRight w))).
  - left. exact (V _ (f_equal snd (quiet_onNavZoneClick s w))).
  - left. exact (V _ (f_equal snd (quiet_onCardClick index w))).
  - left. exact (V _ (f_equal snd (quiet_hideDetail w))).
  - left. destruct (DOM.qrOverlay _); trivial. apply V, net_hideQR.
Qed.

(** C8. With useWebSocket set, poll returns before it sends its request, and
    the end of a poll schedules no next run; so as long as the socket stays
    connected no input makes the script send a gesture request, start one or
    schedule a poll.  In any world, a turn of the event loop that does send a
    gesture request ends with useWebSocket off. *)
Theorem no_poll_while_socket_active :
  forall (r : Revision) (w : World),
    state.useWebSocket (st w) = true ->
    poll w = w /\
    (forall resp : option Gesture,
        polls (pollDone (handleGesture r) resp w) = polls w /\
        browser.timeouts (br (pollDone (handleGesture r) resp w)) =
          browser.timeouts (br w) /\
        state.gesturePolling (st (pollDone (handleGesture r) resp w)) =
          state.gesturePolling (st w)) /\
    (forall ins : list Input,
        Forall keeps_socket ins ->
        state.useWebSocket (st (run r ins w)) = true /\
        polls (run r ins w) = polls w /\
        (browser.gestureFetches (br (run r ins w)) <= browser.gestureFetches (br w))%nat /\
        (List.length (browser.timeouts (br (run r ins w))) <=
           List.length (browser.timeouts (br w)))%nat) /\
    (forall (w0 : World) (i : Input),
        polls (step r w0 i) <> polls w0 ->
        state.useWebSocket (st (step r w0 i)) = false).
Proof.
  intros r w Hu. split; [now apply poll_guard | split; [|split]].
  - intros resp. rewrite pollDone_guard; [|exact Hu].
    destruct resp as [g|]; [|repeat split].
    pose proof (offstage_handleGesture r g w) as H.
    destruct (themeStep_retheme r g w) as (lm & fd & fc & E). rewrite E in H.
    destruct (handleGesture_keeps r g w) as (_ & _ & _ & _ & _ & _ & _ & _ & Ht & _ & Hp).
    repeat split; trivial.
    exact (f_equal (fun x => state.gesturePolling (st x)) H).
  - intros ins Hall. destruct (socket_active_run r ins w Hu Hall) as (A & B & C & D).
    repeat split; trivial. now rewrite A.
  - intros w0 i Hne. destruct (request_needs_flag_off r w0 i) as [H|H]; [contradiction | exact H].
Qed.

Lemma no_poll_while_socket_active_witness :
  state.useWebSocket (st reconnected) = true /\
  polls (run Static [PollResponse (Some (frame "nav_left")); PollTimeout 1%positive;
                     WsGesture (frame "none"); KeyDown ArrowRight] reconnected) =
    polls reconnected.
Proof.
  assert (Hu : state.useWebSocket (st reconnected) = true) by (vm_compute; reflexivity).
  split; [exact Hu|].
  destruct (no_poll_while_socket_active Static reconnected Hu) as (_ & _ & Hrun & _).
  apply Hrun. repeat constructor; discriminate.
Defined.

(** C9 (as amended). A poll response that arrives after the socket has
    reconnected is still handed to handleGesture: the frame is processed
    (lastAction becomes its action).  What the flag stops is the loop: after
    that delivery no timer is scheduled and no request is sent, and while the
    socket stays connected the number of requests in flight only goes down. *)
Theorem stale_poll_response_still_delivered :
  forall (r : Revision) (g : Gesture) (w : World) (n : nat),
    state.useWebSocket (st w) = true ->
    browser.gestureFetches (br w) = S n ->
    let w' := step r w (PollResponse (Some g)) in
    w' = handleGesture r g (with_br (browser.set_gestureFetches n) w) /\
    state.lastAction (st w') = action g /\
    browser.gestureFetches (br w') = n /\
    browser.timeouts (br w') = browser.timeouts (br w) /\
    polls w' = polls w /\
    state.useWebSocket (st w') = true /\
    forall ins : list Input,
      Forall keeps_socket ins ->
      (browser.gestureFetches (br (run r ins w')) <= n)%nat /\
      polls (run r ins w') = polls w.
Proof.
  intros r g w n Hu Hf w'.
  assert (Hw' : w' = handleGesture r g (with_br (browser.set_gestureFetches n) w)).
  { subst w'. simpl. rewrite Hf. now rewrite pollDone_guard. }
  destruct (handleGesture_keeps r g (with_br (browser.set_gestureFetches n) w))
    as (_ & _ & _ & _ & _ & Ku & _ & _ & Kt & Kf & Kp).
  rewrite <- Hw' in Ku, Kt, Kf, Kp.
  assert (Hu' : state.useWebSocket (st w') = true) by (rewrite Ku; exact Hu).
  split; [exact Hw' | split; [|split; [|split; [|split; [|split]]]]]; trivial.
  - rewrite Hw'. apply lastAction_handleGesture.
  - intros ins Hall. destruct (socket_active_run r ins w' Hu' Hall) as (_ & B & C & _).
    rewrite Kf in C. simpl in C. split; [exact C | now rewrite B, Kp].
Qed.

(** C9, the claim as stated fails: the request that was in flight when the
    socket reconnected delivers its frame afterwards, with useWebSocket set;
    the frame is acted on (the carousel moves from item 0 to item 1). *)
Lemma stale_poll_frame_is_delivered :
  state.useWebSocket (st reconnected) = true /\
  browser.gestureFetches (br reconnected) = 1%nat /\
  state.currentIndex (st reconnected) = 0 /\
  state.currentIndex
    (st (step Static reconnected (PollResponse (Some (frame "nav_left"))))) = 1 /\
  state.lastAction
    (st (step Static reconnected (PollResponse (Some (frame "nav_left"))))) = "nav_left" /\
  state.useWebSocket
    (st (step Static reconnected (PollResponse (Some (frame "nav_left"))))) = true.
Proof. vm_compute. repeat split. Qed.

Lemma stale_poll_response_still_delivered_witness :
  step Static reconnected (PollResponse (Some (frame "nav_left"))) =
    handleGesture Static (frame "nav_left")
      (with_br (browser.set_gestureFetches 0%nat) reconnected).
Proof.
  refine (proj1 (stale_poll_response_still_delivered Static (frame "nav_left")
                   reconnected 0%nat _ _)); vm_compute; reflexivity.
Defined.

(** * More of the event loop *)

(** ** The countdown runs out *)

Lemma hasTimer_self (t : TimerId) : hasTimer t [t] = true.
Proof. unfold hasTimer. simpl. now rewrite Pos.eqb_refl. Qed.

Lemma qr_open_timer_inv (t : TimerId) (c : Z) (w : World) : qr_open_at t c w -> timer_inv w.
Proof. intros (_ & _ & Hi & Hq). unfold timer_inv. now rewrite Hi, Hq. Qed.

Lemma qrTick_counts (r : Revision) (t : TimerId) (c : Z) (w : World) :
  qr_open_at t c w -> 1 < c -> qr_open_at t (c - 1) (step r w (QrTick t)).
Proof.
  intros (Hs & Hc & Hi & Hq) Hlt. simpl. rewrite Hi, hasTimer_self.
  unfold qrTick. cbv zeta. simpl. rewrite Hc.
  destruct (Z.leb_spec (c - 1) 0) as [H|H]; [lia|].
  repeat split; trivial.
Qed.

Lemma qrTick_expires (r : Revision) (t : TimerId) (w : World) :
  qr_open_at t 1 w ->
  qr_closed (step r w (QrTick t)) /\ state.qrCountdown (st (step r w (QrTick t))) = 0.
Proof.
  intros (Hs & Hc & Hi & Hq). simpl. rewrite Hi, hasTimer_self.
  unfold qrTick. cbv zeta. simpl. rewrite Hc. simpl.
  set (w1 := with_st (state.set_qrCountdown 0) w).
  assert (Hw1 : timer_inv w1) by (unfold timer_inv; simpl; now rewrite Hi, Hq).
  destruct (hideQR_closes w1 Hw1) as [H1 H2]. split; [exact H1 | exact H2].
Qed.

Lemma qr_ticks_count (r : Revision) (t : TimerId) (k : nat) :
  forall (c : Z) (w : World),
    qr_open_at t c w -> Z.of_nat k < c ->
    qr_open_at t (c - Z.of_nat k) (run r (repeat (QrTick t) k) w).
Proof.
  induction k as [|k IH]; intros c w Hw Hk.
  - simpl. now rewrite Z.sub_0_r.
  - cbn [repeat run fold_left].
    replace (c - Z.of_nat (S k)) with ((c - 1) - Z.of_nat k) by lia.
    apply IH; [|lia]. apply qrTick_counts; [exact Hw | lia].
Qed.

(** X1. The QR overlay dismisses itself after exactly ten ticks of its
    timer: k < 10 ticks after showQR the overlay is still shown with the
    countdown at 10 - k and the same single timer running; the tenth tick
    hides it, leaves the countdown at 0 and clears the timer. *)
Theorem qr_auto_dismiss_after_ten_ticks :
  forall (r : Revision) (w : World),
    reachable r w ->
    DOM.qrOverlay (dom w) = true ->
    let t := browser.nextTimer (br w) in
    (forall k : nat, (k < 10)%nat ->
        qr_open_at t (10 - Z.of_nat k) (run r (repeat (QrTick t) k) (showQR w))) /\
    qr_closed (run r (repeat (QrTick t) 10) (showQR w)) /\
    state.qrCountdown (st (run r (repeat (QrTick t) 10) (showQR w))) = 0.
Proof.
  intros r w Hr Hd t.
  pose proof (timer_inv_reachable r w Hr) as Hw.
  assert (Ho : qr_open_at t 10 (showQR w)).
  { destruct (showQR_opens w Hd Hw) as (H1 & H2 & H3 & H4). repeat split; assumption. }
  split.
  - intros k Hk. apply qr_ticks_count; [exact Ho | lia].
  - change 10%nat with (9 + 1)%nat. rewrite repeat_app.
    unfold run. rewrite fold_left_app. fold (run r (repeat (QrTick t) 9) (showQR w)).
    pose proof (qr_ticks_count r t 9 10 (showQR w) Ho ltac:(lia)) as H9.
    change (10 - Z.of_nat 9) with 1 in H9.
    exact (qrTick_expires r t _ H9).
Qed.

Lemma qr_auto_dismiss_after_ten_ticks_witness :
  let w := run Static [EventsLoaded five_items false; WsConnect] (boot full_dom IoWorks) in
  qr_open_at 1%positive 3 (run Static (repeat (QrTick 1%positive) 7) (showQR w)) /\
  qr_closed (run Static (repeat (QrTick 1%positive) 10) (showQR w)).
Proof.
  intros w.
  assert (Hr : reachable Static w).
  { exists full_dom, IoWorks, [EventsLoaded five_items false; WsConnect]. reflexivity. }
  destruct (qr_auto_dismiss_after_ten_ticks Static w Hr eq_refl) as (Hk & Hc & _).
  split; [exact (Hk 7%nat ltac:(lia)) | exact Hc].
Defined.

(** ** Keyboard, mouse and touch *)

(** X2. While an overlay is shown the keyboard only closes it: every key
    but Escape leaves the world as it is.  With both overlays shown, Escape
    closes the QR overlay and leaves the Detail panel open; a second Escape
    closes the Detail panel. *)
Theorem keys_under_overlay :
  forall (r : Revision) (w : World),
    state.showQR (st w) = true \/ state.showDetail (st w) = true ->
    (forall k : Key, k <> Escape -> step r w (KeyDown k) = w) /\
    (state.showQR (st w) = true -> state.showDetail (st w) = true ->
     let w1 := step r w (KeyDown Escape) in
     let w2 := step r w1 (KeyDown Escape) in
     state.showQR (st w1) = false /\ state.showDetail (st w1) = true /\
     state.showQR (st w2) = false /\ state.showDetail (st w2) = false).
Proof.
  intros r w Ho. split.
  - intros k Hk. simpl. unfold onKeyDown.
    destruct (state.showQR (st w)) eqn:Hq.
    + destruct k; trivial. contradiction.
    + destruct Ho as [Ho|Ho]; [discriminate|]. rewrite Ho.
      destruct k; trivial. contradiction.
  - intros Hq Hd w1 w2.
    assert (E1 : w1 = hideQR w) by (subst w1; simpl; unfold onKeyDown; now rewrite Hq).
    assert (Q1 : state.showQR (st w1) = false).
    { rewrite E1. unfold hideQR. cbv zeta. destruct (state.qrInterval _); reflexivity. }
    assert (D1 : state.showDetail (st w1) = true).
    { rewrite E1. unfold hideQR. cbv zeta. destruct (state.qrInterval _); exact Hd. }
    assert (E2 : w2 = hideDetail w1).
    { subst w2. simpl. unfold onKeyDown. now rewrite Q1, D1. }
    repeat split; trivial.
    + rewrite E2. unfold hideDetail. rewrite D1. exact Q1.
    + rewrite E2. unfold hideDetail. now rewrite D1.
Qed.

Lemma keys_under_overlay_witness :
  step Static capture_over_detail (KeyDown ArrowRight) = capture_over_detail /\
  state.showDetail (st (step Static capture_over_detail (KeyDown Escape))) = true.
Proof.
  assert (Hq : state.showQR (st capture_over_detail) = true) by (vm_compute; reflexivity).
  assert (Hd : state.showDetail (st capture_over_detail) = true) by (vm_compute; reflexivity).
  destruct (keys_under_overlay Static capture_over_detail (or_introl Hq)) as [H1 H2].
  split; [apply H1; discriminate | exact (proj1 (proj2 (H2 Hq Hd)))].
Defined.

(** X3. With no overlay open, Home goes to the first item and End to the
    last one (to index 0 when there are no items), whatever the index was
    before, even out of range; each sends one set_index request carrying the
    new index. *)
Theorem home_and_end_keys :
  forall (r : Revision) (w : World),
    no_overlay w ->
    let h := step r w (KeyDown Home) in
    let e := step r w (KeyDown End_) in
    state.currentIndex (st h) = 0 /\
    state.currentIndex (st e) = (if itemCount w =? 0 then 0 else itemCount w - 1) /\
    index_in_range h /\ index_in_range e /\
    browser.trace (br h) = Fetch (PostSetIndex 0) :: browser.trace (br w) /\
    browser.trace (br e) =
      Fetch (PostSetIndex (state.currentIndex (st e))) :: browser.trace (br w).
Proof.
  intros r w [Hd Hq] h e.
  assert (Eh : h = navigateTo 0 w) by (subst h; simpl; unfold onKeyDown; now rewrite Hq, Hd).
  assert (Ee : e = navigateTo (itemCount w - 1) w)
    by (subst e; simpl; unfold onKeyDown; now rewrite Hq, Hd).
  assert (Hn : 0 <= itemCount w) by (unfold itemCount; lia).
  assert (H0 : state.currentIndex (st h) = 0).
  { rewrite Eh, currentIndex_navigateTo. lia. }
  split; [exact H0|].
  split; [rewrite Ee, currentIndex_navigateTo; destruct (Z.eqb_spec (itemCount w) 0); lia|].
  split; [rewrite Eh; apply navigateTo_in_range|].
  split; [rewrite Ee; apply navigateTo_in_range|].
  split.
  - rewrite Eh. simpl. f_equal. f_equal. f_equal. unfold itemCount in Hn. lia.
  - rewrite Ee. reflexivity.
Qed.

Lemma home_and_end_keys_witness :
  state.currentIndex (st (step Static kiosk (KeyDown Home))) = 0 /\
  state.currentIndex (st (step Static kiosk (KeyDown End_))) = 4.
Proof.
  assert (Hn : no_overlay kiosk) by (split; reflexivity).
  destruct (home_and_end_keys Static kiosk Hn) as (H1 & H2 & _).
  split; [exact H1 | exact H2].
Defined.

Lemma navigateRight_index (w : World) :
  index_in_range w ->
  state.currentIndex (st (navigateRight w)) =
    (if state.currentIndex (st w) <? itemCount w - 1
     then state.currentIndex (st w) + 1 else state.currentIndex (st w)).
Proof.
  intros [H0 Hp]. unfold navigateRight.
  destruct (Z.ltb_spec (state.currentIndex (st w)) (itemCount w - 1)) as [Hlt|Hge]; trivial.
  rewrite currentIndex_navigateTo.
  assert (Hn : 0 <= itemCount w) by (unfold itemCount; lia). lia.
Qed.

Lemma navigateLeft_index (w : World) :
  index_in_range w ->
  state.currentIndex (st (navigateLeft w)) =
    (if 0 <? state.currentIndex (st w)
     then state.currentIndex (st w) - 1 else state.currentIndex (st w)).
Proof.
  intros [H0 Hp]. unfold navigateLeft.
  destruct (Z.ltb_spec 0 (state.currentIndex (st w))) as [Hlt|Hge]; trivial.
  rewrite currentIndex_navigateTo.
  assert (Hn : 0 <= itemCount w) by (unfold itemCount; lia). lia.
Qed.

(** X4. The wheel and the touch swipe are gated by the overlays and the
    nav-zone clicks are not.  With an overlay shown, a wheel or swipe event
    leaves the world as it is.  With none shown, wheel forward and a swipe to
    the left step +1, wheel backward and a swipe to the right step -1, each
    stopping at the ends.  A click on a nav zone steps the same way whether
    or not an overlay is shown. *)
Theorem pointer_navigation :
  forall (r : Revision) (w : World),
    index_in_range w ->
    let up := if state.currentIndex (st w) <? itemCount w - 1
              then state.currentIndex (st w) + 1 else state.currentIndex (st w) in
    let down := if 0 <? state.currentIndex (st w)
                then state.currentIndex (st w) - 1 else state.currentIndex (st w) in
    (state.showDetail (st w) = true \/ state.showQR (st w) = true ->
     forall f : bool, step r w (Wheel f) = w /\ step r w (Swipe f) = w) /\
    (no_overlay w ->
     state.currentIndex (st (step r w (Wheel true))) = up /\
     state.currentIndex (st (step r w (Wheel false))) = down /\
     state.currentIndex (st (step r w (Swipe false))) = up /\
     state.currentIndex (st (step r w (Swipe true))) = down) /\
    state.currentIndex (st (step r w (NavZoneClick Right))) = up /\
    state.currentIndex (st (step r w (NavZoneClick Left))) = down.
Proof.
  intros r w Hr up down. subst up down. split; [|split; [|split]].
  - intros Ho f. simpl. unfold onWheel, onSwipe.
    destruct Ho as [Ho|Ho]; rewrite Ho; [split; reflexivity|].
    rewrite orb_true_r. split; reflexivity.
  - intros [Hd Hq]. simpl. unfold onWheel, onSwipe. rewrite Hd, Hq. simpl.
    repeat split; (apply navigateRight_index || apply navigateLeft_index); exact Hr.
  - simpl. now apply navigateRight_index.
  - simpl. now apply navigateLeft_index.
Qed.

Lemma pointer_navigation_witness :
  step Static capture_over_detail (Wheel true) = capture_over_detail /\
  state.currentIndex (st (step Static capture_over_detail (NavZoneClick Right))) = 1 /\
  state.currentIndex (st (step Static kiosk (Swipe true))) = 1.
Proof.
  assert (Hc : index_in_range capture_over_detail).
  { unfold index_in_range. vm_compute. split; intros H; [discriminate | split; discriminate]. }
  destruct (pointer_navigation Static capture_over_detail Hc) as (H1 & _ & H3 & _).
  destruct (pointer_navigation Static kiosk kiosk_in_range) as (_ & H2 & _).
  split; [exact (proj1 (H1 (or_introl eq_refl) true))|].
  split; [exact H3|].
  exact (proj2 (proj2 (proj2 (H2 (conj eq_refl eq_refl))))).
Defined.

Lemma eventAt_range (w : World) (i : Z) (e : NostrEvent) :
  eventAt w i = Some e -> 0 <= i < itemCount w.
Proof.
  unfold eventAt, itemCount. destruct (Z.ltb_spec i 0) as [H|H]; [discriminate|].
  intros E. assert (Hs : nth_error (state.events (st w)) (Z.to_nat i) <> None) by congruence.
  apply nth_error_Some in Hs. lia.
Qed.

Lemma eventAt_none (w : World) (i : Z) :
  eventAt w i = None <-> i < 0 \/ itemCount w <= i.
Proof.
  unfold eventAt, itemCount. destruct (Z.ltb_spec i 0) as [H|H].
  - split; auto.
  - rewrite nth_error_None. lia.
Qed.

(** X5. A click on a card either opens the Detail panel or navigates, never
    both.  On the centred card it sets showDetail (when the panel exists),
    moves nothing and sends nothing.  On any other card it makes that card
    the current one, exactly and in range, sends one set_index request with
    its index, and leaves the overlay flags alone. *)
Theorem card_click :
  forall (r : Revision) (w : World) (i : Z) (e : NostrEvent),
    eventAt w i = Some e ->
    let w' := step r w (CardClick i) in
    (i = state.currentIndex (st w) ->
     state.showDetail (st w') = (DOM.detailPanel (dom w) || state.showDetail (st w)) /\
     state.currentIndex (st w') = i /\
     browser.trace (br w') = browser.trace (br w)) /\
    (i <> state.currentIndex (st w) ->
     state.currentIndex (st w') = i /\
     index_in_range w' /\
     state.showDetail (st w') = state.showDetail (st w) /\
     state.showQR (st w') = state.showQR (st w) /\
     browser.trace (br w') = Fetch (PostSetIndex i) :: browser.trace (br w)).
Proof.
  intros r w i e He w'. subst w'. simpl. unfold onCardClick. rewrite He.
  pose proof (eventAt_range w i e He) as Hi.
  split; intros Hc.
  - rewrite (proj2 (Z.eqb_eq _ _) Hc). unfold showDetail. simpl.
    destruct (DOM.detailPanel (dom w)); simpl; repeat split; auto.
  - rewrite (proj2 (Z.eqb_neq _ _) Hc).
    assert (Hm : Z.max 0 (Z.min i (itemCount w - 1)) = i) by lia.
    split; [rewrite currentIndex_navigateTo; exact Hm|].
    split; [apply navigateTo_in_range|].
    split; [reflexivity|]. split; [reflexivity|].
    change (browser.trace (br (navigateTo i w)))
      with (Fetch (PostSetIndex (Z.max 0 (Z.min i (itemCount w - 1)))) :: browser.trace (br w)).
    now rewrite Hm.
Qed.

Lemma card_click_witness :
  state.currentIndex (st (step Static kiosk (CardClick 4))) = 4 /\
  state.showDetail (st (step Static kiosk (CardClick 2))) = true.
Proof.
  destruct (card_click Static kiosk 4 (item "e") eq_refl) as [_ H4].
  destruct (card_click Static kiosk 2 (item "c") eq_refl) as [H2 _].
  split; [exact (proj1 (H4 ltac:(vm_compute; discriminate)))|].
  exact (proj1 (H2 eq_refl)).
Defined.

(** ** The content feed *)

(** X6. A refresh of the feed replaces the item list and never moves the
    carousel: currentIndex and the overlay flags stay as they were.  It sends
    a set_index request (for index 0) exactly when the new list is not empty
    and the index is 0.  The index is in range afterwards exactly when the
    new list still has an item at it (or the list is empty and the index 0):
    the refresh does not clamp. *)
Theorem feed_refresh_keeps_position :
  forall (evs : list NostrEvent) (ld : bool) (w : World),
    let w' := eventsLoaded evs ld w in
    state.events (st w') = evs /\
    state.loading (st w') = ld /\
    state.currentIndex (st w') = state.currentIndex (st w) /\
    state.showDetail (st w') = state.showDetail (st w) /\
    state.showQR (st w') = state.showQR (st w) /\
    browser.trace (br w') =
      (if (0 <? Z.of_nat (List.length evs)) && (state.currentIndex (st w) =? 0)
       then [Fetch (PostSetIndex 0)] else []) ++ browser.trace (br w) /\
    (index_in_range w' <->
     (evs = [] /\ state.currentIndex (st w) = 0) \/
     0 <= state.currentIndex (st w) < Z.of_nat (List.length evs)).
Proof.
  intros evs ld w w'. subst w'. unfold eventsLoaded. cbv zeta.
  set (w1 := with_st (state.set_loading ld) (with_st (state.set_events evs) w)).
  change (itemCount w1) with (Z.of_nat (List.length evs)).
  change (state.currentIndex (st w1)) with (state.currentIndex (st w)).
  assert (R : index_in_range w1 <->
              (evs = [] /\ state.currentIndex (st w) = 0) \/
              0 <= state.currentIndex (st w) < Z.of_nat (List.length evs)).
  { unfold index_in_range.
    change (itemCount w1) with (Z.of_nat (List.length evs)).
    change (state.currentIndex (st w1)) with (state.currentIndex (st w)).
    destruct evs as [|e evs]; simpl List.length.
    - split; [intros [H _]; left; split; [reflexivity | now apply H] |].
      intros [[_ H] | H]; [split; [intros _; exact H | lia] | lia].
    - split; [intros [_ H]; right; lia |].
      intros [[H _] | H]; [discriminate | split; lia]. }
  destruct ((0 <? Z.of_nat (List.length evs)) && (state.currentIndex (st w) =? 0)) eqn:E.
  - apply andb_true_iff in E. destruct E as [E1 E2].
    apply Z.ltb_lt in E1. apply Z.eqb_eq in E2.
    assert (C : state.currentIndex (st (navigateTo 0 w1)) = state.currentIndex (st w)).
    { rewrite currentIndex_navigateTo.
      change (itemCount w1) with (Z.of_nat (List.length evs)). lia. }
    split; [reflexivity|]. split; [reflexivity|]. split; [exact C|].
    split; [reflexivity|]. split; [reflexivity|]. split.
    + change (browser.trace (br (navigateTo 0 w1)))
        with (Fetch (PostSetIndex (Z.max 0 (Z.min 0 (itemCount w1 - 1))))
                :: browser.trace (br w)).
      change (itemCount w1) with (Z.of_nat (List.length evs)).
      replace (Z.max 0 (Z.min 0 (Z.of_nat (List.length evs) - 1))) with 0 by lia.
      reflexivity.
    + split; [intros _; right; lia | intros _; apply navigateTo_in_range].
  - split; [reflexivity|]. split; [reflexivity|]. split; [reflexivity|].
    split; [reflexivity|]. split; [reflexivity|]. split; [reflexivity | exact R].
Qed.

Lemma eventsLoaded_keeps (evs : list NostrEvent) (ld : bool) (w : World) :
  state.events (st (eventsLoaded evs ld w)) = evs /\
  state.currentIndex (st (eventsLoaded evs ld w)) = state.currentIndex (st w).
Proof.
  unfold eventsLoaded. cbv zeta.
  set (w1 := with_st (state.set_loading ld) (with_st (state.set_events evs) w)).
  destruct ((0 <? itemCount w1) && (state.currentIndex (st w1) =? 0)) eqn:E;
    [|split; reflexivity].
  apply andb_true_iff in E. destruct E as [E1 E2].
  apply Z.ltb_lt in E1. apply Z.eqb_eq in E2.
  split; [reflexivity|]. rewrite currentIndex_navigateTo.
  change (state.currentIndex (st w1)) with (state.currentIndex (st w)) in E2. lia.
Qed.

Lemma actionSwitch_detail_no_item (g : Gesture) (w : World) :
  action g = "detail" -> eventAt w (state.currentIndex (st w)) = None ->
  actionSwitch g w = w.
Proof.
  intros Ha He. unfold actionSwitch. rewrite Ha, He. simpl. now rewrite andb_false_r.
Qed.

(** X7. When a refresh leaves fewer items than the current index (and the
    index is not 0), the index is left past the end: there is no item at it,
    so neither the Enter key nor a detail frame opens the Detail panel, and
    navigateRight does nothing; the next navigateLeft clamps it back to the
    last item. *)
Theorem feed_shrink_leaves_index_past_end :
  forall (r : Revision) (evs : list NostrEvent) (ld : bool) (w : World),
    0 < state.currentIndex (st w) ->
    Z.of_nat (List.length evs) <= state.currentIndex (st w) ->
    let w' := step r w (EventsLoaded evs ld) in
    ~ index_in_range w' /\
    eventAt w' (state.currentIndex (st w')) = None /\
    navigateRight w' = w' /\
    (no_overlay w' -> step r w' (KeyDown Enter) = w') /\
    (forall g : Gesture,
        action g = "detail" -> state.showDetail (st w') = false ->
        state.showDetail (st (handleGesture r g w')) = false) /\
    index_in_range (navigateLeft w') /\
    state.currentIndex (st (navigateLeft w')) = Z.max 0 (Z.of_nat (List.length evs) - 1).
Proof.
  intros r evs ld w Hpos Hlen w'.
  destruct (eventsLoaded_keeps evs ld w) as (He & Hc).
  change (eventsLoaded evs ld w) with w' in He, Hc.
  assert (Hn : itemCount w' = Z.of_nat (List.length evs)) by (unfold itemCount; now rewrite He).
  assert (Hnone : eventAt w' (state.currentIndex (st w')) = None).
  { apply eventAt_none. right. rewrite Hn, Hc. exact Hlen. }
  split; [|split; [exact Hnone | split; [|split; [|split; [|split]]]]].
  - intros [H0 H]. destruct (Z.eq_dec (itemCount w') 0) as [Hz|Hz].
    + specialize (H0 Hz). lia.
    + assert (Hp : 0 < itemCount w') by lia. specialize (H Hp). lia.
  - unfold navigateRight.
    destruct (Z.ltb_spec (state.currentIndex (st w')) (itemCount w' - 1)); [lia | reflexivity].
  - intros [Hd Hq]. simpl. unfold onKeyDown. now rewrite Hq, Hd, Hnone.
  - intros g Ha Hd.
    destruct (themeStep_retheme r g w') as (lm & fd & fc & E).
    rewrite handleGesture_unfold, E.
    rewrite fistOverride_closed; unfold edgeDispatch; destruct (String.eqb _ _);
      trivial; now rewrite actionSwitch_detail_no_item.
  - unfold navigateLeft.
    destruct (Z.ltb_spec 0 (state.currentIndex (st w'))); [apply navigateTo_in_range | lia].
  - unfold navigateLeft.
    destruct (Z.ltb_spec 0 (state.currentIndex (st w'))); [|lia].
    rewrite currentIndex_navigateTo, Hn, Hc. lia.
Qed.

Lemma feed_shrink_leaves_index_past_end_witness :
  let w' := step Static kiosk (EventsLoaded [item "a"] false) in
  state.currentIndex (st w') = 2 /\
  ~ index_in_range w' /\
  state.currentIndex (st (navigateLeft w')) = 0.
Proof.
  intros w'.
  destruct (feed_shrink_leaves_index_past_end Static [item "a"] false kiosk)
    as (H1 & _ & _ & _ & _ & _ & H7).
  - reflexivity.
  - vm_compute. discriminate.
  - split; [reflexivity | split; [exact H1 | exact H7]].
Defined.

(** ** Polling loops *)

Lemma net_step_quiet (r : Revision) (w : World) (i : Input) :
  match i with
  | WsConnect | WsDisconnect | WsConnectError | PollResponse _ | PollTimeout _ => True
  | _ => netView (step r w i) = netView w
  end.
Proof.
  destruct i; simpl; trivial.
  - exact (f_equal snd (quiet_eventsLoaded evs ld w)).
  - destruct (browser.wsListening _); trivial.
    exact (f_equal snd (quiet_handleGesture r g w)).
  - destruct (hasTimer _ _); trivial. apply net_qrTick.
  - destruct (browser.captureFetches _); trivial.
    destruct success; simpl; trivial. now rewrite net_showQR.
  - apply net_onKeyDown.
  - exact (f_equal snd (quiet_onWheel forward w)).
  - exact (f_equal snd (quiet_onSwipe toRight w)).
  - exact (f_equal snd (quiet_onNavZoneClick s w)).
  - exact (f_equal snd (quiet_onCardClick index w)).
  - exact (f_equal snd (quiet_hideDetail w)).
  - destruct (DOM.qrOverlay _); trivial. apply net_hideQR.
Qed.

Lemma handleGesture_browser (r : Revision) (g : Gesture) (w : World) :
  browser.wsListening (br (handleGesture r g w)) = browser.wsListening (br w) /\
  browser.nextTimer (br (handleGesture r g w)) = browser.nextTimer (br w).
Proof.
  pose proof (offstage_handleGesture r g w) as H.
  destruct (themeStep_retheme r g w) as (lm & fd & fc & E). rewrite E in H.
  split.
  - exact (f_equal (fun x => browser.wsListening (br x)) H).
  - exact (f_equal (fun x => browser.nextTimer (br x)) H).
Qed.

(** Only [startGesturePolling] installs the socket listeners. *)
Lemma wsListening_step (r : Revision) (w : World) (i : Input) :
  browser.wsListening (br (step r w i)) = browser.wsListening (br w).
Proof.
  destruct i; simpl;
    try solve [unfold_listeners; cbv zeta; try destruct k; try destruct s;
               split_all; simpl; congruence].
  - destruct (browser.wsListening (br w)) eqn:E; [|exact E].
    unfold onGesture. now rewrite (proj1 (handleGesture_browser r g w)).
  - destruct (browser.gestureFetches (br w)); trivial.
    unfold pollDone. cbv zeta. destruct resp as [g|].
    + split_all; simpl; now rewrite (proj1 (handleGesture_browser r g _)).
    + split_all; reflexivity.
  - destruct (browser.captureFetches (br w)); trivial.
    unfold_listeners. cbv zeta. split_all; reflexivity.
  - unfold onKeyDown. destruct (state.showQR _); [|destruct (state.showDetail _)];
      destruct k; trivial; unfold_listeners; cbv zeta; split_all; reflexivity.
Qed.

Lemma single_loop_quiet (w w' : World) :
  browser.wsListening (br w') = browser.wsListening (br w) ->
  netView w' = netView w -> single_loop w -> single_loop w'.
Proof.
  unfold netView, single_loop. intros Hl H (A & B & C).
  injection H as Hu _ Hf Ht. now rewrite Hl, Hu, Hf, Ht.
Qed.

Lemma single_loop_step (r : Revision) (w : World) (i : Input) :
  single_loop w -> single_loop (step r w i).
Proof.
  intros Hw. pose proof Hw as (Hl & Hu & Hc).
  pose proof (net_step_quiet r w i) as Hq.
  pose proof (wsListening_step r w i) as Hs.
  destruct i; try exact (single_loop_quiet _ _ Hs Hq Hw); simpl; try (rewrite Hl; exact Hw).
  - destruct Hc as [[Hf Ht] | [Hf Ht]]; rewrite Hf; [|exact Hw].
    set (w1 := with_br (browser.set_gestureFetches 0) w).
    assert (Hk : browser.wsListening
                   (br (match resp with Some g => handleGesture r g w1 | None => w1 end)) = false /\
                 state.useWebSocket
                   (st (match resp with Some g => handleGesture r g w1 | None => w1 end)) = false /\
                 browser.gestureFetches
                   (br (match resp with Some g => handleGesture r g w1 | None => w1 end)) = 0%nat /\
                 browser.timeouts
                   (br (match resp with Some g => handleGesture r g w1 | None => w1 end)) = []).
    { destruct resp as [g|]; [|repeat split; assumption].
      destruct (handleGesture_keeps r g w1) as (_ & _ & _ & _ & _ & Ku & Kl & _ & Kt & Kf & _).
      rewrite Ku, Kl, Kt, Kf. repeat split; assumption. }
    destruct Hk as (K1 & K2 & K3 & K4).
    unfold pollDone. cbv zeta. rewrite K2.
    destruct (match resp with Some g => handleGesture r g w1 | None => w1 end) as [s0 d0 b0].
    destruct b0. simpl in K1, K3, K4. subst. unfold single_loop. simpl.
    repeat split; trivial. right. split; trivial. eexists. reflexivity.
  - destruct Hc as [[Hf Ht] | [Hf [t0 Ht]]]; rewrite Ht; [exact Hw|].
    unfold hasTimer. simpl. rewrite orb_false_r.
    destruct (Pos.eqb_spec t t0) as [->|Hne]; [|exact Hw].
    clear Hq Hs Hw. destruct w as [s0 d0 b0]. destruct b0. simpl in Hl, Hu, Hf, Ht. subst.
    unfold poll, single_loop. simpl. rewrite Hu. simpl. rewrite Pos.eqb_refl. simpl.
    repeat split; trivial. left. split; reflexivity.
Qed.

Lemma single_loop_boot (d : DOM.t) (lib : IoLib) : lib <> IoWorks -> single_loop (boot d lib).
Proof.
  intros H. destruct lib; [| |contradiction]; repeat split; left; split; reflexivity.
Qed.

Lemma single_loop_run (r : Revision) (ins : list Input) :
  forall w, single_loop w -> single_loop (run r ins w).
Proof.
  induction ins as [|i ins IH]; intros w Hw; simpl; [exact Hw|].
  apply IH. now apply single_loop_step.
Qed.

(** X8. Without a working socket library the script runs exactly one polling
    loop for ever: after any inputs either its one request is in flight or
    its one timer is pending, never both and never two requests; a failed
    request keeps the loop going like a successful one, and useWebSocket
    stays false.  The pending timer, when it fires, sends the next request. *)
Theorem polling_without_socket_is_one_loop :
  forall (r : Revision) (d : DOM.t) (lib : IoLib) (ins : list Input),
    lib <> IoWorks ->
    let w := run r ins (boot d lib) in
    state.useWebSocket (st w) = false /\
    loops w = 1%nat /\
    (browser.gestureFetches (br w) <= 1)%nat /\
    (browser.gestureFetches (br w) = 0%nat ->
     exists t, browser.timeouts (br w) = [t] /\
               polls (step r w (PollTimeout t)) = S (polls w) /\
               browser.gestureFetches (br (step r w (PollTimeout t))) = 1%nat) /\
    (browser.gestureFetches (br w) = 1%nat ->
     forall resp, browser.gestureFetches (br (step r w (PollResponse resp))) = 0%nat /\
                  polls (step r w (PollResponse resp)) = polls w /\
                  List.length (browser.timeouts (br (step r w (PollResponse resp)))) = 1%nat).
Proof.
  intros r d lib ins Hlib w.
  assert (Hw : single_loop w) by (apply single_loop_run, single_loop_boot; exact Hlib).
  pose proof Hw as (Hl & Hu & Hc).
  split; [exact Hu|]. split; [|split; [|split]].
  - unfold loops. destruct Hc as [[Hf Ht] | [Hf [t Ht]]]; now rewrite Hf, Ht.
  - destruct Hc as [[Hf Ht] | [Hf [t Ht]]]; rewrite Hf; lia.
  - intros H0. destruct Hc as [[Hf Ht] | [Hf [t Ht]]]; [congruence|].
    exists t. split; [exact Ht|]. simpl. rewrite Ht, hasTimer_self.
    set (w1 := with_br _ w).
    assert (Hu1 : state.useWebSocket (st w1) = false) by exact Hu.
    split.
    + rewrite (proj2 (poll_flag w1) Hu1). reflexivity.
    + unfold poll. rewrite Hu1. simpl. now rewrite Hf.
  - intros H1 resp.
    pose proof (single_loop_step r w (PollResponse resp) Hw) as (_ & _ & Hc').
    assert (Hp : polls (step r w (PollResponse resp)) = polls w).
    { simpl. rewrite H1. now rewrite (proj1 (pollDone_polls r resp _)). }
    assert (Hf' : browser.gestureFetches (br (step r w (PollResponse resp))) = 0%nat).
    { simpl. rewrite H1. unfold pollDone. cbv zeta.
      destruct resp as [g|]; split_all; simpl; trivial;
        now rewrite (proj1 (proj2 (proj2 (proj2 (proj2 (proj2 (proj2 (proj2 (proj2 (proj2
              (handleGesture_keeps r g _))))))))))). }
    split; [exact Hf'|]. split; [exact Hp|].
    destruct Hc' as [[Hf2 _] | [_ [t Ht]]]; [congruence | now rewrite Ht].
Qed.

Lemma polling_without_socket_is_one_loop_witness :
  let w := run Static [PollResponse None; KeyDown ArrowRight; PollTimeout 1%positive;
                       PollResponse (Some (frame "nav_left"))]
             (boot full_dom IoMissing) in
  loops w = 1%nat /\ (browser.gestureFetches (br w) <= 1)%nat.
Proof.
  intros w.
  destruct (polling_without_socket_is_one_loop Static full_dom IoMissing
              [PollResponse None; KeyDown ArrowRight; PollTimeout 1%positive;
               PollResponse (Some (frame "nav_left"))]
              ltac:(discriminate)) as (_ & H1 & H2 & _).
  split; [exact H1 | exact H2].
Defined.

(** ** Loops left over by a reconnect *)

Lemma dropTimer_keeps (t : TimerId) (l : list TimerId) :
  NoDup l -> NoDup (dropTimer t l) /\ (forall P, Forall P l -> Forall P (dropTimer t l)).
Proof.
  intros H. split.
  - unfold dropTimer. now apply NoDup_filter.
  - intros P HP. unfold dropTimer. apply Forall_forall. intros x Hx.
    apply filter_In in Hx. destruct Hx as [Hx _].
    rewrite Forall_forall in HP. now apply HP.
Qed.

Lemma dropTimer_one (t : TimerId) (l : list TimerId) :
  NoDup l -> hasTimer t l = true -> S (List.length (dropTimer t l)) = List.length l.
Proof.
  induction l as [|x l IH]; intros Hn Hh; [discriminate|].
  inversion Hn as [|? ? Hx Hl]; subst. unfold hasTimer in Hh. simpl in Hh. simpl.
  destruct (Pos.eqb_spec x t) as [->|Hne]; simpl.
  - f_equal. unfold dropTimer. clear IH Hh Hn Hl. induction l as [|y l IH]; trivial.
    simpl. destruct (Pos.eqb_spec y t) as [->|Hy]; simpl.
    + exfalso. apply Hx. now left.
    + f_equal. apply IH. intros H. apply Hx. now right.
  - f_equal. apply IH; trivial.
    destruct (Pos.eqb_spec t x) as [->|_]; [contradiction | exact Hh].
Qed.

Lemma fresh_succ (l : list TimerId) (n : TimerId) :
  Forall (fun t => (t < n)%positive) l -> Forall (fun t => (t < Pos.succ n)%positive) l.
Proof. apply Forall_impl. intros t H. lia. Qed.

Lemma fresh_not_in (l : list TimerId) (n : TimerId) :
  Forall (fun t => (t < n)%positive) l -> ~ In n l.
Proof. intros H Hin. rewrite Forall_forall in H. specialize (H n Hin). lia. Qed.

(** How one turn of the event loop can change the pending timeouts and the
    next handle. *)
Lemma timeouts_step (r : Revision) (w : World) (i : Input) :
  let l := browser.timeouts (br w) in
  let n := browser.nextTimer (br w) in
  let l' := browser.timeouts (br (step r w i)) in
  let n' := browser.nextTimer (br (step r w i)) in
  (l' = l /\ (n' = n \/ n' = Pos.succ n)) \/
  (l' = n :: l /\ n' = Pos.succ n) \/
  (exists t, l' = dropTimer t l /\ n' = n).
Proof.
  cbv zeta.
  assert (G : forall g w0,
             browser.timeouts (br (handleGesture r g w0)) = browser.timeouts (br w0) /\
             browser.nextTimer (br (handleGesture r g w0)) = browser.nextTimer (br w0)).
  { intros g w0. split; [|apply handleGesture_browser].
    now destruct (handleGesture_keeps r g w0) as (_ & _ & _ & _ & _ & _ & _ & _ & Kt & _). }
  destruct i; simpl;
    try solve [left; unfold_listeners; cbv zeta; try destruct k; try destruct s;
               split_all; simpl; auto].
  - left. destruct (browser.wsListening _); [|auto].
    unfold onGesture. destruct (G g w) as [-> ->]. auto.
  - destruct (browser.gestureFetches (br w)) as [|m]; [left; auto|].
    unfold pollDone. cbv zeta.
    set (w1 := with_br (browser.set_gestureFetches m) w).
    assert (K : browser.timeouts
                  (br (match resp with Some g => handleGesture r g w1 | None => w1 end)) =
                  browser.timeouts (br w) /\
                browser.nextTimer
                  (br (match resp with Some g => handleGesture r g w1 | None => w1 end)) =
                  browser.nextTimer (br w)).
    { destruct resp as [g|]; [apply (G g w1) | split; reflexivity]. }
    destruct K as [K1 K2]. destruct (negb _).
    + right. left. simpl. now rewrite K1, K2.
    + left. rewrite K1, K2. auto.
  - destruct (hasTimer _ _); [|left; auto].
    right. right. exists t. unfold poll. split_all; simpl; auto.
  - left. destruct (browser.captureFetches (br w)); [auto|].
    unfold_listeners. cbv zeta. split_all; simpl; auto.
  - left. unfold onKeyDown. destruct (state.showQR _); [|destruct (state.showDetail _)];
      destruct k; auto; unfold_listeners; cbv zeta; split_all; simpl; auto.
Qed.

Lemma timers_fresh_step (r : Revision) (w : World) (i : Input) :
  timers_fresh w -> timers_fresh (step r w i).
Proof.
  intros [Hn Hf]. unfold timers_fresh.
  destruct (timeouts_step r w i) as [[-> [-> | ->]] | [[-> ->] | [t [-> ->]]]].
  - split; assumption.
  - split; [assumption | now apply fresh_succ].
  - split.
    + constructor; [now apply fresh_not_in | assumption].
    + constructor; [lia | now apply fresh_succ].
  - destruct (dropTimer_keeps t _ Hn) as [H1 H2]. split; [exact H1 | now apply H2].
Qed.

Lemma timers_fresh_reachable (r : Revision) (w : World) : reachable r w -> timers_fresh w.
Proof.
  intros (d & lib & ins & ->).
  assert (H0 : timers_fresh (boot d lib)).
  { destruct lib; split; simpl; constructor. }
  generalize dependent (boot d lib). induction ins as [|i ins IH]; intros w Hw; simpl.
  - exact Hw.
  - apply IH. now apply timers_fresh_step.
Qed.

(** X9. Every disconnect or connect error of the socket starts one more
    polling loop, and while useWebSocket is false no loop ever ends: a
    response schedules a timer, a timer sends a request, nothing else touches
    them.  A loop whose timer was still pending when the socket came back
    therefore resumes beside the loop the next drop starts, and their
    requests overlap. *)
Theorem socket_drop_adds_a_loop :
  forall (r : Revision) (w : World),
    reachable r w ->
    (browser.wsListening (br w) = true ->
     forall i : Input, drops_socket i = true ->
       loops (step r w i) = S (loops w) /\
       state.useWebSocket (st (step r w i)) = false) /\
    (state.useWebSocket (st w) = false ->
     forall i : Input, drops_socket i = false ->
       loops (step r w i) = loops w).
Proof.
  intros r w Hr. pose proof (timers_fresh_reachable r w Hr) as [Hn _]. split.
  - intros Hl i Hi. destruct i; try discriminate; simpl; rewrite Hl.
    + unfold onDisconnect, startPollingFallback, poll. simpl. split; reflexivity.
    + unfold onConnectError, startPollingFallback, poll. cbv zeta.
      destruct (state.socket _); simpl; split; reflexivity.
  - intros Hu i Hi.
    assert (V : forall w', netView w' = netView w -> loops w' = loops w).
    { unfold netView, loops. intros w' H. injection H as _ _ Hf Ht. now rewrite Hf, Ht. }
    pose proof (net_step_quiet r w i) as Hq.
    destruct i; try discriminate; try exact (V _ Hq); simpl.
    + destruct (browser.wsListening _); reflexivity.
    + destruct (browser.gestureFetches (br w)) as [|m] eqn:Hf; [reflexivity|].
      set (w1 := with_br (browser.set_gestureFetches m) w).
      assert (K : netView (match resp with Some g => handleGesture r g w1 | None => w1 end) =
                  netView w1).
      { destruct resp as [g|]; [|reflexivity]. exact (f_equal snd (quiet_handleGesture r g w1)). }
      unfold pollDone. cbv zeta.
      destruct (match resp with Some g => handleGesture r g w1 | None => w1 end) as [s0 d0 b0].
      destruct b0. unfold netView in K. simpl in K. injection K as K1 _ K3 K4.
      simpl. rewrite K1, Hu. unfold loops. simpl. rewrite K3, K4, Hf. lia.
    + destruct (hasTimer t (browser.timeouts (br w))) eqn:Hh; [|reflexivity].
      pose proof (dropTimer_one t _ Hn Hh) as Hd.
      unfold poll, loops. simpl. rewrite Hu. simpl. lia.
Qed.

Lemma socket_drop_adds_a_loop_witness :
  browser.gestureFetches (br two_loops) = 2%nat /\
  loops (step Static two_loops WsDisconnect) = 3%nat /\
  loops (step Static two_loops (PollResponse None)) = 2%nat.
Proof.
  assert (Hr : reachable Static two_loops).
  { exists full_dom, IoWorks.
    exists [WsConnect; WsDisconnect; PollResponse None; WsConnect; WsDisconnect;
            PollTimeout 1%positive].
    reflexivity. }
  destruct (socket_drop_adds_a_loop Static two_loops Hr) as [H1 H2].
  split; [vm_compute; reflexivity|]. split.
  - exact (proj1 (H1 ltac:(vm_compute; reflexivity) WsDisconnect eq_refl)).
  - exact (H2 ltac:(vm_compute; reflexivity) (PollResponse None) eq_refl).
Defined.

(** * Navigation dots *)

Lemma dotStep_pos (n : Z) : 0 <= n -> 1 <= dotStep n /\ n <= maxDots * dotStep n.
Proof.
  intros Hn. unfold dotStep, maxDots, ceilDiv.
  destruct (Z.ltb_spec 15 n) as [H|H]; [|lia].
  pose proof (Z.div_mod (n + 15 - 1) 15 ltac:(lia)) as Hd.
  pose proof (Z.mod_pos_bound (n + 15 - 1) 15 ltac:(lia)) as Hm. lia.
Qed.

(** The dots of the loop are the multiples of the stride below the count. *)
Lemma dotsFrom_nth (n s ci : Z) (fuel : nat) :
  0 < s ->
  forall (i : Z) (k : nat),
    n - i <= Z.of_nat fuel ->
    nth_error (dotsFrom fuel i n s ci) k =
      if i + Z.of_nat k * s <? n
      then Some (mkDot (i + Z.of_nat k * s) (Z.abs (i + Z.of_nat k * s - ci) <? s))
      else None.
Proof.
  intros Hs. induction fuel as [|fuel IH]; intros i k Hf.
  - simpl. destruct (Z.ltb_spec (i + Z.of_nat k * s) n) as [H|H]; [nia | now destruct k].
  - simpl. destruct (Z.ltb_spec i n) as [Hi|Hi].
    + destruct k as [|k]; simpl nth_error.
      * rewrite Z.add_0_r. now rewrite (proj2 (Z.ltb_lt _ _) Hi).
      * rewrite IH by lia.
        replace (i + s + Z.of_nat k * s) with (i + Z.of_nat (S k) * s) by lia.
        reflexivity.
    + destruct (Z.ltb_spec (i + Z.of_nat k * s) n) as [H|H]; [nia | now destruct k].
Qed.

Lemma renderNavDots_nth (w : World) (k : nat) :
  nth_error (renderNavDots w) k =
    let s := dotStep (itemCount w) in
    if Z.of_nat k * s <? itemCount w
    then Some (mkDot (Z.of_nat k * s) (Z.abs (Z.of_nat k * s - state.currentIndex (st w)) <? s))
    else None.
Proof.
  assert (Hn : 0 <= itemCount w) by (unfold itemCount; lia).
  destruct (dotStep_pos _ Hn) as [Hs _].
  unfold renderNavDots. cbv zeta. rewrite dotsFrom_nth by lia. reflexivity.
Qed.

Lemma redotFrom_nth (s ci : Z) (dots : list Dot) :
  forall (i : Z) (k : nat),
    nth_error (redotFrom i s ci dots) k =
      match nth_error dots k with
      | Some d => Some (mkDot (dotTarget d) (Z.abs ((i + Z.of_nat k) * s - ci) <? s))
      | None => None
      end.
Proof.
  induction dots as [|d ds IH]; intros i k.
  - now destruct k.
  - destruct k as [|k]; simpl.
    + now rewrite Z.add_0_r.
    + rewrite IH. replace (i + 1 + Z.of_nat k) with (i + Z.pos (Pos.of_succ_nat k)) by lia.
      reflexivity.
Qed.

(** X10. The dot bar never has more than 15 dots, has one dot per item up to
    15 items, and each dot leads to an item that exists: dot number k leads
    to item k * step. *)
Theorem nav_dots_are_bounded :
  forall w : World,
    let n := itemCount w in
    let dots := renderNavDots w in
    (Z.of_nat (List.length dots) <= maxDots) /\
    (n <= maxDots -> Z.of_nat (List.length dots) = n) /\
    (0 < n -> dots <> []) /\
    forall (k : nat) (d : Dot),
      nth_error dots k = Some d ->
      dotTarget d = Z.of_nat k * dotStep n /\ 0 <= dotTarget d < n.
Proof.
  intros w n dots. subst n dots.
  assert (Hn : 0 <= itemCount w) by (unfold itemCount; lia).
  destruct (dotStep_pos _ Hn) as [Hs Hm].
  assert (Hlen : forall m : nat, (m < List.length (renderNavDots w))%nat <->
                                 Z.of_nat m * dotStep (itemCount w) < itemCount w).
  { intros m. rewrite <- nth_error_Some, renderNavDots_nth. cbv zeta.
    destruct (Z.ltb_spec (Z.of_nat m * dotStep (itemCount w)) (itemCount w)); split;
      intros; try lia; try discriminate; congruence. }
  split; [|split; [|split]].
  - destruct (List.length (renderNavDots w)) as [|m] eqn:E; [unfold maxDots; lia|].
    assert (H : Z.of_nat m * dotStep (itemCount w) < itemCount w) by (apply Hlen; lia).
    unfold maxDots in *. nia.
  - intros Hle.
    assert (H1 : dotStep (itemCount w) = 1).
    { unfold dotStep. destruct (Z.ltb_spec maxDots (itemCount w)); [lia | reflexivity]. }
    rewrite H1 in Hlen.
    destruct (Z_lt_le_dec (Z.of_nat (List.length (renderNavDots w))) (itemCount w)) as [Hlt|Hge].
    + exfalso. assert (H : (List.length (renderNavDots w) < List.length (renderNavDots w))%nat)
        by (apply Hlen; lia). lia.
    + destruct (List.length (renderNavDots w)) as [|m] eqn:E; [lia|].
      assert (H : Z.of_nat m * 1 < itemCount w) by (apply Hlen; lia). lia.
  - intros Hpos He.
    assert (H : (0 < List.length (renderNavDots w))%nat) by (apply Hlen; lia).
    rewrite He in H. simpl in H. lia.
  - intros k d Hk. rewrite renderNavDots_nth in Hk. cbv zeta in Hk.
    destruct (Z.ltb_spec (Z.of_nat k * dotStep (itemCount w)) (itemCount w)) as [H|H];
      [|discriminate].
    injection Hk as <-. simpl. split; [reflexivity | nia].
Qed.

Lemma updateNavDots_nth (w w' : World) (k : nat) :
  itemCount w' = itemCount w ->
  nth_error (updateNavDots w' (renderNavDots w)) k = nth_error (renderNavDots w') k.
Proof.
  intros Hn. unfold updateNavDots. rewrite redotFrom_nth, !renderNavDots_nth. cbv zeta.
  rewrite Hn. destruct (_ <? _); reflexivity.
Qed.

(** X11. updateNavDots brings the dot bar to the state a fresh render would
    give: after any change of the current index (the items being the same),
    updating the dots rendered earlier equals rendering them anew, and a
    second update changes nothing. *)
Theorem update_dots_matches_render :
  forall w w' : World,
    state.events (st w') = state.events (st w) ->
    updateNavDots w' (renderNavDots w) = renderNavDots w' /\
    updateNavDots w' (updateNavDots w' (renderNavDots w)) = updateNavDots w' (renderNavDots w).
Proof.
  intros w w' He.
  assert (Hn : itemCount w' = itemCount w) by (unfold itemCount; now rewrite He).
  assert (H : updateNavDots w' (renderNavDots w) = renderNavDots w').
  { apply nth_error_ext. intros k. now apply updateNavDots_nth. }
  split; [exact H|]. rewrite H.
  apply nth_error_ext. intros k. now apply updateNavDots_nth.
Qed.

Lemma update_dots_matches_render_witness :
  updateNavDots (navigateTo 4 kiosk) (renderNavDots kiosk) = renderNavDots (navigateTo 4 kiosk).
Proof. exact (proj1 (update_dots_matches_render kiosk (navigateTo 4 kiosk) eq_refl)). Defined.

(** X12. With the current index in range at least one dot is lit and at
    most two neighbours are: the dot at or just before the current item is
    always lit, and the next one is lit too only when the current item lies
    strictly between the two.  Up to 15 items exactly the dot of the current
    item is lit. *)
Theorem lit_dots_surround_current :
  forall w : World,
    index_in_range w -> 0 < itemCount w ->
    let s := dotStep (itemCount w) in
    let ci := state.currentIndex (st w) in
    (exists d, nth_error (renderNavDots w) (Z.to_nat (ci / s)) = Some d /\
               dotActive d = true) /\
    (forall (k : nat) (d : Dot),
        nth_error (renderNavDots w) k = Some d -> dotActive d = true ->
        Z.of_nat k = ci / s \/ (Z.of_nat k = ci / s + 1 /\ ci mod s <> 0)) /\
    (itemCount w <= maxDots ->
     forall (k : nat) (d : Dot),
       nth_error (renderNavDots w) k = Some d -> (dotActive d = true <-> Z.of_nat k = ci)).
Proof.
  intros w [_ Hr] Hpos s ci. specialize (Hr Hpos). fold ci in Hr.
  assert (Hn : 0 <= itemCount w) by lia.
  destruct (dotStep_pos _ Hn) as [Hs _]. fold s in Hs.
  pose proof (Z.div_mod ci s ltac:(lia)) as Hdm.
  pose proof (Z.mod_pos_bound ci s ltac:(lia)) as Hmb.
  assert (Hq : 0 <= ci / s) by (apply Z.div_pos; lia).
  split; [|split].
  - rewrite renderNavDots_nth. cbv zeta. fold s ci. rewrite Z2Nat.id by exact Hq.
    destruct (Z.ltb_spec (ci / s * s) (itemCount w)) as [H|H]; [|nia].
    eexists. split; [reflexivity|]. simpl. apply Z.ltb_lt. lia.
  - intros k d Hk Ha. rewrite renderNavDots_nth in Hk. cbv zeta in Hk. fold s ci in Hk.
    destruct (Z.ltb_spec (Z.of_nat k * s) (itemCount w)) as [H|H]; [|discriminate].
    injection Hk as <-. simpl in Ha. apply Z.ltb_lt in Ha.
    assert (Hk1 : ci / s <= Z.of_nat k <= ci / s + 1) by nia.
    destruct (Z.eq_dec (Z.of_nat k) (ci / s)) as [E|E]; [now left|].
    right. split; [lia|]. intros Hz. nia.
  - intros Hle k d Hk.
    assert (H1 : s = 1).
    { unfold s, dotStep. destruct (Z.ltb_spec maxDots (itemCount w)); [lia | reflexivity]. }
    rewrite renderNavDots_nth in Hk. cbv zeta in Hk. fold s ci in Hk. rewrite H1 in Hk.
    destruct (Z.ltb_spec (Z.of_nat k * 1) (itemCount w)) as [H|H]; [|discriminate].
    injection Hk as <-. simpl. rewrite Z.ltb_lt. lia.
Qed.

Lemma lit_dots_surround_current_witness :
  exists d, nth_error (renderNavDots kiosk) 2 = Some d /\ dotActive d = true.
Proof.
  exact (proj1 (lit_dots_surround_current kiosk kiosk_in_range eq_refl)).
Defined.

(** X13. A click on a dot makes the item it stands for the current one,
    exactly, and after the update that follows it is the only lit dot. *)
Theorem dot_click_lights_that_dot :
  forall (w : World) (k : nat) (d : Dot),
    nth_error (renderNavDots w) k = Some d ->
    let w' := onDotClick d w in
    state.currentIndex (st w') = dotTarget d /\
    index_in_range w' /\
    forall (j : nat) (d' : Dot),
      nth_error (updateNavDots w' (renderNavDots w)) j = Some d' ->
      (dotActive d' = true <-> j = k).
Proof.
  intros w k d Hk w'.
  assert (Hn : 0 <= itemCount w) by (unfold itemCount; lia).
  destruct (dotStep_pos _ Hn) as [Hs _].
  assert (Ht : dotTarget d = Z.of_nat k * dotStep (itemCount w) /\
               0 <= dotTarget d < itemCount w).
  { rewrite renderNavDots_nth in Hk. cbv zeta in Hk.
    destruct (Z.ltb_spec (Z.of_nat k * dotStep (itemCount w)) (itemCount w)) as [H|H];
      [|discriminate].
    injection Hk as <-. simpl. split; [reflexivity | nia]. }
  destruct Ht as [Hd Hr].
  assert (Hc : state.currentIndex (st w') = dotTarget d).
  { subst w'. unfold onDotClick. rewrite currentIndex_navigateTo. lia. }
  split; [exact Hc|]. split; [apply navigateTo_in_range|].
  intros j d' Hj.
  rewrite (updateNavDots_nth w w' j eq_refl) in Hj.
  rewrite renderNavDots_nth in Hj. cbv zeta in Hj.
  change (itemCount w') with (itemCount w) in Hj. rewrite Hc, Hd in Hj.
  destruct (Z.ltb_spec (Z.of_nat j * dotStep (itemCount w)) (itemCount w)) as [H|H];
    [|discriminate].
  injection Hj as <-. simpl. rewrite Z.ltb_lt. split; intros E; [|subst j; lia].
  assert (Z.of_nat j = Z.of_nat k) by nia. lia.
Qed.

Lemma dot_click_lights_that_dot_witness :
  state.currentIndex (st (onDotClick (mkDot 4 false) kiosk)) = 4.
Proof.
  exact (proj1 (dot_click_lights_that_dot kiosk 4 (mkDot 4 false) eq_refl)).
Defined.

(** * Card positions *)

Lemma updateCardsFrom_nth (ci : Z) (cards : list Card) :
  forall (i : Z) (k : nat),
    nth_error (updateCardsFrom i ci cards) k =
      option_map (updateCard ci (i + Z.of_nat k)) (nth_error cards k).
Proof.
  induction cards as [|c cs IH]; intros i k.
  - now destruct k.
  - destruct k as [|k]; simpl.
    + now rewrite Z.add_0_r.
    + rewrite IH. replace (i + 1 + Z.of_nat k) with (i + Z.pos (Pos.of_succ_nat k)) by lia.
      reflexivity.
Qed.

Lemma updateCarouselPositions_nth (w : World) (cards : list Card) (k : nat) :
  nth_error (updateCarouselPositions w cards) k =
    option_map (updateCard (state.currentIndex (st w)) (Z.of_nat k)) (nth_error cards k).
Proof. unfold updateCarouselPositions. now rewrite updateCardsFrom_nth. Qed.

(** X14. After updateCarouselPositions, whatever the cards looked like
    before: a card is clickable exactly when it is at most three places from
    the current index, and hidden exactly when it is not; a clickable card is
    marked active exactly when it is the current one; its z-index is 5 minus
    its distance, so between 2 and 5 and highest for the current card; and
    cards at mirrored places get mirrored shifts and rotations. *)
Theorem card_positions_after_update :
  forall (w : World) (cards : list Card) (k : nat) (c : Card),
    nth_error (updateCarouselPositions w cards) k = Some c ->
    let d := Z.of_nat k - state.currentIndex (st w) in
    (clickable c = true <-> Z.abs d <= 3) /\
    hidden c = negb (clickable c) /\
    (clickable c = true ->
     (cardActive c = true <-> Z.of_nat k = state.currentIndex (st w)) /\
     zIndex c = Some (5 - Z.abs d) /\
     translateX c = 350 * d /\ translateZ c = -100 * Z.abs d /\ rotateY c = -30 * d) /\
    (forall (k' : nat) (c' : Card),
        nth_error (updateCarouselPositions w cards) k' = Some c' ->
        Z.of_nat k' - state.currentIndex (st w) = - d ->
        clickable c' = clickable c /\
        (clickable c = true ->
         translateX c' = - translateX c /\ rotateY c' = - rotateY c /\
         translateZ c' = translateZ c /\ zIndex c' = zIndex c)).
Proof.
  intros w cards k c Hk d.
  rewrite updateCarouselPositions_nth in Hk.
  destruct (nth_error cards k) as [c0|]; [|discriminate].
  injection Hk as <-. unfold updateCard. cbv zeta. fold d.
  change (MAX_VISIBLE_CARDS / 2 + 1) with 3. unfold MAX_VISIBLE_CARDS.
  assert (Hkk : forall k' c', nth_error (updateCarouselPositions w cards) k' = Some c' ->
                 Z.of_nat k' - state.currentIndex (st w) = - d ->
                 exists c1, c' = if 3 <? Z.abs d
                                 then mkCard true false (translateX c1) (translateZ c1)
                                        (rotateY c1) (zIndex c1) (cardActive c1)
                                 else mkCard false true (- d * 350) (- Z.abs d * 100)
                                        (- d * -30) (Some (5 - Z.abs d))
                                        (Z.of_nat k' =? state.currentIndex (st w))).
  { intros k' c' Hk' Hd'. rewrite updateCarouselPositions_nth in Hk'.
    destruct (nth_error cards k') as [c1|]; [|discriminate].
    injection Hk' as <-. exists c1. unfold updateCard. cbv zeta. rewrite Hd'.
    change (MAX_VISIBLE_CARDS / 2 + 1) with 3. unfold MAX_VISIBLE_CARDS.
    now rewrite Z.abs_opp. }
  destruct (Z.ltb_spec 3 (Z.abs d)) as [Hfar|Hnear];
    cbn [clickable hidden cardActive zIndex translateX translateZ rotateY negb].
  - split; [split; [discriminate | lia]|]. split; [reflexivity|].
    split; [discriminate|].
    intros k' c' Hk' Hd'. destruct (Hkk k' c' Hk' Hd') as [c1 ->].
    split; [reflexivity | discriminate].
  - split; [split; [intros _; exact Hnear | reflexivity]|]. split; [reflexivity|].
    split.
    + intros _. split; [rewrite Z.eqb_eq; reflexivity|].
      split; [reflexivity|]. unfold d. repeat split; lia.
    + intros k' c' Hk' Hd'. destruct (Hkk k' c' Hk' Hd') as [c1 ->].
      split; [reflexivity|]. intros _.
      cbn [clickable hidden cardActive zIndex translateX translateZ rotateY]. unfold d.
      split; [lia|]. split; [lia|]. split; reflexivity.
Qed.

Lemma card_positions_after_update_witness :
  let c := nth 4 (renderCarousel kiosk) freshCard in
  clickable c = true /\ zIndex c = Some (5 - Z.abs (4 - state.currentIndex (st kiosk))).
Proof.
  intros c.
  destruct (card_positions_after_update kiosk (map (fun _ => freshCard) five_items) 4 c
              eq_refl) as (H1 & _ & H3 & _).
  assert (Hcl : clickable c = true) by (apply H1; vm_compute; discriminate).
  split; [exact Hcl | exact (proj1 (proj2 (H3 Hcl)))].
Defined.

Lemma renderCarousel_nth (w : World) (k : nat) (c : Card) :
  nth_error (renderCarousel w) k = Some c ->
  (cardActive c = true <-> Z.of_nat k = state.currentIndex (st w)).
Proof.
  unfold renderCarousel. rewrite updateCarouselPositions_nth, nth_error_map.
  destruct (nth_error (state.events (st w)) k); [|discriminate].
  intros [= <-]. unfold updateCard. cbv zeta.
  change (MAX_VISIBLE_CARDS / 2 + 1) with 3.
  destruct (Z.ltb_spec 3 (Z.abs (Z.of_nat k - state.currentIndex (st w))));
    cbn [cardActive freshCard].
  - split; [discriminate | lia].
  - apply Z.eqb_eq.
Qed.

(** X15. Cards rendered at one index and then moved by navigateTo: the card
    of the new index is marked active, and the card of the old index keeps
    its active mark exactly when the jump is longer than three places, because
    updateCarouselPositions hides such a card without touching its class.  No
    other card is active. *)
Theorem active_mark_after_jump :
  forall (w : World) (i : Z) (k : nat) (c : Card),
    nth_error (updateCarouselPositions (navigateTo i w) (renderCarousel w)) k = Some c ->
    let old := state.currentIndex (st w) in
    let new := state.currentIndex (st (navigateTo i w)) in
    (cardActive c = true <->
     Z.of_nat k = new \/ (Z.of_nat k = old /\ 3 < Z.abs (new - old))) /\
    (Z.of_nat k = old -> 3 < Z.abs (new - old) -> hidden c = true /\ clickable c = false).
Proof.
  intros w i k c Hk old new.
  rewrite updateCarouselPositions_nth in Hk. fold new in Hk.
  destruct (nth_error (renderCarousel w) k) as [c0|] eqn:H0; [|discriminate].
  apply renderCarousel_nth in H0. fold old in H0.
  injection Hk as <-. unfold updateCard. cbv zeta.
  change (MAX_VISIBLE_CARDS / 2 + 1) with 3.
  destruct (Z.ltb_spec 3 (Z.abs (Z.of_nat k - new))) as [Hfar|Hnear];
    cbn [cardActive hidden clickable].
  - split; [|intros _ _; split; reflexivity].
    rewrite H0. clearbody old new. split; [intros E; right; split; [exact E | lia] | lia].
  - clearbody old new. split; [|lia]. rewrite Z.eqb_eq. lia.
Qed.

Lemma active_mark_after_jump_witness :
  let w := navigateTo 4 kiosk in
  let cards := updateCarouselPositions (navigateTo 0 w) (renderCarousel w) in
  let c := nth 4 cards freshCard in
  cardActive c = true /\ hidden c = true /\ clickable c = false /\
  cardActive (nth 0 cards freshCard) = true.
Proof.
  intros w cards c.
  destruct (active_mark_after_jump w 0 4 c eq_refl) as [Ha Hh].
  destruct (active_mark_after_jump w 0 0 (nth 0 cards freshCard) eq_refl) as [Hb _].
  assert (Hj : 3 < Z.abs (state.currentIndex (st (navigateTo 0 w)) - state.currentIndex (st w)))
    by (vm_compute; reflexivity).
  split; [apply Ha; right; split; [reflexivity | exact Hj]|].
  split; [exact (proj1 (Hh eq_refl Hj))|].
  split; [exact (proj2 (Hh eq_refl Hj))|].
  apply Hb. left. reflexivity.
Defined.

(** * Card and panel texts *)

Lemma truthy_spec (s : string) : truthy s = true <-> s <> EmptyString.
Proof.
  unfold truthy. rewrite negb_true_iff. destruct (String.eqb_spec s EmptyString); split;
    congruence.
Qed.

Lemma substring_empty (n : nat) (s : string) :
  String.substring 0 (S n) s = EmptyString <-> s = EmptyString.
Proof. destruct s; simpl; split; congruence. Qed.

Lemma substring_length (s : string) :
  forall n : nat, (String.length (String.substring 0 n s) <= n)%nat.
Proof.
  induction s as [|a s IH]; intros [|n]; simpl; try lia.
  specialize (IH n). lia.
Qed.

Lemma substring_prefix (s : string) :
  forall n : nat, String.prefix (String.substring 0 n s) s = true.
Proof.
  induction s as [|a s IH]; intros [|n]; simpl; try reflexivity.
  rewrite IH. now destruct (Ascii.ascii_dec a a).
Qed.

(** X16. The author label is never empty.  When the profile gives no name,
    the card label is an at sign followed by the short author id used for the
    avatar, so it has between two and nine characters; and the short id is
    the word anon exactly for an item without public key, otherwise a prefix
    of the key. *)
Theorem author_label_shape :
  forall (p : option Profile) (e : NostrEvent),
    displayName p e <> EmptyString /\
    authorShort e <> EmptyString /\
    (display_name (profileOf p) = EmptyString -> name (profileOf p) = EmptyString ->
     displayName p e = ("@" ++ authorShort e)%string /\
     (2 <= String.length (displayName p e) <= 9)%nat) /\
    (ev_pubkey e = EmptyString -> authorShort e = "anon" /\ pubkeyShort e = "Unknown") /\
    (ev_pubkey e <> EmptyString ->
     String.prefix (authorShort e) (ev_pubkey e) = true /\
     pubkeyShort e = (String.substring 0 16 (ev_pubkey e) ++ "...")%string).
Proof.
  intros p e.
  assert (Hs : authorShort e <> EmptyString).
  { unfold authorShort. destruct (truthy (ev_pubkey e)) eqn:E; [|discriminate].
    apply truthy_spec in E. now rewrite substring_empty. }
  assert (Hd : displayName p e = ("@" ++ authorShort e)%string \/
               (displayName p e <> EmptyString /\
                (truthy (display_name (profileOf p)) = true \/
                 truthy (name (profileOf p)) = true))).
  { unfold displayName, authorShort. cbv zeta.
    destruct (truthy (display_name (profileOf p))) eqn:E1.
    - right. split; [now apply truthy_spec | now left].
    - destruct (truthy (name (profileOf p))) eqn:E2.
      + right. split; [now apply truthy_spec | now right].
      + left. f_equal.
        destruct (truthy (ev_pubkey e)) eqn:E3.
        * apply truthy_spec in E3.
          assert (E4 : truthy (String.substring 0 8 (ev_pubkey e)) = true)
            by (apply truthy_spec; now rewrite substring_empty).
          now rewrite E4.
        * assert (E4 : truthy (String.substring 0 8 (ev_pubkey e)) = false).
          { destruct (truthy (String.substring 0 8 (ev_pubkey e))) eqn:E5; [|reflexivity].
            apply truthy_spec in E5. rewrite substring_empty in E5.
            apply truthy_spec in E5. congruence. }
          now rewrite E4. }
  split; [destruct Hd as [-> | [H _]]; [discriminate | exact H]|].
  split; [exact Hs|]. split; [|split].
  - intros H1 H2. destruct Hd as [Hd | [_ [H | H]]].
    + split; [exact Hd|]. rewrite Hd. cbn [String.append String.length].
      unfold authorShort in *. destruct (truthy (ev_pubkey e)).
      * pose proof (substring_length (ev_pubkey e) 8).
        destruct (String.substring 0 8 (ev_pubkey e)); [congruence | simpl in *; lia].
      * simpl. lia.
    + apply truthy_spec in H. congruence.
    + apply truthy_spec in H. congruence.
  - intros H. unfold authorShort, pubkeyShort. rewrite H. split; reflexivity.
  - intros H. apply truthy_spec in H. unfold authorShort, pubkeyShort. rewrite H.
    split; [|reflexivity]. apply substring_prefix.
Qed.

(** X17. formatTimeAgo picks the largest unit that fits, so the number it
    prints is between 1 and 59 minutes, 1 and 23 hours, or 1 and 6 days; a
    time stamp of zero gives Unknown, a time stamp less than a minute old or
    in the future gives just now, and the locale date is used only from one
    week on. *)
Theorem time_ago_units :
  forall (toLocaleDateString : Z -> string) (now timestamp : Z),
    let diff := now - timestamp in
    let text := formatTimeAgo toLocaleDateString now timestamp in
    (timestamp = 0 -> text = "Unknown") /\
    (timestamp <> 0 ->
     (diff < 60 -> text = "just now") /\
     (60 <= diff < 3600 ->
      exists n, 1 <= n <= 59 /\ 60 * n <= diff < 60 * (n + 1) /\ text = (showZ n ++ "m ago")%string) /\
     (3600 <= diff < 86400 ->
      exists n, 1 <= n <= 23 /\ 3600 * n <= diff < 3600 * (n + 1) /\
                text = (showZ n ++ "h ago")%string) /\
     (86400 <= diff < 604800 ->
      exists n, 1 <= n <= 6 /\ 86400 * n <= diff < 86400 * (n + 1) /\
                text = (showZ n ++ "d ago")%string) /\
     (604800 <= diff -> text = toLocaleDateString (timestamp * 1000))).
Proof.
  intros loc now timestamp diff text. unfold text, formatTimeAgo. fold diff.
  clearbody diff. split.
  - intros ->. reflexivity.
  - intros H. apply Z.eqb_neq in H. rewrite H.
    split; [intros H1; apply Z.ltb_lt in H1; now rewrite H1|].
    split; [|split; [|split]].
    + intros [H1 H2].
      apply Z.ltb_ge in H1. apply Z.ltb_lt in H2. rewrite H1, H2.
      apply Z.ltb_ge in H1. apply Z.ltb_lt in H2.
      exists (diff / 60). split; [|split; [|reflexivity]].
      * pose proof (Z.div_le_lower_bound diff 60 1). pose proof (Z.div_lt_upper_bound diff 60 60).
        lia.
      * pose proof (Z.mul_div_le diff 60). pose proof (Z.mul_succ_div_gt diff 60). lia.
    + intros [H1 H2].
      assert (E0 : (diff <? 60) = false) by (apply Z.ltb_ge; lia).
      assert (E1 : (diff <? 3600) = false) by (apply Z.ltb_ge; lia).
      assert (E2 : (diff <? 86400) = true) by (apply Z.ltb_lt; lia).
      rewrite E0, E1, E2.
      exists (diff / 3600). split; [|split; [|reflexivity]].
      * pose proof (Z.div_le_lower_bound diff 3600 1).
        pose proof (Z.div_lt_upper_bound diff 3600 24). lia.
      * pose proof (Z.mul_div_le diff 3600). pose proof (Z.mul_succ_div_gt diff 3600). lia.
    + intros [H1 H2].
      assert (E0 : (diff <? 60) = false) by (apply Z.ltb_ge; lia).
      assert (E1 : (diff <? 3600) = false) by (apply Z.ltb_ge; lia).
      assert (E2 : (diff <? 86400) = false) by (apply Z.ltb_ge; lia).
      assert (E3 : (diff <? 604800) = true) by (apply Z.ltb_lt; lia).
      rewrite E0, E1, E2, E3.
      exists (diff / 86400). split; [|split; [|reflexivity]].
      * pose proof (Z.div_le_lower_bound diff 86400 1).
        pose proof (Z.div_lt_upper_bound diff 86400 7). lia.
      * pose proof (Z.mul_div_le diff 86400). pose proof (Z.mul_succ_div_gt diff 86400). lia.
    + intros H1.
      assert (E0 : (diff <? 60) = false) by (apply Z.ltb_ge; lia).
      assert (E1 : (diff <? 3600) = false) by (apply Z.ltb_ge; lia).
      assert (E2 : (diff <? 86400) = false) by (apply Z.ltb_ge; lia).
      assert (E3 : (diff <? 604800) = false) by (apply Z.ltb_ge; lia).
      now rewrite E0, E1, E2, E3.
Qed.

(** * Gesture feedback on screen *)

Lemma flashEdge_qr (g : Gesture) (w : World) (h : Hud) :
  state.showQR (st w) = true -> flashEdge g w h = h.
Proof.
  intros H. unfold flashEdge, flashSwitch. cbv zeta.
  change (state.showQR (st (with_st (state.set_lastAction (action g)) w)))
    with (state.showQR (st w)).
  rewrite H, andb_false_r. now split_ifs.
Qed.

Lemma flashEdge_timers (g : Gesture) (w : World) (h : Hud) :
  exists sides, flashTimers (flashEdge g w h) = flashTimers h ++ sides /\
                (List.length sides <= 1)%nat.
Proof.
  unfold flashEdge, flashSwitch, flashNavZone. cbv zeta.
  split_ifs; cbn [flashTimers set_flashTimers];
    first [ exists []; rewrite app_nil_r; split; [reflexivity | simpl; lia]
          | eexists; split; [reflexivity | simpl; lia] ].
Qed.

Lemma showQR_themeStep (r : Revision) (g : Gesture) (w : World) :
  state.showQR (st (themeStep r g w)) = state.showQR (st w).
Proof.
  destruct (themeStep_retheme r g w) as (lm & fd & fc & ->). reflexivity.
Qed.

Lemma Qlt_bool_spec (x y : Q) : Qlt_bool x y = true <-> (x < y)%Q.
Proof.
  unfold Qlt_bool. rewrite negb_true_iff. split; intros H.
  - apply Qnot_le_lt. intros L. apply Qle_bool_iff in L. congruence.
  - destruct (Qle_bool y x) eqn:E; [|reflexivity].
    apply Qle_bool_iff in E. exfalso. exact (Qlt_not_le _ _ H E).
Qed.

Lemma visualUpdates_fields (g : Gesture) (w : World) (h : Hud) :
  state.showQR (st w) = false ->
  let guiding := hand_detected g && negb (state.showDetail (st w)) in
  visualUpdates g w h =
    mkHud (guiding && negb (Qlt_bool (hand_x g) c0_25) && Qlt_bool c0_75 (hand_x g))
          (guiding && Qlt_bool (hand_x g) c0_25)
          (guiding && Qlt_bool c0_35 (hand_x g) && Qlt_bool (hand_x g) c0_65
           && negb (is_open_hand g))
          (is_open_hand g && negb (state.showDetail (st w)) && gt0 (open_hand_progress g))
          (is_thumbs_up g && gt0 (thumbs_up_progress g))
          (flashTimers h).
Proof.
  intros Hq. unfold visualUpdates. rewrite Hq.
  unfold showOpenHandProgress, hideOpenHandProgress, showCaptureProgress,
    hideCaptureProgress.
  destruct (hand_detected g), (state.showDetail (st w)),
    (Qlt_bool (hand_x g) c0_25), (Qlt_bool c0_75 (hand_x g)),
    (Qlt_bool c0_35 (hand_x g)), (Qlt_bool (hand_x g) c0_65),
    (is_open_hand g), (gt0 (open_hand_progress g)),
    (is_thumbs_up g), (gt0 (thumbs_up_progress g)); reflexivity.
Qed.

Lemma zones_exclusive (x : Q) :
  (Qlt_bool x c0_25 = true -> Qlt_bool c0_35 x = false) /\
  (Qlt_bool c0_75 x = true -> Qlt_bool x c0_65 = false).
Proof.
  split; intros H; apply Qlt_bool_spec in H.
  - destruct (Qlt_bool c0_35 x) eqn:E; [|reflexivity]. apply Qlt_bool_spec in E.
    assert (C : (c0_35 < c0_25)%Q) by (eapply Qlt_trans; eassumption). discriminate C.
  - destruct (Qlt_bool x c0_65) eqn:E; [|reflexivity]. apply Qlt_bool_spec in E.
    assert (C : (c0_75 < c0_65)%Q) by (eapply Qlt_trans; eassumption). discriminate C.
Qed.

(** X18. The screen after one gesture frame.  While the QR overlay is shown
    the frame leaves the zones, the hint, the rings and the flash timers as
    they were.  Otherwise the flash of the action block is overwritten in the
    same call: the right zone is lit exactly when a hand is seen left of 0.25
    with the Detail panel closed, the left zone exactly when it is seen right
    of 0.75, never both; the centre hint is shown only with both zones dark;
    with the Detail panel open, zones, hint and open-hand ring are all off;
    and at most one flash timer is added. *)
Theorem gesture_feedback_after_frame :
  forall (r : Revision) (g : Gesture) (w : World) (h : Hud),
    let w' := handleGesture r g w in
    let h' := handleGestureHud r g w h in
    (state.showQR (st w) = true -> h' = h) /\
    (state.showQR (st w) = false ->
     (navZoneRight h' = true <->
      hand_detected g = true /\ state.showDetail (st w') = false /\ (hand_x g < 1 # 4)%Q) /\
     (navZoneLeft h' = true <->
      hand_detected g = true /\ state.showDetail (st w') = false /\ (3 # 4 < hand_x g)%Q) /\
     navZoneLeft h' && navZoneRight h' = false /\
     (centerHint h' = true -> navZoneLeft h' = false /\ navZoneRight h' = false) /\
     (state.showDetail (st w') = true ->
      navZoneLeft h' = false /\ navZoneRight h' = false /\ centerHint h' = false /\
      openHandProgress h' = false) /\
     (captureProgress h' = true <->
      is_thumbs_up g = true /\ (0 < thumbs_up_progress g)%Q) /\
     exists sides, flashTimers h' = flashTimers h ++ sides /\ (List.length sides <= 1)%nat).
Proof.
  intros r g w h w' h'. subst h'. unfold handleGestureHud.
  pose proof (handleGesture_keeps r g w) as K. cbv zeta in K.
  destruct K as (_ & _ & Kq & _). fold w' in Kq.
  split.
  - intros Hq. unfold visualUpdates. fold w'. rewrite Kq, Hq.
    apply flashEdge_qr. now rewrite showQR_themeStep.
  - intros Hq.
    destruct (flashEdge_timers g (themeStep r g w) h) as (sides & Hs & Hl).
    fold w'. rewrite visualUpdates_fields by now rewrite Kq.
    cbv zeta. cbn [navZoneLeft navZoneRight centerHint openHandProgress captureProgress
                   flashTimers].
    destruct (zones_exclusive (hand_x g)) as [Z1 Z2].
    pose proof (Qlt_bool_spec (hand_x g) c0_25) as L1.
    pose proof (Qlt_bool_spec c0_75 (hand_x g)) as L2.
    pose proof (gt0_spec (thumbs_up_progress g)) as L5.
    change c0_25 with (1 # 4) in L1. change c0_75 with (3 # 4) in L2.
    split; [|split; [|split; [|split; [|split; [|split]]]]].
    + rewrite !andb_true_iff, negb_true_iff, L1. tauto.
    + rewrite !andb_true_iff, !negb_true_iff, L2. split; [tauto|].
      intros (A & B & C). repeat split; try assumption.
      destruct (Qlt_bool (hand_x g) c0_25) eqn:E; [|reflexivity].
      apply L1 in E. exfalso.
      assert (D : (3 # 4 < 1 # 4)%Q) by (eapply Qlt_trans; eassumption). discriminate D.
    + destruct (hand_detected g), (state.showDetail (st w')),
        (Qlt_bool (hand_x g) c0_25), (Qlt_bool c0_75 (hand_x g)); reflexivity.
    + rewrite !andb_true_iff. intros ((((A & B) & C) & D) & E).
      rewrite A. cbn [andb].
      destruct (Qlt_bool (hand_x g) c0_25) eqn:E1; [rewrite Z1 in C; [discriminate|reflexivity]|].
      destruct (Qlt_bool c0_75 (hand_x g)) eqn:E2; [rewrite Z2 in D; [discriminate|reflexivity]|].
      rewrite !andb_false_r. split; reflexivity.
    + intros ->. destruct (hand_detected g), (is_open_hand g); repeat split; reflexivity.
    + rewrite andb_true_iff, L5. tauto.
    + exists sides. split; [exact Hs | exact Hl].
Qed.

(** X19. updateGestureStatus computes the icon twice, for the status line
    and for the camera inset.  The two agree exactly when no hand is seen or
    the gesture name is one of thumbs_up, open_hand, swiping, fist and
    pointing; for any other name of a seen hand the status line shows the
    splayed hand while the inset shows the pointing index. *)
Theorem status_icons_agree :
  forall g : Gesture,
    let known := ["thumbs_up"; "open_hand"; "swiping"; "fist"; "pointing"] in
    (statusIcon g = pipIcon g <-> hand_detected g = false \/ In (gesture_name g) known) /\
    (statusIcon g <> pipIcon g -> statusIcon g = Splayed /\ pipIcon g = IndexUp) /\
    (hand_detected g = false -> statusIcon g = CrossMark).
Proof.
  intros g known. subst known. unfold statusIcon, pipIcon. cbv zeta.
  destruct (hand_detected g).
  - destruct (String.eqb_spec (gesture_name g) "thumbs_up") as [E1|E1].
    { rewrite E1. cbn. split; [split; [intros _; right; now left | reflexivity]|].
      split; [congruence | discriminate]. }
    destruct (String.eqb_spec (gesture_name g) "open_hand") as [E2|E2].
    { rewrite E2. cbn. split; [split; [intros _; right; right; now left | reflexivity]|].
      split; [congruence | discriminate]. }
    destruct (String.eqb_spec (gesture_name g) "swiping") as [E3|E3].
    { rewrite E3. cbn. split; [split; [intros _; right; right; right; now left | reflexivity]|].
      split; [congruence | discriminate]. }
    destruct (String.eqb_spec (gesture_name g) "fist") as [E4|E4].
    { rewrite E4. cbn.
      split; [split; [intros _; right; right; right; right; now left | reflexivity]|].
      split; [congruence | discriminate]. }
    destruct (String.eqb_spec (gesture_name g) "pointing") as [E5|E5].
    { split; [split; [intros _; right; right; right; right; right; now left | reflexivity]|].
      split; [congruence | discriminate]. }
    split; [split; [discriminate|]|split; [intros _; split; reflexivity | discriminate]].
    intros [H | H]; [discriminate|]. simpl in H.
    destruct H as [H | [H | [H | [H | [H | []]]]]]; congruence.
  - split; [split; [intros _; now left | reflexivity]|]. split; [congruence | reflexivity].
Qed.

(** * The scroll banner of the face-aware revision *)

Lemma idle_dark_stage (w w' : World) : stage w' = stage w -> idle_dark w' = idle_dark w.
Proof. unfold stage, idle_dark. now intros [= -> -> ->]. Qed.

Lemma banner_rel_stage (x : bool) (w w' : World) (b : bool) :
  stage w' = stage w -> banner_rel x (w, b) -> banner_rel x (w', b).
Proof.
  intros E. apply idle_dark_stage in E. unfold banner_rel. cbn [fst snd]. now rewrite E.
Qed.

Lemma showDetail_inv (x : bool) (e : option NostrEvent) (w : World) (b : bool) :
  banner_rel x (w, b) -> banner_rel x (showDetail e w, showDetail_banner e w b).
Proof.
  unfold showDetail, showDetail_banner.
  destruct (negb (DOM.detailPanel (dom w)) || negb (isSome e)); [trivial|].
  banner_cases x w b.
Qed.

Lemma hideDetail_inv (x : bool) (w : World) (b : bool) :
  banner_rel x (w, b) -> banner_rel x (hideDetail w, hideDetail_banner w b).
Proof.
  unfold hideDetail, hideDetail_banner. cbv zeta.
  destruct (negb (state.showDetail (st w))) eqn:E; [trivial|].
  change (state.lightMode (st (with_st (state.set_showDetail false) w)))
    with (state.lightMode (st w)).
  destruct (negb (state.lightMode (st w))) eqn:L; revert E L; banner_cases x w b.
Qed.

Lemma stage_showQR (w : World) :
  stage (showQR w) =
    if negb (DOM.qrOverlay (dom w)) then stage w
    else (state.lightMode (st w), state.showDetail (st w), true).
Proof.
  unfold showQR. destruct (negb (DOM.qrOverlay (dom w))); [reflexivity|].
  cbv zeta. cbn [with_st st state.set_qrCountdown state.set_showQR state.qrInterval].
  destruct (state.qrInterval (st w)); reflexivity.
Qed.

Lemma stage_hideQR (w : World) :
  stage (hideQR w) = (state.lightMode (st w), state.showDetail (st w), false).
Proof.
  unfold hideQR. cbv zeta. cbn [with_st st state.set_showQR state.qrInterval].
  destruct (state.qrInterval (st w)); reflexivity.
Qed.

Lemma showQR_inv (x : bool) (w : World) (b : bool) :
  banner_rel x (w, b) -> banner_rel x (showQR w, showQR_banner w b).
Proof.
  pose proof (stage_showQR w) as S. unfold showQR_banner.
  destruct (negb (DOM.qrOverlay (dom w))).
  - exact (banner_rel_stage x w _ b S).
  - injection S as S1 S2 S3. unfold banner_rel, idle_dark. cbn [fst snd]. rewrite S1, S2, S3.
    unfold updateScrollBanner. cbn [andb]. rewrite andb_false_r.
    intros _. destruct x; [reflexivity | discriminate].
Qed.

Lemma hideQR_inv (x : bool) (w : World) (b : bool) :
  banner_rel x (w, b) -> banner_rel x (hideQR w, hideQR_banner w b).
Proof.
  pose proof (stage_hideQR w) as S. injection S as S1 S2 S3.
  unfold hideQR_banner. cbv zeta.
  change (state.lightMode (st (with_st (state.set_showQR false) w)))
    with (state.lightMode (st w)).
  unfold banner_rel, idle_dark, updateScrollBanner. cbn [fst snd]. rewrite S1, S2, S3.
  cbn [st with_st state.showDetail state.showQR state.set_showQR].
  destruct x, b, (state.lightMode (st w)), (state.showDetail (st w)), (state.showQR (st w));
    cbn [negb andb]; intuition congruence.
Qed.

Lemma qrTick_inv (x : bool) (w : World) (b : bool) :
  banner_rel x (w, b) -> banner_rel x (qrTick w, qrTick_banner w b).
Proof.
  intros H. unfold qrTick, qrTick_banner. cbv zeta.
  set (w1 := with_st (state.set_qrCountdown (state.qrCountdown (st w) - 1)) w).
  assert (H1 : banner_rel x (w1, b)) by (apply (banner_rel_stage x w); [reflexivity | exact H]).
  destruct (state.qrCountdown (st w1) <=? 0); [now apply hideQR_inv | exact H1].
Qed.

Lemma stage_navigateTo (i : Z) (w : World) : stage (navigateTo i w) = stage w.
Proof. reflexivity. Qed.

Lemma stage_navigateLeft (w : World) : stage (navigateLeft w) = stage w.
Proof. unfold navigateLeft. now destruct (0 <? state.currentIndex (st w)). Qed.

Lemma stage_navigateRight (w : World) : stage (navigateRight w) = stage w.
Proof. unfold navigateRight. now destruct (state.currentIndex (st w) <? itemCount w - 1). Qed.

Lemma stage_capturePhoto (w : World) : stage (capturePhoto w) = stage w.
Proof. unfold capturePhoto. now destruct (state.showQR (st w)). Qed.

Lemma dispatch_inv (x : bool) (h : Handler) (w : World) (b : bool) :
  banner_rel x (w, b) -> banner_rel x (dispatch h w, dispatch_banner h w b).
Proof.
  intros H. unfold dispatch, dispatch_banner.
  assert (H1 : banner_rel x (emit (Dispatch h) w, b))
    by (apply (banner_rel_stage x w); [reflexivity | exact H]).
  revert H1. generalize (emit (Dispatch h) w). intros w1 H1.
  destruct h; cbn [run_handler run_handler_banner].
  - apply (banner_rel_stage x w1); [apply stage_navigateRight | exact H1].
  - apply (banner_rel_stage x w1); [apply stage_navigateLeft | exact H1].
  - now apply showDetail_inv.
  - now apply hideDetail_inv.
  - apply (banner_rel_stage x w1); [apply stage_capturePhoto | exact H1].
Qed.

Lemma actionSwitch_inv (x : bool) (g : Gesture) (w : World) (b : bool) :
  banner_rel x (w, b) -> banner_rel x (actionSwitch g w, actionSwitch_banner g w b).
Proof.
  intros H. unfold actionSwitch, actionSwitch_banner. cbv zeta.
  destruct (String.eqb (action g) "nav_left").
  { destruct (negb (state.showDetail (st w)) && negb (state.showQR (st w))); [|exact H].
    exact (dispatch_inv x H_navigateRight w b H). }
  destruct (String.eqb (action g) "nav_right").
  { destruct (negb (state.showDetail (st w)) && negb (state.showQR (st w))); [|exact H].
    exact (dispatch_inv x H_navigateLeft w b H). }
  destruct (String.eqb (action g) "detail").
  { destruct (negb (state.showQR (st w)) && isSome (eventAt w (state.currentIndex (st w))));
      [|exact H].
    now apply dispatch_inv. }
  destruct (String.eqb (action g) "detail_close"); [now apply dispatch_inv|].
  destruct (String.eqb (action g) "capture"); [|exact H].
  destruct (negb (state.showQR (st w))); [|exact H].
  exact (dispatch_inv x H_capturePhoto w b H).
Qed.

Lemma edgeDispatch_inv (x : bool) (g : Gesture) (w : World) (b : bool) :
  banner_rel x (w, b) -> banner_rel x (edgeDispatch g w, edgeDispatch_banner g w b).
Proof.
  intros H. unfold edgeDispatch, edgeDispatch_banner.
  destruct (String.eqb (action g) (state.lastAction (st w))); [exact H|].
  apply actionSwitch_inv. apply (banner_rel_stage x w); [reflexivity | exact H].
Qed.

Lemma fistOverride_inv (x : bool) (g : Gesture) (w : World) (b : bool) :
  banner_rel x (w, b) -> banner_rel x (fistOverride g w, fistOverride_banner g w b).
Proof.
  intros H. unfold fistOverride, fistOverride_banner.
  destruct (is_fist g && state.showDetail (st w)); [now apply dispatch_inv | exact H].
Qed.

Lemma updateThemeMode_inv (x : bool) (lm : bool) (tud : Q) (hd : bool) (w : World) (b : bool) :
  banner_rel x (w, b) ->
  banner_rel x (FaceId.updateThemeMode lm tud hd w, updateThemeMode_banner lm tud hd w b).
Proof.
  unfold FaceId.updateThemeMode, updateThemeMode_banner. cbv zeta.
  destruct (FaceId.effectiveLightMode lm tud hd);
    destruct (Bool.eqb _ (state.lightMode (st w))) eqn:E; revert E; banner_cases x w b.
Qed.

Lemma handleGesture_inv (x : bool) (g : Gesture) (w : World) (b : bool) :
  banner_rel x (w, b) ->
  banner_rel x (handleGesture FaceAware g w, handleGesture_banner g w b).
Proof.
  intros H. unfold handleGesture, FaceId.handleGesture, handleGesture_banner. cbv zeta.
  apply fistOverride_inv, edgeDispatch_inv, updateThemeMode_inv.
  apply (banner_rel_stage x w); [reflexivity | exact H].
Qed.

Lemma stage_pollDone_tail (w : World) :
  stage (if negb (state.useWebSocket (st w))
         then let '(t, w2) := setTimeout w in with_st (state.set_gesturePolling (Some t)) w2
         else w) = stage w.
Proof. now destruct (negb (state.useWebSocket (st w))). Qed.

Lemma stage_poll (w : World) : stage (poll w) = stage w.
Proof. unfold poll. now destruct (state.useWebSocket (st w)). Qed.

Lemma stage_startPollingFallback (w : World) : stage (startPollingFallback w) = stage w.
Proof.
  unfold startPollingFallback. destruct (state.useWebSocket (st w)); [reflexivity|].
  apply stage_poll.
Qed.

Lemma stage_eventsLoaded (evs : list NostrEvent) (ld : bool) (w : World) :
  stage (eventsLoaded evs ld w) = stage w.
Proof.
  unfold eventsLoaded. cbv zeta.
  now destruct ((0 <? itemCount _) && (state.currentIndex _ =? 0)).
Qed.

Lemma step_page_inv (x : bool) (wb : World * bool) (i : PageInput) :
  banner_rel x wb -> banner_rel x (step_page wb i).
Proof.
  destruct wb as [w b]. intros H. destruct i as [i | msgs]; cbn [step_page].
  - destruct i; cbn [step step_banner].
    + apply (banner_rel_stage x w); [apply stage_eventsLoaded | exact H].
    + destruct (browser.wsListening (br w)); [|exact H].
      apply (banner_rel_stage x w); [reflexivity | exact H].
    + destruct (browser.wsListening (br w)); [|exact H].
      now apply handleGesture_inv.
    + destruct (browser.wsListening (br w)); [|exact H].
      apply (banner_rel_stage x w); [|exact H].
      unfold onDisconnect. now rewrite stage_startPollingFallback.
    + destruct (browser.wsListening (br w)); [|exact H].
      apply (banner_rel_stage x w); [|exact H].
      unfold onConnectError. cbv zeta. rewrite stage_startPollingFallback.
      now destruct (state.socket _).
    + destruct (browser.gestureFetches (br w)) as [|n]; [exact H|].
      unfold pollDone, pollDone_banner.
      set (w0 := with_br (browser.set_gestureFetches n) w).
      assert (H0 : banner_rel x (w0, b)) by (apply (banner_rel_stage x w); [reflexivity | exact H]).
      cbv zeta. destruct resp as [g|].
      * apply (banner_rel_stage x (handleGesture FaceAware g w0));
          [apply stage_pollDone_tail | now apply handleGesture_inv].
      * apply (banner_rel_stage x w0); [apply stage_pollDone_tail | exact H0].
    + destruct (hasTimer t (browser.timeouts (br w))); [|exact H].
      apply (banner_rel_stage x w); [|exact H]. now rewrite stage_poll.
    + destruct (hasTimer t (browser.intervals (br w))); [|exact H].
      now apply qrTick_inv.
    + destruct (browser.captureFetches (br w)) as [|n]; [exact H|].
      unfold captureDone, captureDone_banner. destruct success.
      * apply showQR_inv. apply (banner_rel_stage x w); [reflexivity | exact H].
      * apply (banner_rel_stage x w); [reflexivity | exact H].
    + unfold onKeyDown, onKeyDown_banner.
      destruct (state.showQR (st w)).
      { destruct k; try exact H. now apply hideQR_inv. }
      destruct (state.showDetail (st w)).
      { destruct k; try exact H. now apply hideDetail_inv. }
      destruct k; try exact H.
      * apply (banner_rel_stage x w); [apply stage_navigateLeft | exact H].
      * apply (banner_rel_stage x w); [apply stage_navigateRight | exact H].
      * destruct (isSome (eventAt w (state.currentIndex (st w)))); [|exact H].
        now apply showDetail_inv.
    + apply (banner_rel_stage x w); [|exact H]. unfold onWheel.
      destruct (state.showDetail (st w) || state.showQR (st w)); [reflexivity|].
      destruct forward; [apply stage_navigateRight | apply stage_navigateLeft].
    + apply (banner_rel_stage x w); [|exact H]. unfold onSwipe.
      destruct (state.showDetail (st w) || state.showQR (st w)); [reflexivity|].
      destruct toRight; [apply stage_navigateLeft | apply stage_navigateRight].
    + apply (banner_rel_stage x w); [|exact H].
      destruct s; [apply stage_navigateLeft | apply stage_navigateRight].
    + unfold onCardClick, onCardClick_banner.
      destruct (eventAt w index); [|exact H].
      destruct (index =? state.currentIndex (st w)); [now apply showDetail_inv|].
      apply (banner_rel_stage x w); [apply stage_navigateTo | exact H].
    + now apply hideDetail_inv.
    + destruct (DOM.qrOverlay (dom w)); [now apply hideQR_inv | exact H].
  - unfold initScrollBanner.
    destruct (List.length msgs =? 0)%nat; [exact H|].
    revert H. banner_cases x w b.
Qed.

Lemma stage_boot (d : DOM.t) (lib : IoLib) : stage (boot d lib) = (false, false, false).
Proof. destruct lib; reflexivity. Qed.

Lemma run_page_rel (x : bool) (ins : list PageInput) :
  forall wb : World * bool, banner_rel x wb -> banner_rel x (run_page ins wb).
Proof.
  unfold run_page. induction ins as [|i ins IH]; intros wb H; [exact H|].
  cbn [fold_left]. apply IH. now apply step_page_inv.
Qed.

Lemma idle_dark_spec (w : World) :
  idle_dark w = true <->
  state.lightMode (st w) = false /\ state.showDetail (st w) = false /\
  state.showQR (st w) = false.
Proof. unfold idle_dark. rewrite !andb_true_iff, !negb_true_iff. tauto. Qed.

(** X20. In the face-aware revision the scroll banner is never visible in
    light mode, nor while the Detail panel or the QR overlay is shown:
    whatever the banner's class when the page starts, this holds after every
    sequence of events, the answer to loadConfig included. *)
Theorem banner_only_on_idle_dark_screen :
  forall (d : DOM.t) (lib : IoLib) (b0 : bool) (ins : list PageInput),
    snd (run_page ins (boot d lib, b0)) = true ->
    let w := fst (run_page ins (boot d lib, b0)) in
    state.lightMode (st w) = false /\
    state.showDetail (st w) = false /\
    state.showQR (st w) = false.
Proof.
  intros d lib b0 ins Hb w. apply idle_dark_spec.
  refine (run_page_rel false ins (boot d lib, b0) _ Hb).
  unfold banner_rel. cbn [fst snd]. intros _. apply idle_dark_spec.
  pose proof (stage_boot d lib) as S. injection S as -> -> ->. repeat split.
Qed.

Lemma banner_only_on_idle_dark_screen_witness :
  let ins := [ConfigLoaded ["UPlanet"]; Loop (EventsLoaded five_items false)] in
  snd (run_page ins (boot full_dom IoMissing, false)) = true /\
  state.lightMode (st (fst (run_page ins (boot full_dom IoMissing, false)))) = false.
Proof.
  intros ins. split; [reflexivity|].
  exact (proj1 (banner_only_on_idle_dark_screen full_dom IoMissing false ins eq_refl)).
Defined.

(** X21. Once loadConfig has answered with at least one message, the banner
    of the face-aware revision is visible exactly when the screen is dark
    with neither the Detail panel nor the QR overlay shown, after every
    further sequence of events: every change of one of the three fields
    updates the banner. *)
Theorem banner_tracks_idle_dark_screen :
  forall (d : DOM.t) (lib : IoLib) (b0 : bool) (before after : list PageInput)
         (scrollMessages : list string),
    scrollMessages <> [] ->
    let wb := run_page (before ++ ConfigLoaded scrollMessages :: after) (boot d lib, b0) in
    snd wb = idle_dark (fst wb).
Proof.
  intros d lib b0 before after msgs Hm wb. subst wb.
  unfold run_page. rewrite fold_left_app. cbn [fold_left].
  apply (run_page_rel true after).
  assert (H : banner_rel false (run_page before (boot d lib, b0))).
  { apply run_page_rel. unfold banner_rel. cbn [fst snd]. intros _. apply idle_dark_spec.
    pose proof (stage_boot d lib) as S. injection S as -> -> ->. repeat split. }
  fold (run_page before (boot d lib, b0)).
  destruct (run_page before (boot d lib, b0)) as [w b].
  cbn [step_page]. unfold initScrollBanner.
  destruct msgs as [|m ms]; [congruence|]. cbn [List.length Nat.eqb].
  revert H. unfold banner_rel, idle_dark, updateScrollBanner. cbn [fst snd].
  destruct b, (state.lightMode (st w)), (state.showDetail (st w)), (state.showQR (st w));
    cbn [negb andb]; intuition congruence.
Qed.

Lemma banner_tracks_idle_dark_screen_witness :
  let wb := run_page ([Loop (EventsLoaded five_items false)] ++
                      ConfigLoaded ["UPlanet"] :: [Loop (KeyDown Enter); Loop (KeyDown Escape)])
              (boot full_dom IoMissing, false) in
  snd wb = idle_dark (fst wb) /\ snd wb = true.
Proof.
  intros wb. split; [|reflexivity].
  apply (banner_tracks_idle_dark_screen full_dom IoMissing false
           [Loop (EventsLoaded five_items false)]
           [Loop (KeyDown Enter); Loop (KeyDown Escape)] ["UPlanet"]).
  discriminate.
Defined.
